(** * Fencing client library (lib/fencing/st_client.c): a shallow embedding

    The fence action executor (retry policy, result classification, argument
    serialization, timeout escalation, synchronous and asynchronous runs,
    reading of the agent's output) and the IPC protocol client (call ids,
    synchronous replies, callback registry, notification subscribers,
    fencing levels, signing on) of [st_client.c], and the operation keys of
    [lib/common/operations.c], as executable Rocq definitions, followed by
    the properties proved about them. *)

From Stdlib Require Import ZArith Lia Bool List Ascii String DecimalString.
From Stdlib Require Uint63.
From Stdlib Require DecimalFacts DecimalPos DecimalN.
From Stdlib Require Import PrimFloat FloatOps.
From stdpp Require Import base option list gmap.
Import ListNotations.

Local Open Scope Z_scope.

(* ===================================================================== *)
(** * Machine integers and error codes *)
(* ===================================================================== *)

Definition INT_MAX : Z := 2147483647.
Definition INT_MIN : Z := -2147483648.

(** A C [int] holds a value in [INT_MIN, INT_MAX]; arithmetic that leaves the
    range wraps around modulo [2^32]. *)
Definition wrap_int (z : Z) : Z := (z + 2147483648) mod 4294967296 - 2147483648.

(** Conversion of an [int] to [guint] (the argument of [g_timeout_add]). *)
Definition to_guint (z : Z) : Z := z mod 4294967296.

Definition in_int (z : Z) : Prop := INT_MIN <= z <= INT_MAX.

(** [errno] values (Linux) and Pacemaker's result codes. *)
Definition pcmk_ok : Z := 0.
Definition EINVAL : Z := 22.
Definition ENOMSG : Z := 42.
Definition ENODATA : Z := 61.
Definition ETIME : Z := 62.
Definition ECOMM : Z := 70.
Definition ECHILD : Z := 10.
Definition EPROTO : Z := 71.
Definition ENOTUNIQ : Z := 76.
Definition EOPNOTSUPP : Z := 95.
Definition ECONNABORTED : Z := 103.
Definition ENOTCONN : Z := 107.
Definition ETIMEDOUT : Z := 110.
Definition pcmk_err_generic : Z := 201.

Definition SIGKILL : Z := 9.
Definition SIGTERM : Z := 15.

(* ===================================================================== *)
(** * The [double] product [timeout * 0.7] *)
(* ===================================================================== *)

(** [update_remaining_timeout] compares the [int] [diff] with the [double]
    [action->timeout * 0.7].  Both [int]s convert to [double] exactly; the
    literal [0.7] is the binary64 number [dbl_0_7 * 2^-53]; the product is the
    exact product rounded to 53 significant bits, to nearest, ties to even.
    Values are kept as integers in units of [2^-53]; the exponent range of
    binary64 is never at stake for operands of this size. *)

Definition dbl_0_7 : Z := 6305039478318694.

Definition dbl_unit : Z := 9007199254740992. (* 2^53 *)

(** Round a non-negative integer to 53 significant bits. *)
Definition round53_pos (x : Z) : Z :=
  let e := Z.max 0 (Z.log2 x - 52) in
  let g := 2 ^ e in
  let q := x / g in
  let r := x mod g in
  if 2 * r <? g then q * g
  else if g <? 2 * r then (q + 1) * g
  else if Z.even q then q * g else (q + 1) * g.

Definition round53 (x : Z) : Z :=
  if x <? 0 then - round53_pos (- x) else round53_pos x.

(** [diff < (timeout * 0.7)] as C evaluates it. *)
Definition lt_timeout_0_7 (diff timeout : Z) : bool :=
  diff * dbl_unit <? round53 (timeout * dbl_0_7).

(** The same comparison on Rocq's primitive binary64 floats, for operands
    that fit in 63 bits unsigned; used to cross-check [lt_timeout_0_7]. *)
Definition lt_timeout_0_7_prim (diff timeout : Z) : bool :=
  PrimFloat.ltb (PrimFloat.of_uint63 (Uint63.of_Z diff))
                (PrimFloat.mul (PrimFloat.of_uint63 (Uint63.of_Z timeout)) 0x1.6666666666666p-1%float).

(* ===================================================================== *)
(** * Fence actions *)
(* ===================================================================== *)

(** [struct stonith_action_s], without the callback and user data
    pointers.  [NULL] strings are [None]; a timer id of [0] means no timer
    is armed. *)
Record stonith_action_t := mk_action {
  agent : option string;
  action : option string;
  victim : option string;
  args : option string;
  timeout : Z;
  async : Z;
  fd_stdout : Z;
  fd_stderr : Z;
  last_timeout_signo : Z;
  initial_start_time : Z;
  tries : Z;
  remaining_timeout : Z;
  timer_sigterm : Z;
  timer_sigkill : Z;
  max_retries : Z;
  pid : Z;
  rc : Z;
  output : option string;
  error : option string
}.

Definition set_remaining_timeout (a : stonith_action_t) (v : Z) : stonith_action_t :=
  mk_action (agent a) (action a) (victim a) (args a) (timeout a) (async a)
            (fd_stdout a) (fd_stderr a) (last_timeout_signo a)
            (initial_start_time a) (tries a) v (timer_sigterm a)
            (timer_sigkill a) (max_retries a) (pid a) (rc a) (output a) (error a).

(** [update_remaining_timeout]; [now] is the value of [time(NULL)].  The
    difference of two [time_t] is stored in an [int]. *)
Definition update_remaining_timeout (now : Z) (a : stonith_action_t)
  : stonith_action_t * bool :=
  let diff := wrap_int (now - initial_start_time a) in
  let a' :=
    if max_retries a <=? tries a then set_remaining_timeout a 0
    else if negb (rc a =? - ETIME) && lt_timeout_0_7 diff (timeout a)
         then set_remaining_timeout a (wrap_int (timeout a - diff))
         else set_remaining_timeout a 0 in
  (a', negb (remaining_timeout a' =? 0)).

(** ** Field updates *)

Definition set_timers (a : stonith_action_t) (t k : Z) : stonith_action_t :=
  mk_action (agent a) (action a) (victim a) (args a) (timeout a) (async a)
            (fd_stdout a) (fd_stderr a) (last_timeout_signo a)
            (initial_start_time a) (tries a) (remaining_timeout a) t k
            (max_retries a) (pid a) (rc a) (output a) (error a).

Definition set_fds (a : stonith_action_t) (o e : Z) : stonith_action_t :=
  mk_action (agent a) (action a) (victim a) (args a) (timeout a) (async a)
            o e (last_timeout_signo a)
            (initial_start_time a) (tries a) (remaining_timeout a)
            (timer_sigterm a) (timer_sigkill a)
            (max_retries a) (pid a) (rc a) (output a) (error a).

Definition set_last_timeout_signo (a : stonith_action_t) (s : Z) : stonith_action_t :=
  mk_action (agent a) (action a) (victim a) (args a) (timeout a) (async a)
            (fd_stdout a) (fd_stderr a) s
            (initial_start_time a) (tries a) (remaining_timeout a)
            (timer_sigterm a) (timer_sigkill a)
            (max_retries a) (pid a) (rc a) (output a) (error a).

Definition set_start_tries (a : stonith_action_t) (t0 n : Z) : stonith_action_t :=
  mk_action (agent a) (action a) (victim a) (args a) (timeout a) (async a)
            (fd_stdout a) (fd_stderr a) (last_timeout_signo a)
            t0 n (remaining_timeout a)
            (timer_sigterm a) (timer_sigkill a)
            (max_retries a) (pid a) (rc a) (output a) (error a).

Definition set_pid (a : stonith_action_t) (p : Z) : stonith_action_t :=
  mk_action (agent a) (action a) (victim a) (args a) (timeout a) (async a)
            (fd_stdout a) (fd_stderr a) (last_timeout_signo a)
            (initial_start_time a) (tries a) (remaining_timeout a)
            (timer_sigterm a) (timer_sigkill a)
            (max_retries a) p (rc a) (output a) (error a).

Definition set_result (a : stonith_action_t) (r : Z) (o e : option string)
  : stonith_action_t :=
  mk_action (agent a) (action a) (victim a) (args a) (timeout a) (async a)
            (fd_stdout a) (fd_stderr a) (last_timeout_signo a)
            (initial_start_time a) (tries a) (remaining_timeout a)
            (timer_sigterm a) (timer_sigkill a)
            (max_retries a) (pid a) r o e.

(* ===================================================================== *)
(** * The main loop: one-shot timers and the signals sent *)
(* ===================================================================== *)

(** A timeout source of the GLib main loop: its id (never 0), the time in
    milliseconds at which it is due, and its callback with its data. *)
Record gsource (F : Type) := mk_gsource {
  src_id : Z;
  src_due : Z;
  src_fn : F
}.
Arguments mk_gsource {F} _ _ _.
Arguments src_id {F} _.
Arguments src_due {F} _.
Arguments src_fn {F} _.

(** What the process observes of its environment: the clock (ms), the
    next source id, the pending timeout sources and the [kill(2)] calls made
    so far, oldest first, as (pid argument, signal). *)
Record world (F : Type) := mk_world {
  w_now : Z;
  w_next_source : Z;
  w_sources : list (gsource F);
  w_kills : list (Z * Z)
}.
Arguments mk_world {F} _ _ _ _.
Arguments w_now {F} _.
Arguments w_next_source {F} _.
Arguments w_sources {F} _.
Arguments w_kills {F} _.

(** [g_timeout_add(interval, fn, data)]: the interval is a [guint]. *)
Definition g_timeout_add {F} (interval : Z) (fn : F) (w : world F) : world F * Z :=
  let id := w_next_source w in
  (mk_world (w_now w) (id + 1)
            (w_sources w ++ [mk_gsource id (w_now w + interval) fn])
            (w_kills w),
   id).

Definition g_source_remove {F} (id : Z) (w : world F) : world F :=
  mk_world (w_now w) (w_next_source w)
           (List.filter (fun s => negb (src_id s =? id)) (w_sources w))
           (w_kills w).

(** [kill(pid, sig)], recorded. *)
Definition kill {F} (p sig : Z) (w : world F) : world F :=
  mk_world (w_now w) (w_next_source w) (w_sources w) (w_kills w ++ [(p, sig)]).

(** The callbacks this file hands to [g_timeout_add] for a fence action. *)
Inductive timer_fn := St_child_term | St_child_kill.

(** [st_child_term] and [st_child_kill]: both return [FALSE], so the source
    that ran them is destroyed by the main loop. *)
Definition st_child_term (w : world timer_fn) (track : stonith_action_t)
  : world timer_fn * stonith_action_t * bool :=
  let track := set_timers track 0 (timer_sigkill track) in
  let track := set_last_timeout_signo track SIGTERM in
  (kill (- pid track) SIGTERM w, track, false).

Definition st_child_kill (w : world timer_fn) (track : stonith_action_t)
  : world timer_fn * stonith_action_t * bool :=
  let track := set_timers track (timer_sigterm track) 0 in
  let track := set_last_timeout_signo track SIGKILL in
  (kill (- pid track) SIGKILL w, track, false).

Definition run_timer_fn (fn : timer_fn) (w : world timer_fn) (a : stonith_action_t)
  : world timer_fn * stonith_action_t * bool :=
  match fn with
  | St_child_term => st_child_term w a
  | St_child_kill => st_child_kill w a
  end.

(** The pending source that is due first (the earliest added among equals). *)
Fixpoint earliest {F} (l : list (gsource F)) : option (gsource F) :=
  match l with
  | [] => None
  | s :: l' =>
      match earliest l' with
      | Some s' => if src_due s' <? src_due s then Some s' else Some s
      | None => Some s
      end
  end.

(** Dispatch of the sources that are due at the current time, earliest
    first.  A callback that returns [FALSE] has its source removed; one that
    returns [TRUE] is left for the next iteration of the loop. *)
Fixpoint dispatch_due (fuel : nat) (w : world timer_fn) (a : stonith_action_t)
  : world timer_fn * stonith_action_t :=
  match fuel with
  | O => (w, a)
  | S fuel' =>
      match earliest (w_sources w) with
      | Some s =>
          if src_due s <=? w_now w then
            let '(w1, a1, again) := run_timer_fn (src_fn s) w a in
            if again then (w1, a1)
            else dispatch_due fuel' (g_source_remove (src_id s) w1) a1
          else (w, a)
      | None => (w, a)
      end
  end.

(** The main loop runs until the clock reads [t] with no child exiting. *)
Definition run_until (t : Z) (w : world timer_fn) (a : stonith_action_t)
  : world timer_fn * stonith_action_t :=
  let w' := mk_world (Z.max (w_now w) t) (w_next_source w) (w_sources w) (w_kills w) in
  dispatch_due (List.length (w_sources w)) w' a.

(* ===================================================================== *)
(** * Running an agent asynchronously *)
(* ===================================================================== *)

(** [stonith_action_clear_tracking_data]. *)
Definition stonith_action_clear_tracking_data (w : world timer_fn)
    (a : stonith_action_t) : world timer_fn * stonith_action_t :=
  let w := if 0 <? timer_sigterm a then g_source_remove (timer_sigterm a) w else w in
  let w := if 0 <? timer_sigkill a then g_source_remove (timer_sigkill a) w else w in
  (w,
   mk_action (agent a) (action a) (victim a) (args a) (timeout a) (async a)
             0 0 0
             (initial_start_time a) (tries a) (remaining_timeout a)
             0 0
             (max_retries a) 0 0 None None).

(** What the operating system did for one attempt, seen from the parent:
    whether the three [pipe] calls succeeded, the value of [fork] (the
    child's pid, or negative), the parent's read ends, and the result of
    writing the arguments ([spawn_total] bytes accepted in all,
    [spawn_write_ret] the last return value of [write]). *)
Record spawn := mk_spawn {
  spawn_pipes_ok : bool;
  spawn_fork : Z;
  spawn_p_read_fd : Z;
  spawn_p_stderr_fd : Z;
  spawn_total : Z;
  spawn_write_ret : Z
}.

(** [internal_stonith_action_execute] for an action started with
    [stonith_action_execute_async] ([action->async] set), in the parent
    process; [now] is [time(NULL)].  Returns the function's result. *)
Definition internal_stonith_action_execute (now : Z) (os : spawn)
    (w : world timer_fn) (a : stonith_action_t)
  : world timer_fn * stonith_action_t * Z :=
  let '(w, a) := stonith_action_clear_tracking_data w a in
  let a := if tries a =? 0 then set_start_tries a now (tries a) else a in
  let a := set_start_tries a (initial_start_time a) (wrap_int (tries a + 1)) in
  match args a, agent a with
  | Some arg_blob, Some _ =>
      if negb (spawn_pipes_ok os) then (w, a, - EPROTO)
      else if spawn_fork os <? 0 then (w, a, - ECHILD)
      else
        let a := set_pid a (spawn_fork os) in
        if negb (spawn_total os =? Z.of_nat (String.length arg_blob)) then
          (w, a, if 0 <=? spawn_write_ret os then - ECOMM else - EPROTO)
        else
          let a := set_fds a (spawn_p_read_fd os) (spawn_p_stderr_fd os) in
          let a := set_last_timeout_signo a 0 in
          if negb (remaining_timeout a =? 0) then
            let '(w, id_term) :=
              g_timeout_add (to_guint (wrap_int (1000 * remaining_timeout a)))
                            St_child_term w in
            let a := set_timers a id_term (timer_sigkill a) in
            let '(w, id_kill) :=
              g_timeout_add
                (to_guint (wrap_int (1000 * wrap_int (remaining_timeout a + 5))))
                St_child_kill w in
            let a := set_timers a (timer_sigterm a) id_kill in
            (w, a, 0)
          else (w, a, 0)
  | _, _ => (w, a, - EPROTO)
  end.

Definition set_async (a : stonith_action_t) (v : Z) : stonith_action_t :=
  mk_action (agent a) (action a) (victim a) (args a) (timeout a) v
            (fd_stdout a) (fd_stderr a) (last_timeout_signo a)
            (initial_start_time a) (tries a) (remaining_timeout a)
            (timer_sigterm a) (timer_sigkill a)
            (max_retries a) (pid a) (rc a) (output a) (error a).

(** [stonith_action_execute_async]: the child's pid, or the error. *)
Definition stonith_action_execute_async (now : Z) (os : spawn)
    (w : world timer_fn) (a : stonith_action_t)
  : world timer_fn * stonith_action_t * Z :=
  let a := set_async a 1 in
  let '(w, a, rc) := internal_stonith_action_execute now os w a in
  (w, a, if rc <? 0 then rc else pid a).

(** [strstr(haystack, needle) != NULL]. *)
Fixpoint strstr (haystack needle : string) : bool :=
  if String.prefix needle haystack then true
  else match haystack with
       | EmptyString => false
       | String _ rest => strstr rest needle
       end.

(** The first part of [stonith_action_async_done]: the timers are removed,
    the child's output is read ([out] and [err] are what [read_output]
    returns for the two descriptors) and the result code is derived from the
    way the child ended. *)
Definition async_done_collect (out err : option string) (signo exitcode : Z)
    (w : world timer_fn) (a : stonith_action_t)
  : world timer_fn * stonith_action_t :=
  let w1 := if 0 <? timer_sigterm a then g_source_remove (timer_sigterm a) w else w in
  let a := if 0 <? timer_sigterm a then set_timers a 0 (timer_sigkill a) else a in
  let w2 := if 0 <? timer_sigkill a then g_source_remove (timer_sigkill a) w1 else w1 in
  let a := if 0 <? timer_sigkill a then set_timers a (timer_sigterm a) 0 else a in
  let a := set_result a (rc a) out err in
  let code :=
    if negb (last_timeout_signo a =? 0) then - ETIME
    else if negb (signo =? 0) then - ECONNABORTED
    else if 0 <? exitcode then
      match error a with
      | None => - ENODATA
      | Some e =>
          if strstr e "imed out" then - ETIMEDOUT
          else if strstr e "Unrecognised action" then - EOPNOTSUPP
          else - pcmk_err_generic
      end
    else exitcode in
  (w2, set_result a code (output a) (error a)).

(** How [stonith_action_async_done] ends: with a new attempt under way, or
    with the completion callback run on the final result and the action
    destroyed. *)
Inductive async_outcome :=
  | Retrying (w : world timer_fn) (a : stonith_action_t)
  | Completed (w : world timer_fn) (final_rc : Z) (final_output : option string).

(** [stonith_action_async_done]; [os] is what the operating system does for
    the new attempt, if one is made. *)
Definition stonith_action_async_done (now : Z) (os : spawn)
    (out err : option string) (signo exitcode : Z)
    (w : world timer_fn) (a : stonith_action_t) : async_outcome :=
  let '(w, a) := async_done_collect out err signo exitcode w a in
  let finish w a :=
    let '(w', _) := stonith_action_clear_tracking_data w a in
    Completed w' (rc a) (output a) in
  if negb (rc a =? pcmk_ok) then
    let '(a1, retry) := update_remaining_timeout now a in
    if retry then
      let '(w2, a2, r) := internal_stonith_action_execute now os w a1 in
      if r =? pcmk_ok then Retrying w2 a2 else finish w2 a2
    else finish w a1
  else finish w a.

(* ===================================================================== *)
(** * The session with the fencer *)
(* ===================================================================== *)

(** [enum stonith_state] and the call options of [crm/stonith-ng.h]. *)
Inductive stonith_state :=
  | stonith_connected_command
  | stonith_connected_query
  | stonith_disconnected.

Definition stonith_state_eqb (a b : stonith_state) : bool :=
  match a, b with
  | stonith_connected_command, stonith_connected_command
  | stonith_connected_query, stonith_connected_query
  | stonith_disconnected, stonith_disconnected => true
  | _, _ => false
  end.

Definition st_opt_discard_reply : Z := 16.          (* 0x00000010 *)
Definition st_opt_sync_call : Z := 4096.            (* 0x00001000 *)
Definition st_opt_timeout_updates : Z := 8192.      (* 0x00002000 *)
Definition st_opt_report_only_success : Z := 16384. (* 0x00004000 *)

(** [call_options & flag] as a C condition. *)
Definition has_opt (call_options flag : Z) : bool :=
  negb (Z.land call_options flag =? 0).

(** Callbacks are function pointers: [None] is [NULL], and two pointers
    are compared by their addresses. *)
Definition fn_ptr := option nat.

(** [struct timer_rec_s]: [ref] is the id of the pending source, 0 before
    one is added. *)
Record timer_rec_s := mk_timer_rec {
  tr_call_id : Z;
  tr_timeout : Z;
  tr_ref : Z
}.

(** [stonith_callback_client_t]. *)
Record stonith_callback_client_t := mk_callback_client {
  callback : fn_ptr;
  id : option string;
  user_data : Z;
  only_success : bool;
  allow_timeout_updates : bool;
  timer : option timer_rec_s
}.

(** [stonith_notify_client_t]. *)
Record stonith_notify_client_t := mk_notify_client {
  event : option string;
  notify : fn_ptr
}.

(** [stonith_private_t]: [ipc] tells whether the channel pointer is set;
    the callback table is keyed by call id. *)
Record stonith_private_t := mk_private {
  token : option string;
  ipc : bool;
  stonith_op_callback_table : gmap Z stonith_callback_client_t;
  notify_list : list stonith_notify_client_t;
  op_callback : fn_ptr
}.

(** [stonith_t]. *)
Record stonith_t := mk_stonith {
  state : stonith_state;
  call_id : Z;
  st_private : stonith_private_t
}.

(** [stonith_api_new]. *)
Definition stonith_api_new : stonith_t :=
  mk_stonith stonith_disconnected 1 (mk_private None false ∅ [] None).

(** The only source callback of a session, with the call id held by the
    [timer_rec_s] it is given. *)
Inductive async_fn := Stonith_async_timeout_handler (for_call : Z).

(** ** Messages *)

(** A request as [stonith_create_op] and [stonith_send_command] build it. *)
Record request := mk_request {
  rq_token : string;
  rq_op : string;
  rq_call_id : Z;
  rq_call_options : Z;
  rq_timeout : Z;
  rq_data : option string
}.

(** A message from the fencer, as this file reads it: the integer
    attributes [F_STONITH_CALLID] and [F_STONITH_RC] when present
    ([crm_element_value_int] leaves its destination alone and returns
    non-zero when an attribute is missing), and the rest of the document. *)
Record xml_reply := mk_reply {
  f_callid : option Z;
  f_rc : option Z;
  f_body : string
}.

(** [stonith_create_op]: [NULL] when there is no token. *)
Definition stonith_create_op (call : Z) (tok : option string) (op : string)
    (data : option string) (call_options : Z) : option request :=
  match tok with
  | Some t => Some (mk_request t op call call_options 0 data)
  | None => None
  end.

(** What the transport does with one [crm_ipc_send]: its return value, the
    reply it hands back and whether [crm_ipc_connected] holds afterwards. *)
Record exchange := mk_exchange {
  ipc_rc : Z;
  ipc_reply : option xml_reply;
  ipc_connected : bool
}.

(** What a call of [stonith_send_command] leaves behind: the session, the
    return value, the caller's output slot ([None] when the caller passed
    [NULL], else its content), the requests handed to the transport and the
    number of [free_xml] calls made on the reply. *)
Record send_outcome := mk_send_outcome {
  so_session : stonith_t;
  so_rc : Z;
  so_output_data : option (option xml_reply);
  so_sent : list request;
  so_reply_frees : nat
}.

Definition set_state (st : stonith_t) (s : stonith_state) : stonith_t :=
  mk_stonith s (call_id st) (st_private st).

Definition set_call_id (st : stonith_t) (c : Z) : stonith_t :=
  mk_stonith (state st) c (st_private st).

Definition set_private (st : stonith_t) (p : stonith_private_t) : stonith_t :=
  mk_stonith (state st) (call_id st) p.

(** [stonith_send_command]. *)
Definition stonith_send_command (x : exchange) (stonith : stonith_t)
    (op : option string) (data : option string)
    (output_data : option (option xml_reply)) (call_options timeout : Z)
  : send_outcome :=
  let native := st_private stonith in
  if stonith_state_eqb (state stonith) stonith_disconnected then
    mk_send_outcome stonith (- ENOTCONN) output_data [] 0
  else
    let output_data := match output_data with Some _ => Some None | None => None end in
    match op with
    | None => mk_send_outcome stonith (- EINVAL) output_data [] 0
    | Some op =>
        let stonith := set_call_id stonith (wrap_int (call_id stonith + 1)) in
        let stonith := if call_id stonith <? 1 then set_call_id stonith 1 else stonith in
        match stonith_create_op (call_id stonith) (token native) op data call_options with
        | None => mk_send_outcome stonith (- EINVAL) output_data [] 0
        | Some op_msg =>
            let op_msg := mk_request (rq_token op_msg) (rq_op op_msg) (rq_call_id op_msg)
                                     (rq_call_options op_msg) timeout (rq_data op_msg) in
            let done (stonith : stonith_t) (rc : Z) out (frees : nat) :=
              let stonith := if ipc_connected x then stonith
                             else set_state stonith stonith_disconnected in
              mk_send_outcome stonith rc out [op_msg]
                              (frees + match ipc_reply x with Some _ => 1 | None => 0 end) in
            if ipc_rc x <? 0 then done stonith (- ECOMM) output_data 0%nat
            else if negb (has_opt call_options st_opt_sync_call) then
              if call_id stonith =? 0 then
                mk_send_outcome stonith (- EPROTO) output_data [op_msg] 0
              else
                mk_send_outcome stonith (call_id stonith) output_data [op_msg]
                                match ipc_reply x with Some _ => 1%nat | None => 0%nat end
            else
              let reply_id :=
                match ipc_reply x with
                | Some r => match f_callid r with Some i => i | None => -1 end
                | None => -1
                end in
              if reply_id =? call_id stonith then
                let rc :=
                  match ipc_reply x with
                  | Some r => match f_rc r with Some v => v | None => - ENOMSG end
                  | None => - ENOMSG
                  end in
                if has_opt call_options st_opt_discard_reply
                   || negb (bool_decide (is_Some output_data))
                then done stonith rc output_data 0%nat
                else
                  (* the reply is handed over and the local pointer cleared *)
                  let stonith' := if ipc_connected x then stonith
                                  else set_state stonith stonith_disconnected in
                  mk_send_outcome stonith' rc (Some (ipc_reply x)) [op_msg] 0
              else
                (* both remaining branches free the reply and give -ENOMSG *)
                done stonith (- ENOMSG) output_data
                     match ipc_reply x with Some _ => 1%nat | None => 0%nat end
        end
    end.

(** ** The callback registry *)

(** One call of a completion callback: the function called and the
    [stonith_callback_data_t] it is given. *)
Record invocation := mk_invocation {
  inv_fn : nat;
  inv_call_id : Z;
  inv_rc : Z;
  inv_userdata : Z
}.

(** [invoke_callback]. *)
Definition invoke_callback (call rc userdata : Z) (fn : nat) : invocation :=
  mk_invocation fn call rc userdata.

(** [stonith_destroy_op_callback], the value destructor of the table. *)
Definition stonith_destroy_op_callback (blob : stonith_callback_client_t)
    (w : world async_fn) : world async_fn :=
  match timer blob with
  | Some t => if 0 <? tr_ref t then g_source_remove (tr_ref t) w else w
  | None => w
  end.

Definition set_table (p : stonith_private_t)
    (t : gmap Z stonith_callback_client_t) : stonith_private_t :=
  mk_private (token p) (ipc p) t (notify_list p) (op_callback p).

Definition set_op_callback (p : stonith_private_t) (f : fn_ptr) : stonith_private_t :=
  mk_private (token p) (ipc p) (stonith_op_callback_table p) (notify_list p) f.

Definition set_notify_list (p : stonith_private_t)
    (l : list stonith_notify_client_t) : stonith_private_t :=
  mk_private (token p) (ipc p) (stonith_op_callback_table p) l (op_callback p).

(** [g_hash_g_hash_table_remove] on the callback table. *)
Definition g_hash_table_remove (key : Z) (w : world async_fn) (p : stonith_private_t)
  : world async_fn * stonith_private_t :=
  match stonith_op_callback_table p !! key with
  | Some blob =>
      (stonith_destroy_op_callback blob w,
       set_table p (delete key (stonith_op_callback_table p)))
  | None => (w, p)
  end.

(** [g_hash_g_hash_table_insert] on the callback table: a value already stored
    under the key is destroyed. *)
Definition g_hash_table_insert (key : Z) (blob : stonith_callback_client_t)
    (w : world async_fn) (p : stonith_private_t)
  : world async_fn * stonith_private_t :=
  let w := match stonith_op_callback_table p !! key with
           | Some old => stonith_destroy_op_callback old w
           | None => w
           end in
  (w, set_table p (<[key := blob]> (stonith_op_callback_table p))).

(** [stonith_api_del_callback]. *)
Definition stonith_api_del_callback (w : world async_fn) (stonith : stonith_t)
    (call : Z) (all_callbacks : bool) : world async_fn * stonith_t * Z :=
  let private := st_private stonith in
  if all_callbacks then
    let w := map_fold (fun _ blob w => stonith_destroy_op_callback blob w) w
                      (stonith_op_callback_table private) in
    (w, set_private stonith (set_table (set_op_callback private None) ∅), pcmk_ok)
  else if call =? 0 then
    (w, set_private stonith (set_op_callback private None), pcmk_ok)
  else
    let '(w, private) := g_hash_table_remove call w private in
    (w, set_private stonith private, pcmk_ok).

(** [stonith_perform_callback]: [msg] is the reply ([None] when the
    fallback timer calls it); the result lists the callbacks invoked, in
    order. *)
Definition stonith_perform_callback (w : world async_fn) (stonith : stonith_t)
    (msg : option xml_reply) (call rc : Z)
  : world async_fn * stonith_t * list invocation :=
  let rc := match msg with
            | Some m => match f_rc m with Some v => v | None => rc end
            | None => rc
            end in
  let call := match msg with
              | Some m => match f_callid m with Some v => v | None => call end
              | None => call
              end in
  let blob := stonith_op_callback_table (st_private stonith) !! call in
  let '(w, stonith, local_callback, local_user_data, local_only_success) :=
    match blob with
    | Some b =>
        let '(w, stonith, _) := stonith_api_del_callback w stonith call false in
        (w, stonith, callback b, user_data b, only_success b)
    | None => (w, stonith, None, 0, false)
    end in
  let specific :=
    match local_callback with
    | Some fn =>
        if (rc =? pcmk_ok) || negb local_only_success
        then [invoke_callback call rc local_user_data fn]
        else []
    | None => []
    end in
  let global :=
    match op_callback (st_private stonith) with
    | Some fn => [invoke_callback call rc 0 fn]
    | None => []
    end in
  (w, stonith, specific ++ global).

(** [set_callback_timeout]. *)
Definition set_callback_timeout (cb : stonith_callback_client_t)
    (w : world async_fn) (call timeout : Z)
  : world async_fn * stonith_callback_client_t :=
  if timeout <=? 0 then (w, cb)
  else
    let async_timer := match timer cb with
                       | Some t => t
                       | None => mk_timer_rec 0 0 0
                       end in
    let ms := wrap_int (wrap_int (timeout + 60) * 1000) in
    let w := if negb (tr_ref async_timer =? 0)
             then g_source_remove (tr_ref async_timer) w else w in
    let '(w, ref) := g_timeout_add (to_guint ms) (Stonith_async_timeout_handler call) w in
    (w, mk_callback_client (callback cb) (id cb) (user_data cb) (only_success cb)
                           (allow_timeout_updates cb)
                           (Some (mk_timer_rec call ms ref))).

(** [update_callback_timeout]. *)
Definition update_callback_timeout (w : world async_fn) (call timeout : Z)
    (st : stonith_t) : world async_fn * stonith_t :=
  let private := st_private st in
  match stonith_op_callback_table private !! call with
  | Some cb =>
      if allow_timeout_updates cb then
        let '(w, cb) := set_callback_timeout cb w call timeout in
        (w, set_private st
              (set_table private (<[call := cb]> (stonith_op_callback_table private))))
      else (w, st)
  | None => (w, st)
  end.

(** [stonith_api_add_callback]: the result is [None] when a [NULL] callback
    is called, which no C semantics covers; otherwise the environment, the
    session, the return value and the callbacks invoked. *)
Definition stonith_api_add_callback (w : world async_fn) (stonith : stonith_t)
    (call timeout options user_data0 : Z) (callback_name : option string)
    (callback0 : fn_ptr)
  : option (world async_fn * stonith_t * Z * list invocation) :=
  let private := st_private stonith in
  let store (private : stonith_private_t) :=
    let blob := mk_callback_client callback0 callback_name user_data0
                  (has_opt options st_opt_report_only_success)
                  (has_opt options st_opt_timeout_updates) None in
    let '(w, blob) :=
      if 0 <? timeout then set_callback_timeout blob w call timeout else (w, blob) in
    let '(w, private) := g_hash_table_insert call blob w private in
    Some (w, set_private stonith private, 1, []) in
  if call =? 0 then store (set_op_callback private callback0)
  else if call <? 0 then
    if negb (has_opt options st_opt_report_only_success) then
      match callback0 with
      | Some fn => Some (w, stonith, 0, [invoke_callback call call user_data0 fn])
      | None => None
      end
    else Some (w, stonith, 0, [])
  else store private.

(** ** Notification subscribers *)

(** [strcmp], up to the sign of its result. *)
Definition strcmp (a b : string) : Z :=
  match String.compare a b with
  | Eq => 0
  | Lt => -1
  | Gt => 1
  end.

(** [stonithlib_GCompareFunc]. *)
Definition stonithlib_GCompareFunc (a_client b_client : stonith_notify_client_t) : Z :=
  match event a_client, event b_client with
  | Some ea, Some eb =>
      let rc := strcmp ea eb in
      if rc =? 0 then
        match notify a_client, notify b_client with
        | Some fa, Some fb =>
            if (fa =? fb)%nat then 0
            else if (fa <? fb)%nat then -1
            else 1
        | _, _ => 0
        end
      else rc
  | _, _ => 0
  end.

(** [g_list_find_custom]: the first element that compares equal to [data]. *)
Fixpoint g_list_find_custom (l : list stonith_notify_client_t)
    (data : stonith_notify_client_t) : option stonith_notify_client_t :=
  match l with
  | [] => None
  | c :: l' =>
      if stonithlib_GCompareFunc c data =? 0 then Some c
      else g_list_find_custom l' data
  end.

(** [g_list_remove] of the element that [g_list_find_custom] returns. *)
Fixpoint g_list_remove (l : list stonith_notify_client_t)
    (data : stonith_notify_client_t) : list stonith_notify_client_t :=
  match l with
  | [] => []
  | c :: l' =>
      if stonithlib_GCompareFunc c data =? 0 then l'
      else c :: g_list_remove l' data
  end.

(** A control message of [stonith_set_notification]: whether it activates
    or deactivates, and for which event. *)
Record notify_control := mk_notify_control {
  nc_activate : bool;
  nc_event : option string
}.

(** [stonith_set_notification]: the messages handed to the transport. *)
Definition stonith_set_notification (stonith : stonith_t)
    (callback_event : option string) (enabled : bool) : list notify_control :=
  if negb (stonith_state_eqb (state stonith) stonith_disconnected)
  then [mk_notify_control enabled callback_event]
  else [].

(** [stonith_api_add_notification]: the session, the return value and the
    control messages sent. *)
Definition stonith_api_add_notification (stonith : stonith_t)
    (event0 : option string) (callback0 : fn_ptr)
  : stonith_t * Z * list notify_control :=
  let private := st_private stonith in
  let new_client := mk_notify_client event0 callback0 in
  match g_list_find_custom (notify_list private) new_client with
  | Some _ => (stonith, - ENOTUNIQ, [])
  | None =>
      let private := set_notify_list private (notify_list private ++ [new_client]) in
      let stonith := set_private stonith private in
      (stonith, pcmk_ok, stonith_set_notification stonith event0 true)
  end.

(** [stonith_api_del_notification]. *)
Definition stonith_api_del_notification (stonith : stonith_t)
    (event0 : option string) : stonith_t * Z * list notify_control :=
  let private := st_private stonith in
  let new_client := mk_notify_client event0 None in
  let sent := stonith_set_notification stonith event0 false in
  match g_list_find_custom (notify_list private) new_client with
  | Some _ =>
      (set_private stonith
         (set_notify_list private (g_list_remove (notify_list private) new_client)),
       pcmk_ok, sent)
  | None => (stonith, pcmk_ok, sent)
  end.

(** [stonith_api_signoff]. *)
Definition stonith_api_signoff (stonith : stonith_t) : stonith_t * Z :=
  let native := st_private stonith in
  let native := mk_private None false (stonith_op_callback_table native)
                           (notify_list native) (op_callback native) in
  (mk_stonith stonith_disconnected (call_id stonith) native, pcmk_ok).

(** What the environment does during [stonith_api_signon]: whether the call
    is made without a main loop ([stonith_fd] given), whether a channel
    object could be made and connected, the return value of the [crm_ipc_send]
    of the registration and the [F_STONITH_OPERATION] and
    [F_STONITH_CLIENTID] attributes of its reply, if there is one. *)
Record signon_io := mk_signon_io {
  sg_no_mainloop : bool;
  sg_ipc : bool;
  sg_connect : bool;
  sg_send_rc : Z;
  sg_reply : option (option string * option string)
}.

(** String constants of the Pacemaker headers used below. *)
Definition CRM_META : string := "CRM_meta".
Definition CRM_OP_REGISTER : string := "register".
Definition STONITH_ATTR_ACTION_OP : string := "action".
Definition STONITH_ATTR_HOSTARG : string := "pcmk_host_argument".

Definition newline : string := String "010"%char EmptyString.

(** A [GHashTable] from strings to strings, listed in the order in which
    [g_hash_table_foreach] visits it. *)
Definition str_table := list (string * string).

Fixpoint g_hash_table_lookup (t : str_table) (k : string) : option string :=
  match t with
  | [] => None
  | (k', v) :: t' => if String.eqb k' k then Some v else g_hash_table_lookup t' k
  end.

(** [snprintf(buffer, sizeof(buffer), ...)] keeps 511 characters. *)
Definition snprintf_512 (s : string) : string := String.substring 0 511 s.

(** [%u] of a [uint32_t]. *)
Definition print_uint (n : N) : string :=
  DecimalString.NilEmpty.string_of_uint (N.to_uint n).

(** ** The blob as the agent reads it *)

Definition is_newline (c : ascii) : bool := Ascii.eqb c "010"%char.
Definition is_equals (c : ascii) : bool := Ascii.eqb c "="%char.

Fixpoint has_char (p : ascii -> bool) (s : string) : bool :=
  match s with
  | EmptyString => false
  | String c s' => p c || has_char p s'
  end.

(** A string that fits on one line, and one that can be the key of a line. *)
Definition clean (s : string) : bool := negb (has_char is_newline s).
Definition clean_key (s : string) : bool :=
  negb (has_char is_newline s) && negb (has_char is_equals s).

(** The newline-terminated lines of a blob, and what follows the last
    newline. *)
Fixpoint split_lines (s : string) : list string * string :=
  match s with
  | EmptyString => ([], EmptyString)
  | String c s' =>
      let '(ls, rest) := split_lines s' in
      if is_newline c then (EmptyString :: ls, rest)
      else match ls with
           | l :: ls' => (String c l :: ls', rest)
           | [] => ([], String c rest)
           end
  end.

(** The key of a [key=value] line: what precedes the first [=]. *)
Fixpoint line_key (l : string) : option string :=
  match l with
  | EmptyString => None
  | String c l' =>
      if is_equals c then Some EmptyString
      else match line_key l' with
           | Some k => Some (String c k)
           | None => None
           end
  end.

(** A [NULL] argument list is an empty blob. *)
Definition blob_of (arg_list : option string) : string :=
  match arg_list with Some b => b | None => EmptyString end.

(** The comparisons of Pacemaker's common library ([strcasecmp] on two
    strings, [NULL] equal to [NULL] only), with which the definitions above
    are run on examples. *)
Definition tolower (c : ascii) : ascii :=
  let n := nat_of_ascii c in
  if (65 <=? n)%nat && (n <=? 90)%nat then ascii_of_nat (n + 32) else c.

Fixpoint strcasecmp_eq (a b : string) : bool :=
  match a, b with
  | EmptyString, EmptyString => true
  | String x a', String y b' => Ascii.eqb (tolower x) (tolower y) && strcasecmp_eq a' b'
  | _, _ => false
  end.

Definition nocase_str_eq (a b : option string) : bool :=
  match a, b with
  | Some x, Some y => strcasecmp_eq x y
  | None, None => true
  | _, _ => false
  end.

Definition nocase_str_neq (a b : option string) : bool := negb (nocase_str_eq a b).

Section StringComparison.

(** [safe_str_eq] and [safe_str_neq] come from Pacemaker's common library;
    the definitions below hold for whatever they compute. *)
Variable safe_str_eq : option string -> option string -> bool.
Variable safe_str_neq : option string -> option string -> bool.

(** [stonith_api_signon]. *)
Definition stonith_api_signon (io : signon_io) (stonith : stonith_t)
  : stonith_t * Z :=
  let stonith := set_state stonith stonith_connected_command in
  let native := st_private stonith in
  let native := mk_private (token native) (sg_ipc io)
                           (stonith_op_callback_table native)
                           (notify_list native) (op_callback native) in
  let rc :=
    if sg_no_mainloop io then
      if sg_ipc io && sg_connect io then pcmk_ok
      else if sg_ipc io then - ENOTCONN else pcmk_ok
    else pcmk_ok in
  let rc := if ipc native then rc else - ENOTCONN in
  let '(native, rc) :=
    if rc =? pcmk_ok then
      if sg_send_rc io <? 0 then (native, - ECOMM)
      else match sg_reply io with
           | None => (native, - EPROTO)
           | Some (msg_type, tmp_ticket) =>
               if safe_str_neq msg_type (Some CRM_OP_REGISTER) then (native, - EPROTO)
               else match tmp_ticket with
                    | None => (native, - EPROTO)
                    | Some t =>
                        (mk_private (Some t) (ipc native)
                                    (stonith_op_callback_table native)
                                    (notify_list native) (op_callback native),
                         pcmk_ok)
                    end
           end
    else (native, rc) in
  let stonith := set_private stonith native in
  if rc =? pcmk_ok then (stonith, pcmk_ok)
  else (fst (stonith_api_signoff stonith), rc).

(** The calls a client makes on a session. *)
Inductive session_call :=
  | Call_signon (io : signon_io)
  | Call_signoff
  | Call_send (x : exchange) (op data : option string)
              (output_data : option (option xml_reply)) (call_options timeout : Z).

Definition run_call (c : session_call) (st : stonith_t) : stonith_t :=
  match c with
  | Call_signon io => fst (stonith_api_signon io st)
  | Call_signoff => fst (stonith_api_signoff st)
  | Call_send x op data out opts tmo =>
      so_session (stonith_send_command x st op data out opts tmo)
  end.

Definition run_calls (cs : list session_call) (st : stonith_t) : stonith_t :=
  fold_left (fun st c => run_call c st) cs st.

(** ** Arguments for the agent *)

(** [append_arg]: [args] is the list built so far ([None] for [NULL]). *)
Definition append_arg (key value : option string) (args : option string)
  : option string :=
  match key, value with
  | Some k, Some v =>
      if strstr k "pcmk_" then args
      else if strstr k CRM_META then args
      else if safe_str_eq (Some k) (Some "crm_feature_set"%string) then args
      else
        let last := match args with Some a => a | None => EmptyString end in
        Some (last ++ k ++ "=" ++ v ++ newline)%string
  | _, _ => args
  end.

(** [append_config_arg]. *)
Definition append_config_arg (key value : string) (user_data : option string)
  : option string :=
  if safe_str_neq (Some key) (Some STONITH_ATTR_ACTION_OP)
  then append_arg (Some key) (Some value) user_data
  else user_data.

(** [make_args]. *)
Definition make_args (agent action victim : option string) (victim_nodeid : N)
    (device_args port_map : option str_table) : option string :=
  match action with
  | None => None
  | Some action0 =>
      let buffer := snprintf_512 ("pcmk_" ++ action0 ++ "_action")%string in
      let value := match device_args with
                   | Some t => g_hash_table_lookup t buffer
                   | None => None
                   end in
      let action := match value with Some v => v | None => action0 end in
      let arg_list := append_arg (Some STONITH_ATTR_ACTION_OP) (Some action) None in
      let arg_list :=
        match victim, device_args with
        | Some vic, Some dargs =>
            let param := g_hash_table_lookup dargs STONITH_ATTR_HOSTARG in
            let alias :=
              match port_map with
              | Some pm => match g_hash_table_lookup pm vic with
                           | Some a => a
                           | None => vic
                           end
              | None => vic
              end in
            let arg_list := append_arg (Some "nodename"%string) (Some vic) arg_list in
            let arg_list :=
              if negb (victim_nodeid =? 0)%N
              then append_arg (Some "nodeid"%string) (Some (print_uint victim_nodeid))
                              arg_list
              else arg_list in
            let '(param, value) :=
              if safe_str_eq agent (Some "fence_legacy"%string) then (param, agent)
              else match param with
                   | None => (Some "port"%string, g_hash_table_lookup dargs "port")
                   | Some p =>
                       if safe_str_eq param (Some "none"%string) then (param, param)
                       else (param, g_hash_table_lookup dargs p)
                   end in
            if negb (bool_decide (is_Some value))
               || safe_str_eq value (Some "dynamic"%string)
            then append_arg param (Some alias) arg_list
            else arg_list
        | _, _ => arg_list
        end in
      match device_args with
      | Some dargs =>
          fold_left (fun acc kv => append_config_arg (fst kv) (snd kv) acc) dargs arg_list
      | None => arg_list
      end
  end.

(** The filter of [append_arg] on a key. *)
Definition reserved (k : string) : bool :=
  strstr k "pcmk_" || strstr k CRM_META
  || safe_str_eq (Some k) (Some "crm_feature_set"%string).

(** The text of a list of entries, and the blobs made of entries that pass
    the filter. *)

(** The text of the entries written so far. *)
Fixpoint render (entries : list (string * string)) : string :=
  match entries with
  | [] => EmptyString
  | (k, v) :: es => (k ++ "=" ++ v ++ newline ++ render es)%string
  end.

Definition entry_ok (kv : string * string) : Prop :=
  clean_key (fst kv) = true /\ clean (snd kv) = true /\
  reserved (fst kv) = false.

Definition wf_blob (b : option string) : Prop :=
  exists entries, blob_of b = render entries /\ Forall entry_ok entries.

End StringComparison.

(* ===================================================================== *)
(** * Operation keys (lib/common/operations.c) *)
(* ===================================================================== *)

(** [generate_op_key], for the strings it asserts to be given;
    [CRM_OP_FMT] is ["%s_%s_%u"]. *)
Definition generate_op_key (rsc_id op_type : string) (interval_ms : N) : string :=
  (rsc_id ++ "_" ++ op_type ++ "_" ++ print_uint interval_ms)%string.

(** [generate_notify_key], for three strings that are given. *)
Definition generate_notify_key (rsc_id notify_type op_type : string) : string :=
  (rsc_id ++ "_" ++ notify_type ++ "_notify_" ++ op_type ++ "_0")%string.

Definition is_underscore (c : ascii) : bool := Ascii.eqb c "_"%char.

(** [isdigit] in the C locale. *)
Definition isdigit (c : ascii) : bool :=
  (48 <=? nat_of_ascii c)%nat && (nat_of_ascii c <=? 57)%nat.

(** [key[offset]]; the byte after the last character is the terminator. *)
Definition char_at (key : string) (offset : nat) : ascii :=
  match String.get offset key with
  | Some c => c
  | None => Ascii.zero
  end.

(** [for (digits = len - offset; digits > 1; --digits) ch = ch * 10;] on an
    [unsigned long long], run for [n] rounds. *)
Fixpoint times10 (n : nat) (ch : Z) : Z :=
  match n with
  | O => ch
  | S n' => times10 n' ((ch * 10) mod 18446744073709551616)
  end.

(** The loop that reads the interval from the end of the key; it returns
    the offset it stops at and the interval accumulated in a [guint]. *)
Fixpoint scan_interval (key : string) (len offset : nat) (local_interval_ms : Z)
  : nat * Z :=
  match offset with
  | O => (offset, local_interval_ms)
  | S offset' =>
      if isdigit (char_at key offset) then
        let ch := Z.of_nat (nat_of_ascii (char_at key offset)) - 48 in
        let ch := times10 (len - offset - 1) ch in
        scan_interval key len offset' (to_guint (local_interval_ms + ch))
      else (offset, local_interval_ms)
  end.

(** [while (offset > 0 && key[offset] != '_') offset--;] *)
Fixpoint scan_underscore (key : string) (offset : nat) : nat :=
  match offset with
  | O => offset
  | S offset' =>
      if negb (is_underscore (char_at key offset)) then scan_underscore key offset'
      else offset
  end.

(** [strstr(haystack, needle)] as the part before the first occurrence and
    the part from it on; [None] is [NULL]. *)
Fixpoint strstr_split (haystack needle : string) : option (string * string) :=
  if String.prefix needle haystack then Some (EmptyString, haystack)
  else match haystack with
       | EmptyString => None
       | String c rest =>
           match strstr_split rest needle with
           | Some (before, from) => Some (String c before, from)
           | None => None
           end
       end.

(** What [parse_op_key] leaves in its three output arguments (all three
    are taken to be given). *)
Record op_key_parts := mk_op_key_parts {
  pk_rsc_id : option string;
  pk_op_type : option string;
  pk_interval_ms : Z
}.

Section OperationKeys.

Variable safe_str_eq : option string -> option string -> bool.

(** [notify = strstr(mutable_key, needle);
     if (notify && safe_str_eq(notify, needle)) notify[0] = 0;] *)
Definition cut_notify (needle mutable_key : string) : string :=
  match strstr_split mutable_key needle with
  | Some (before, notify) =>
      if safe_str_eq (Some notify) (Some needle) then before else mutable_key
  | None => mutable_key
  end.

(** [parse_op_key]: the returned flag and the outputs.  [None] stands for
    the run in which [offset--] is applied to an offset of 0: the next
    test reads [key[offset]] far outside the string. *)
Definition parse_op_key (key : option string) : option (bool * op_key_parts) :=
  match key with
  | None => Some (false, mk_op_key_parts None None 0)
  | Some EmptyString => Some (false, mk_op_key_parts None None 0)
  | Some key =>
      let len := String.length key in
      let '(offset, local_interval_ms) := scan_interval key len (len - 1) 0 in
      if negb (offset =? len - 1)%nat && is_underscore (char_at key offset) then
        let mutable_key := String.substring 0 offset key in
        match offset with
        | O => None
        | S offset1 =>
            let offset2 := scan_underscore key offset1 in
            if is_underscore (char_at key offset2) then
              let op_type :=
                String.substring (offset2 + 1)
                  (String.length mutable_key - (offset2 + 1)) mutable_key in
              let mutable_key := String.substring 0 offset2 mutable_key in
              let mutable_key := cut_notify "_post_notify" mutable_key in
              let mutable_key := cut_notify "_pre_notify" mutable_key in
              Some (true, mk_op_key_parts (Some mutable_key) (Some op_type)
                            local_interval_ms)
            else Some (false, mk_op_key_parts None None local_interval_ms)
        end
      else Some (false, mk_op_key_parts None None local_interval_ms)
  end.

End OperationKeys.

(* ===================================================================== *)
(** * Agent namespaces *)
(* ===================================================================== *)

(** [enum stonith_namespace]. *)
Inductive stonith_namespace :=
  | st_namespace_invalid
  | st_namespace_any
  | st_namespace_internal
  | st_namespace_rhcs
  | st_namespace_lha.

(** [stonith_text2namespace]. *)
Definition stonith_text2namespace (namespace_s : option string) : stonith_namespace :=
  match namespace_s with
  | None => st_namespace_any
  | Some s =>
      if strcmp s "any" =? 0 then st_namespace_any
      else if (strcmp s "redhat" =? 0) || (strcmp s "stonith-ng" =? 0)
      then st_namespace_rhcs
      else if strcmp s "internal" =? 0 then st_namespace_internal
      else if strcmp s "heartbeat" =? 0 then st_namespace_lha
      else st_namespace_invalid
  end.

(** [stonith_namespace2text]. *)
Definition stonith_namespace2text (namespace : stonith_namespace) : string :=
  match namespace with
  | st_namespace_any => "any"
  | st_namespace_rhcs => "stonith-ng"
  | st_namespace_internal => "internal"
  | st_namespace_lha => "heartbeat"
  | st_namespace_invalid => "unsupported"
  end.

(* ===================================================================== *)
(** * Key/value lists and fencing levels *)
(* ===================================================================== *)

(** A [stonith_key_value_t] list, from its head; [[]] is [NULL]. *)
Record stonith_key_value_t := mk_key_value {
  kv_key : option string;
  kv_value : option string
}.

(** The walk to the last node of [stonith_key_value_add] and the link of
    [p] behind it. *)
Fixpoint link_at_end (end_ : list stonith_key_value_t) (p : stonith_key_value_t)
  : list stonith_key_value_t :=
  match end_ with
  | [] => [p]
  | node :: next =>
      match next with
      | [] => [node; p]
      | _ :: _ => node :: link_at_end next p
      end
  end.

(** [stonith_key_value_add]. *)
Definition stonith_key_value_add (head : list stonith_key_value_t)
    (key value : option string) : list stonith_key_value_t :=
  let p := mk_key_value key value in
  link_at_end head p.

(** The bytes of a text in a block of memory, in which [Some c] is a
    character and [None] a terminator. *)
Fixpoint bytes_of (s : string) : list (option ascii) :=
  match s with
  | EmptyString => []
  | String c s' => Some c :: bytes_of s'
  end.

(** [sprintf(list + len, "%s%s", sep, value)]: the bytes before [len] stay,
    the two strings and a terminator follow. *)
Definition sprintf_at (list0 : list (option ascii)) (len : nat)
    (sep value : string) : list (option ascii) :=
  take len list0 ++ bytes_of sep ++ bytes_of value ++ [None].

(** The buffer read as a C string: the characters before the first
    terminator. *)
Fixpoint c_string (b : list (option ascii)) : string :=
  match b with
  | Some c :: b' => String c (c_string b')
  | _ => EmptyString
  end.

(** The loop over the devices of [create_level_registration_xml]; [list0]
    is [None] while the pointer is [NULL].  The result is [None] when a
    device has no value, for which [strlen] is not defined.  Lengths are
    taken to fit an [int] and [realloc_safe] to succeed. *)
Fixpoint device_loop (device_list : list stonith_key_value_t)
    (list0 : option (list (option ascii))) (len : nat)
  : option (option (list (option ascii))) :=
  match device_list with
  | [] => Some list0
  | device :: next =>
      match kv_value device with
      | None => None
      | Some value =>
          let adding := String.length value in
          let adding := if bool_decide (is_Some list0) then S adding else adding in
          let old := match list0 with Some b => b | None => [] end in
          let list1 :=
            sprintf_at old len (if (len =? 0)%nat then EmptyString else ",") value in
          device_loop next (Some list1) (len + adding)
      end
  end.

(** The attributes of the request made by [create_level_registration_xml]. *)
Record level_registration := mk_level_registration {
  lr_id : Z;
  lr_index : Z;
  lr_target : option string;
  lr_target_pattern : option string;
  lr_target_attribute : option string;
  lr_target_value : option string;
  lr_devices : option string
}.

(** [create_level_registration_xml]: the outer [None] is the undefined run
    of [device_loop], the inner one the [NULL] result.  [crm_xml_add] adds
    no attribute for a [NULL] value. *)
Definition create_level_registration_xml (node pattern attr value : option string)
    (level : Z) (device_list : list stonith_key_value_t)
  : option (option level_registration) :=
  if negb (bool_decide (is_Some node) || bool_decide (is_Some pattern)
           || (bool_decide (is_Some attr) && bool_decide (is_Some value)))
  then Some None
  else
    let '(target, target_pattern, target_attribute, target_value) :=
      match node, pattern with
      | Some _, _ => (node, None, None, None)
      | None, Some _ => (None, pattern, None, None)
      | None, None => (None, None, attr, value)
      end in
    match device_loop device_list None 0 with
    | None => None
    | Some list0 =>
        Some (Some (mk_level_registration level level target target_pattern
                      target_attribute target_value
                      (option_map c_string list0)))
    end.

(* ===================================================================== *)
(** * The fallback timer of a callback *)
(* ===================================================================== *)

(** [stonith_async_timeout_handler]: the last component is the value
    handed back to the main loop. *)
Definition stonith_async_timeout_handler (w : world async_fn) (stonith : stonith_t)
    (timer0 : timer_rec_s) : world async_fn * stonith_t * list invocation * bool :=
  let '(w, stonith, invs) :=
    stonith_perform_callback w stonith None (tr_call_id timer0) (- ETIME) in
  (w, stonith, invs, true).

(** The ids of the pending sources were handed out earlier. *)
Definition sources_fresh {F} (w : world F) : Prop :=
  Forall (fun s => src_id s < w_next_source w) (w_sources w).

(* ===================================================================== *)
(** * Running an agent synchronously *)
(* ===================================================================== *)

(** How the status stored by [waitpid] reads: [WIFEXITED] with
    [WEXITSTATUS], [WIFSIGNALED] with [WTERMSIG], or neither. *)
Inductive wait_status :=
  | Status_exited (code : Z)
  | Status_signaled (sig : Z)
  | Status_other.

(** What the child of a synchronous attempt does, seen from the parent:
    the number of polls ([waitpid] with [WNOHANG], one per second) that
    find it still running before one reports it ([None] when none ever
    does), the status stored by the [waitpid] that reports it, and what
    [read_output] returns for its two descriptors. *)
Record child_run := mk_child_run {
  cr_exits_after : option nat;
  cr_status : wait_status;
  cr_stdout : option string;
  cr_stderr : option string
}.

(** Whether the poll made after [k] earlier ones reports the child. *)
Definition polled (ch : child_run) (k : nat) : bool :=
  match cr_exits_after ch with
  | Some e => (e <=? k)%nat
  | None => false
  end.

(** [while (action->remaining_timeout < 0 || timeout > 0)] with its body,
    after [k] polls: the final value of [timeout] and whether the loop
    was left by [break].  [None]: the loop is still running when the fuel
    is used up. *)
Fixpoint wait_loop (fuel : nat) (ch : child_run) (remaining timeout : Z) (k : nat)
  : option (Z * bool) :=
  match fuel with
  | O => None
  | S fuel' =>
      if (remaining <? 0) || (0 <? timeout) then
        if polled ch k then Some (timeout, true)
        else wait_loop fuel' ch remaining (wrap_int (timeout - 1)) (S k)
      else Some (timeout, false)
  end.

(** [internal_stonith_action_execute] for an action run by
    [stonith__execute] ([action->async] not set), in the parent process.
    [status] starts as 0, which reads as an exit with status 0. *)
Definition internal_stonith_action_execute_sync (fuel : nat) (now : Z) (os : spawn)
    (ch : child_run) (w : world timer_fn) (a : stonith_action_t)
  : option (world timer_fn * stonith_action_t * Z) :=
  let '(w, a) := stonith_action_clear_tracking_data w a in
  let a := if tries a =? 0 then set_start_tries a now (tries a) else a in
  let a := set_start_tries a (initial_start_time a) (wrap_int (tries a + 1)) in
  match args a, agent a with
  | Some arg_blob, Some _ =>
      if negb (spawn_pipes_ok os) then Some (w, a, - EPROTO)
      else if spawn_fork os <? 0 then Some (w, a, - ECHILD)
      else
        let a := set_pid a (spawn_fork os) in
        if negb (spawn_total os =? Z.of_nat (String.length arg_blob)) then
          Some (w, a, if 0 <=? spawn_write_ret os then - ECOMM else - EPROTO)
        else
          let timeout := wrap_int (remaining_timeout a + 1) in
          match wait_loop fuel ch (remaining_timeout a) timeout 0 with
          | None => None
          | Some (timeout, reported) =>
              let w := if timeout =? 0 then kill (- pid a) SIGKILL w else w in
              let status :=
                if (timeout =? 0) || reported then cr_status ch
                else Status_exited 0 in
              let a := set_result a (- ECONNABORTED) (cr_stdout ch) (cr_stderr ch) in
              if timeout =? 0 then
                Some (w, set_result a (- ETIME) (output a) (error a), - ECONNABORTED)
              else
                match status with
                | Status_exited code =>
                    Some (w, set_result a (- code) (output a) (error a), 0)
                | _ => Some (w, a, - ECONNABORTED)
                end
          end
  | _, _ => Some (w, a, - EPROTO)
  end.

(** What the environment does for one attempt of [stonith__execute]:
    [time(NULL)] when the attempt starts, the start of the agent, the
    child, and [time(NULL)] when the retry decision is taken. *)
Record attempt := mk_attempt {
  at_now : Z;
  at_spawn : spawn;
  at_child : child_run;
  at_now_after : Z
}.

(** The [do ... while] loop of [stonith__execute]; [None] when the
    attempts listed or the fuel do not suffice. *)
Fixpoint execute_loop (fuel : nat) (attempts : list attempt)
    (w : world timer_fn) (action0 : stonith_action_t)
  : option (world timer_fn * stonith_action_t * Z) :=
  match attempts with
  | [] => None
  | e :: rest =>
      match internal_stonith_action_execute_sync fuel (at_now e) (at_spawn e)
              (at_child e) w action0 with
      | None => None
      | Some (w, action0, rc) =>
          if negb (rc =? pcmk_ok) then
            let '(action0, again) := update_remaining_timeout (at_now_after e) action0 in
            if again then execute_loop fuel rest w action0
            else Some (w, action0, rc)
          else Some (w, action0, rc)
      end
  end.

(** [stonith__execute]. *)
Definition stonith__execute (fuel : nat) (attempts : list attempt)
    (w : world timer_fn) (action0 : option stonith_action_t)
  : option (world timer_fn * option stonith_action_t * Z) :=
  match action0 with
  | None => Some (w, None, - EINVAL)
  | Some a =>
      match execute_loop fuel attempts w a with
      | Some (w, a, rc) => Some (w, Some a, rc)
      | None => None
      end
  end.

(** ** Creating an action *)

Definition FAILURE_MAX_RETRIES : Z := 2.

Section ActionCreation.

Variable safe_str_eq : option string -> option string -> bool.
Variable safe_str_neq : option string -> option string -> bool.

(** [atoi] of the C library. *)
Variable atoi : string -> Z.

(** [stonith_action_create]; [agent] and [_action] are not [NULL]. *)
Definition stonith_action_create (agent0 _action : string) (victim0 : option string)
    (victim_nodeid : N) (timeout0 : Z) (device_args port_map : option str_table)
  : stonith_action_t :=
  let args0 := make_args safe_str_eq safe_str_neq (Some agent0) (Some _action) victim0
                         victim_nodeid device_args port_map in
  let max_retries0 :=
    match device_args with
    | Some t =>
        let buffer := snprintf_512 ("pcmk_" ++ _action ++ "_retries") in
        match g_hash_table_lookup t buffer with
        | Some value => atoi value
        | None => FAILURE_MAX_RETRIES
        end
    | None => FAILURE_MAX_RETRIES
    end in
  mk_action (Some agent0) (Some _action) victim0 args0 timeout0 0 0 0 0 0 0 timeout0
            0 0 max_retries0 0 0 None None.

End ActionCreation.

(* ===================================================================== *)
(** * Reading the output of an agent *)
(* ===================================================================== *)

Definition READ_MAX : nat := 500.

(** What one [read(fd, buffer, READ_MAX - 1)] returns: the bytes read (at
    most [READ_MAX - 1]), 0, or an error, with [errno] being [EINTR] or
    not. *)
Inductive read_ret :=
  | Read_bytes (data : string)
  | Read_zero
  | Read_error (eintr : bool).

Definition is_nul (c : ascii) : bool := Ascii.eqb c Ascii.zero.

(** What ["%s"] prints of a buffer: its bytes before the first that is 0. *)
Fixpoint until_nul (s : string) : string :=
  match s with
  | EmptyString => EmptyString
  | String c s' => if is_nul c then EmptyString else String c (until_nul s')
  end.

(** [snprintf(output + len, more + 1, "%s", buffer)] into a block that
    [realloc] has grown: the bytes before [len] stay ([None] for one that
    was never written), the text and a terminator follow. *)
Definition snprintf_at (output0 : list (option ascii)) (len more : nat)
    (buffer : string) : list (option ascii) :=
  take len output0 ++ replicate (len - length output0) None
    ++ bytes_of (String.substring 0 more (until_nul buffer)) ++ [None].

(** The [do ... while] loop of [read_output] over the results of its
    reads; [None] when the results listed do not suffice.  Next to the
    block it returns the reads it has not made. *)
Fixpoint read_loop (reads : list read_ret) (output0 : option (list (option ascii)))
    (len : nat) : option (option (list (option ascii)) * list read_ret) :=
  match reads with
  | [] => None
  | r :: rest =>
      match r with
      | Read_bytes data =>
          let more := String.length data in
          let output1 :=
            if (0 <? more)%nat
            then Some (snprintf_at (match output0 with Some b => b | None => [] end)
                                   len more data)
            else output0 in
          let len1 := if (0 <? more)%nat then (len + more)%nat else len in
          if (more =? READ_MAX - 1)%nat then read_loop rest output1 len1
          else Some (output1, rest)
      | Read_zero => Some (output0, rest)
      | Read_error eintr =>
          if eintr then read_loop rest output0 len else Some (output0, rest)
      end
  end.

(** [read_output]: the string returned ([None] for [NULL]) and the reads
    not made. *)
Definition read_output (fd : Z) (reads : list read_ret)
  : option (option string * list read_ret) :=
  if fd =? 0 then Some (None, reads)
  else
    match read_loop reads None 0 with
    | Some (output0, rest) => Some (option_map c_string output0, rest)
    | None => None
    end.



(* ===================================================================== *)
(** * The time of the last fencing *)
(* ===================================================================== *)

(** The states of a fencing operation that [stonith_api_time] tells apart;
    [st_state_other] stands for every other value of [enum op_state]. *)
Inductive op_state := st_done | st_failed | st_state_other.

(** The fields of a [stonith_history_t] entry that [stonith_api_time]
    reads. *)
Record stonith_history_t := mk_history {
  h_state : op_state;
  h_completed : Z
}.

(** The loop over the history of [stonith_api_time]; [clock k] is the value
    of [time(NULL)] while the entry at position [k] is visited. *)
Fixpoint history_scan (in_progress : bool) (clock : nat -> Z) (k : nat)
    (hp : list stonith_history_t) (when : Z) : Z :=
  match hp with
  | [] => when
  | entry :: next =>
      let when :=
        if in_progress then
          match h_state entry with
          | st_done | st_failed => when
          | st_state_other => clock k
          end
        else
          match h_state entry with
          | st_done => if when <? h_completed entry then h_completed entry else when
          | _ => when
          end in
      history_scan in_progress clock (S k) next when
  end.

Section FencingTime.

Variable safe_str_neq : option string -> option string -> bool.

(** [stonith_api_time]: [allocated] tells whether [stonith_api_new]
    returned a session, [io] what the environment does while it connects
    (with the main loop, as no descriptor is asked for), and [history] is the
    list that the history call stores for the node named by [uname] or
    [nodeid]. *)
Definition stonith_api_time (allocated : bool) (io : signon_io)
    (history : list stonith_history_t) (clock : nat -> Z) (in_progress : bool) : Z :=
  if allocated then
    let io := mk_signon_io false (sg_ipc io) (sg_connect io) (sg_send_rc io)
                           (sg_reply io) in
    let '(st, rc) := stonith_api_signon safe_str_neq io stonith_api_new in
    if rc =? pcmk_ok then history_scan in_progress clock 0 history 0
    else 0
  else 0.

End FencingTime.

(* ===================================================================== *)
(** * The specification's wording *)
(* ===================================================================== *)

(** The classification in the order the specification lists it. *)
Definition classify_as_specified (escalated : bool) (signo exitcode : Z)
    (err : option string) : Z :=
  if escalated then - ETIME
  else if negb (signo =? 0) then - ECONNABORTED
  else if negb (exitcode =? 0) && negb (bool_decide (is_Some err)) then - ENODATA
  else if match err with Some e => strstr e "imed out" | None => false end
       then - ETIMEDOUT
  else if match err with Some e => strstr e "Unrecognised action" | None => false end
       then - EOPNOTSUPP
  else if negb (exitcode =? 0) then - pcmk_err_generic
  else pcmk_ok.

(** The same order, with the error text consulted for a non-zero exit only. *)
Definition classify_amended (escalated : bool) (signo exitcode : Z)
    (err : option string) : Z :=
  if escalated then - ETIME
  else if negb (signo =? 0) then - ECONNABORTED
  else if negb (exitcode =? 0) && negb (bool_decide (is_Some err)) then - ENODATA
  else if negb (exitcode =? 0) &&
          match err with Some e => strstr e "imed out" | None => false end
       then - ETIMEDOUT
  else if negb (exitcode =? 0) &&
          match err with Some e => strstr e "Unrecognised action" | None => false end
       then - EOPNOTSUPP
  else if negb (exitcode =? 0) then - pcmk_err_generic
  else pcmk_ok.

(** The caller's output slot after [stonith_send_command] has cleared it. *)
Definition cleared (out : option (option xml_reply)) : option (option xml_reply) :=
  match out with Some _ => Some None | None => None end.

(** The call id and result code [stonith_perform_callback] works with. *)
Definition reply_call_id (msg : option xml_reply) (call : Z) : Z :=
  match msg with
  | Some m => match f_callid m with Some v => v | None => call end
  | None => call
  end.

Definition reply_rc (msg : option xml_reply) (rc : Z) : Z :=
  match msg with
  | Some m => match f_rc m with Some v => v | None => rc end
  | None => rc
  end.

(** The invocation owed to the entry registered under the call id. *)
Definition specific_invocations (st : stonith_t) (call rc : Z) : list invocation :=
  match stonith_op_callback_table (st_private st) !! call with
  | Some b =>
      match callback b with
      | Some fn =>
          if (rc =? pcmk_ok) || negb (only_success b)
          then [invoke_callback call rc (user_data b) fn] else []
      | None => []
      end
  | None => []
  end.

(** The invocation of the session-wide callback. *)
Definition default_invocations (st : stonith_t) (call rc : Z) : list invocation :=
  match op_callback (st_private st) with
  | Some fn => [invoke_callback call rc 0 fn]
  | None => []
  end.

(** The dispatch the specification describes: the default callback only on a
    lookup miss. *)
Definition invocations_as_specified (st : stonith_t) (call rc : Z) : list invocation :=
  match stonith_op_callback_table (st_private st) !! call with
  | Some _ => specific_invocations st call rc
  | None => default_invocations st call rc
  end.

(** The specification of a new subscription: a pair that is not yet
    subscribed is appended and an activate message is sent. *)
Definition C9_append_as_specified : Prop :=
  forall (st : stonith_t) (e : string) (f : nat),
    ~ In (mk_notify_client (Some e) (Some f)) (notify_list (st_private st)) ->
    let '(st', _, sent) := stonith_api_add_notification st (Some e) (Some f) in
    notify_list (st_private st')
      = notify_list (st_private st) ++ [mk_notify_client (Some e) (Some f)] /\
    sent = [mk_notify_control true (Some e)].

(** A disconnection seen by the transport after any transmitted request
    puts the session in the disconnected state, as the specification has
    it. *)
Definition C8_lost_connection_as_specified : Prop :=
  forall (x : exchange) (st : stonith_t) (op data : option string)
         (out : option (option xml_reply)) (opts tmo : Z),
    let o := stonith_send_command x st op data out opts tmo in
    so_sent o <> [] -> ipc_connected x = false ->
    state (so_session o) = stonith_disconnected.

(** A call on a connected session whose operation is the empty string
    fails at once and transmits nothing, as the specification has it. *)
Definition C8_empty_operation_as_specified : Prop :=
  forall (x : exchange) (st : stonith_t) (data : option string)
         (out : option (option xml_reply)) (opts tmo : Z),
    state st <> stonith_disconnected ->
    let o := stonith_send_command x st (Some EmptyString) data out opts tmo in
    so_rc o < 0 /\ so_sent o = [].

(** The specification of the blob: newline-terminated lines, each with a
    key that the filter lets through. *)
Definition C6_as_specified : Prop :=
  forall (agent action victim : option string) (nodeid : N)
         (dargs pmap : option str_table),
    let blob := blob_of (make_args nocase_str_eq nocase_str_neq agent action victim
                                   nodeid dargs pmap) in
    snd (split_lines blob) = EmptyString /\
    Forall (fun l => exists k, line_key l = Some k /\ reserved nocase_str_eq k = false)
           (fst (split_lines blob)).

(* ===================================================================== *)
(** * Side conditions *)
(* ===================================================================== *)

(** The source ids held by the registry were handed out earlier. *)
Definition refs_fresh (w : world async_fn) (st : stonith_t) : Prop :=
  forall k b t,
    stonith_op_callback_table (st_private st) !! k = Some b ->
    timer b = Some t -> tr_ref t < w_next_source w.

(** A successful start of the agent: pipes, fork and the write of the whole
    argument blob. *)
Definition spawned (os : spawn) (a : stonith_action_t) : Prop :=
  spawn_pipes_ok os = true /\ 0 < spawn_fork os /\
  exists blob ag, args a = Some blob /\ agent a = Some ag /\
                  spawn_total os = Z.of_nat (String.length blob).

(* ===================================================================== *)
(** * Example values *)
(* ===================================================================== *)

Definition idle_action : stonith_action_t :=
  mk_action (Some "fence_ipmilan"%string) (Some "reboot"%string) None
            (Some ("action=reboot" ++ newline)%string) 10 1 4 5 0 1000 1 10 0 0 2 321 0 None None.

Definition idle_world : world timer_fn := mk_world 0 1 [] [].

Definition session_with_callbacks : stonith_t :=
  mk_stonith stonith_connected_command 5
    (mk_private (Some "token"%string) true
       {[ 5 := mk_callback_client (Some 1%nat) (Some "fence_done"%string) 77
                 false false None ]}
       [] (Some 2%nat)).

Definition session_world : world async_fn := mk_world 0 1 [] [].

(** The same session with one subscriber to the event "fence". *)
Definition session_with_subscriber : stonith_t :=
  set_private session_with_callbacks
    (set_notify_list (st_private session_with_callbacks)
       [mk_notify_client (Some "fence"%string) (Some 4%nat)]).

Definition signon_ok : signon_io :=
  mk_signon_io true true true 0
    (Some (Some "register"%string, Some "client-1"%string)).

Definition exchange_async_ok : exchange := mk_exchange 0 None true.

Definition reply_6 : xml_reply := mk_reply (Some 6) (Some 0) "<st-reply/>".

Definition exchange_sync_6 : exchange := mk_exchange 0 (Some reply_6) true.

(** A reply left over from an earlier call. *)
Definition reply_4 : xml_reply := mk_reply (Some 4) (Some 0) "<st-reply/>".

Definition exchange_sync_4 : exchange := mk_exchange 0 (Some reply_4) true.

Definition exchange_async_lost : exchange := mk_exchange 0 None false.

Definition device_args_example : str_table :=
  [("ipaddr", "10.0.0.2"); ("pcmk_host_list", "node1 node2"); ("action", "off");
   ("crm_feature_set", "3.0.14"); ("CRM_meta_timeout", "20000");
   ("pcmk_reboot_action", "off")]%string.

Definition port_map_example : str_table := [("node2", "vm-2")]%string.

Definition device_args_injection : str_table :=
  [("a", "b" ++ newline ++ "pcmk_x=1")]%string.

Definition async_action : stonith_action_t :=
  mk_action (Some "fence_ipmilan"%string) (Some "reboot"%string) (Some "node2"%string)
            (Some ("action=reboot" ++ newline)%string) 10 1 0 0 0 0 0 10 0 0 2 0 0 None None.

Definition spawn_ok : spawn := mk_spawn true 321 4 5 14 14.

(** [session_with_callbacks] after a default callback has been registered
    under call id 0. *)
Definition session_with_default : stonith_t :=
  match stonith_api_add_callback session_world session_with_callbacks 0 0 0 0
                                 (Some "default"%string) (Some 9%nat) with
  | Some (_, st, _, _) => st
  | None => session_with_callbacks
  end.

(** A new session on which ("fence", [NULL]) has been subscribed. *)
Definition session_with_null_subscriber : stonith_t :=
  fst (fst (stonith_api_add_notification stonith_api_new (Some "fence"%string) None)).

Definition device_args_equals : str_table := [("crm_feature_set=x", "1")]%string.

(* ===================================================================== *)
(** * Properties *)
(* ===================================================================== *)

Example dbl_0_7_is_literal :
  Prim2SF 0x1.6666666666666p-1%float = SpecFloat.S754_finite false (Z.to_pos dbl_0_7) (-53).
Proof. vm_compute. reflexivity. Qed.

Example lt_timeout_0_7_crosscheck_large :
  forallb (fun t =>
     forallb (fun d => Bool.eqb (lt_timeout_0_7 d t) (lt_timeout_0_7_prim d t))
             [7 * t / 10 - 1; 7 * t / 10; 7 * t / 10 + 1])
     (map (fun i => INT_MAX - Z.of_nat i) (seq 0 300)
      ++ map (fun i => 10 * (1 + Z.of_nat i * 715827)) (seq 0 300))
  = true.
Proof. vm_compute. reflexivity. Qed.

Example lt_timeout_0_7_crosscheck :
  forallb (fun t => forallb (fun d =>
     Bool.eqb (lt_timeout_0_7 (Z.of_nat d) (Z.of_nat t))
              (lt_timeout_0_7_prim (Z.of_nat d) (Z.of_nat t)))
     (seq 0 80)) (seq 0 80) = true.
Proof. vm_compute. reflexivity. Qed.

(** ** Rounding to 53 bits stays on the grid around its argument *)

Lemma round53_pos_bounds (x : Z) :
  0 <= x ->
  let g := 2 ^ Z.max 0 (Z.log2 x - 52) in
  g * (x / g) <= round53_pos x /\
  round53_pos x <= g * (x / g) + (if x mod g =? 0 then 0 else g).
Proof.
  intros Hx g. unfold round53_pos. fold g.
  assert (Hg : 0 < g) by (apply Z.pow_pos_nonneg; lia).
  pose proof (Z.mod_pos_bound x g Hg) as Hr.
  destruct (Z.eqb_spec (x mod g) 0) as [Hz | Hz].
  - rewrite Hz. replace (2 * 0 <? g) with true by (symmetry; apply Z.ltb_lt; lia).
    lia.
  - destruct (2 * (x mod g) <? g); [lia |].
    destruct (g <? 2 * (x mod g)); [lia |].
    destruct (Z.even (x / g)); lia.
Qed.

Lemma round53_grid_small (x : Z) :
  0 < x < 2 ^ 84 ->
  exists e, 0 <= e <= 31 /\ Z.max 0 (Z.log2 x - 52) = e.
Proof.
  intros [Hx Hlt]. exists (Z.max 0 (Z.log2 x - 52)). split; [| reflexivity].
  apply Z.log2_lt_pow2 in Hlt; lia.
Qed.

Lemma lt_timeout_0_7_exact (d T : Z) :
  0 <= d <= INT_MAX -> in_int T ->
  lt_timeout_0_7 d T = (10 * d <? 7 * T).
Proof.
  unfold in_int, INT_MAX, INT_MIN, lt_timeout_0_7, round53. intros Hd HT.
  destruct (Z.ltb_spec (T * dbl_0_7) 0) as [Hneg | Hpos].
  - (* a negative product rounds to a non-positive number *)
    assert (HT0 : T < 0) by (unfold dbl_0_7 in Hneg; lia).
    pose proof (round53_pos_bounds (- (T * dbl_0_7)) ltac:(lia)) as [Hlo _].
    cbv zeta in Hlo.
    set (g := 2 ^ Z.max 0 (Z.log2 (- (T * dbl_0_7)) - 52)) in *.
    assert (Hg : 0 < g) by (apply Z.pow_pos_nonneg; lia).
    assert (0 <= - (T * dbl_0_7) / g) by (apply Z.div_pos; lia).
    transitivity false; [apply Z.ltb_ge | symmetry; apply Z.ltb_ge]; unfold dbl_unit; nia.
  - destruct (Z.eq_dec T 0) as [-> | HT0].
    + vm_compute (round53_pos (0 * dbl_0_7)).
      transitivity false; [apply Z.ltb_ge | symmetry; apply Z.ltb_ge]; unfold dbl_unit; lia.
    + assert (HTpos : 0 < T) by (unfold dbl_0_7 in Hpos; lia).
      set (x := T * dbl_0_7) in *.
      assert (Hx : 0 < x < 2 ^ 84) by (unfold x, dbl_0_7; change (2 ^ 84) with 19342813113834066795298816; lia).
      destruct (round53_grid_small x Hx) as (e & He & Hmax).
      pose proof (round53_pos_bounds x ltac:(lia)) as [Hlo Hhi].
      cbv zeta in Hlo, Hhi. rewrite Hmax in Hlo, Hhi.
      set (g := 2 ^ e) in *.
      assert (Hg : 0 < g) by (apply Z.pow_pos_nonneg; lia).
      assert (Hg31 : g <= 2 ^ 31) by (apply Z.pow_le_mono_r; lia).
      change (2 ^ 31) with 2147483648 in Hg31.
      assert (Hdiv : dbl_unit = 2 ^ (53 - e) * g).
      { unfold g. rewrite <- Z.pow_add_r by lia. replace (53 - e + e) with 53 by lia. reflexivity. }
      assert (Hk : 0 < 2 ^ (53 - e)) by (apply Z.pow_pos_nonneg; lia).
      pose proof (Z.div_mod x g ltac:(lia)) as Hdm.
      pose proof (Z.mod_pos_bound x g Hg) as Hr.
      assert (Hx10 : 10 * x = 7 * T * dbl_unit - 4 * T) by (unfold x, dbl_0_7, dbl_unit; lia).
      destruct (Z.ltb_spec (10 * d) (7 * T)) as [Hlt | Hge].
      * apply Z.ltb_lt. unfold dbl_unit in *. lia.
      * apply Z.ltb_ge.
        (* d * 2^53 is a grid point above x *)
        set (k := d * 2 ^ (53 - e)).
        assert (Hkg : d * dbl_unit = k * g) by (unfold k; rewrite Hdiv; ring).
        assert (Hxlt : x < k * g) by (rewrite <- Hkg; unfold dbl_unit in *; lia).
        assert (Hq : x / g < k) by (apply Z.div_lt_upper_bound; lia).
        rewrite Hkg. destruct (x mod g =? 0); nia.
Qed.

(** Side conditions on the range of an [int]. *)
Ltac int_bounds := unfold in_int, INT_MIN, INT_MAX in *; lia.

Lemma wrap_int_id (z : Z) : in_int z -> wrap_int z = z.
Proof.
  unfold in_int, INT_MIN, INT_MAX, wrap_int. intros H.
  rewrite Z.mod_small; lia.
Qed.

(** ** C1: the retry decision *)

(** C1.  For an action with declared timeout [T], [N] maximal retries, [k]
    attempts made and last result [r], consulted [E] seconds after the first
    attempt ([E] a non-negative number of seconds that an [int] holds):
    [update_remaining_timeout] permits another attempt exactly when [k < N],
    [r] is not the time-out error and [E < 0.7 * T] (that is, [10 E < 7 T]);
    it then leaves [T - E] as the remaining timeout, and in every other case
    it refuses and leaves 0. *)
Theorem C1_retry_policy (now : Z) (a : stonith_action_t) :
  let E := now - initial_start_time a in
  let T := timeout a in
  let permitted := tries a < max_retries a /\ rc a <> - ETIME /\ 10 * E < 7 * T in
  0 <= E <= INT_MAX -> in_int T ->
  (snd (update_remaining_timeout now a) = true <-> permitted) /\
  (permitted -> remaining_timeout (fst (update_remaining_timeout now a)) = T - E) /\
  (~ permitted ->
     snd (update_remaining_timeout now a) = false /\
     remaining_timeout (fst (update_remaining_timeout now a)) = 0).
Proof.
  intros E T permitted HE HT. subst permitted.
  unfold update_remaining_timeout. fold E. fold T.
  rewrite (wrap_int_id E) by (unfold in_int, INT_MIN; lia).
  rewrite (lt_timeout_0_7_exact E T HE HT).
  unfold in_int, INT_MIN, INT_MAX in *.
  destruct (Z.leb_spec (max_retries a) (tries a)) as [Hmax | Hmax]; cbn.
  - repeat split; try lia; intros; try discriminate; lia.
  - destruct (Z.eqb_spec (rc a) (- ETIME)) as [Hrc | Hrc]; cbn.
    + repeat split; try tauto; intros; try discriminate; tauto.
    + destruct (Z.ltb_spec (10 * E) (7 * T)) as [Hlt | Hge]; cbn.
      * rewrite (wrap_int_id (T - E)) by int_bounds.
        assert (Hnz : (T - E =? 0) = false) by (apply Z.eqb_neq; lia).
        rewrite Hnz. cbn. repeat split; try tauto; try lia.
      * repeat split; try lia; intros; try discriminate; lia.
Qed.

Lemma C1_retry_policy_witness :
  let a := mk_action (Some "fence_ipmilan"%string) (Some "reboot"%string) None
                     (Some ("action=reboot" ++ newline)%string)
                     10 1 0 0 0 1000 1 10 0 0 2 0 (- pcmk_err_generic) None None in
  (0 <= 1003 - initial_start_time a <= INT_MAX) /\ in_int (timeout a) /\
  snd (update_remaining_timeout 1003 a) = true /\
  remaining_timeout (fst (update_remaining_timeout 1003 a)) = 7.
Proof.
  intros a.
  assert (HE : 0 <= 1003 - initial_start_time a <= INT_MAX) by (cbn; unfold INT_MAX; lia).
  assert (HT : in_int (timeout a)) by (cbn; unfold in_int, INT_MIN, INT_MAX; lia).
  destruct (C1_retry_policy 1003 a HE HT) as (Hiff & Hrem & _).
  assert (Hp : tries a < max_retries a /\ rc a <> - ETIME /\
               10 * (1003 - initial_start_time a) < 7 * timeout a)
    by (cbn; unfold pcmk_err_generic, ETIME; lia).
  split; [exact HE |]. split; [exact HT |].
  split; [apply Hiff, Hp | apply Hrem, Hp].
Defined.

(** ** C2: classification of the child's end *)

(** C2 (amended).  When the child of an asynchronous action has exited
    with an exit status [exitcode >= 0], the result is: the time-out error
    if an escalation signal was sent before; else the aborted-connection
    error if a signal ended the child; else, for a non-zero exit status, the
    no-data error when no error text was captured, the timed-out error when
    the text contains "imed out", the not-supported error when it contains
    "Unrecognised action", and the generic failure otherwise; else (zero
    exit status, whatever the error text) success. *)
Theorem C2_classification (out err : option string) (signo exitcode : Z)
    (w : world timer_fn) (a : stonith_action_t) :
  0 <= exitcode ->
  rc (snd (async_done_collect out err signo exitcode w a)) =
  classify_amended (negb (last_timeout_signo a =? 0)) signo exitcode err.
Proof.
  intros Hex. unfold async_done_collect, classify_amended.
  destruct a as [ag ac vi ar ti asy fo fe lts ist tr rem tt tk mr pi r o e0].
  cbv [timer_sigterm timer_sigkill set_timers set_result last_timeout_signo
       error output rc snd].
  destruct (0 <? tt); cbv [timer_sigterm timer_sigkill set_timers set_result
       last_timeout_signo error output rc snd];
  destruct (0 <? tk); cbv [timer_sigterm timer_sigkill set_timers set_result
       last_timeout_signo error output rc snd];
  (destruct (lts =? 0); cbn [negb]; [| reflexivity]);
  (destruct (signo =? 0); cbn [negb]; [| reflexivity]);
  (destruct (Z.ltb_spec 0 exitcode) as [Hpos | Hz];
   [ replace (exitcode =? 0) with false by (symmetry; apply Z.eqb_neq; lia);
     cbn [negb andb]; destruct err as [e |]; cbn; [| reflexivity];
     destruct (strstr e "imed out"); [reflexivity |];
     destruct (strstr e "Unrecognised action"); reflexivity
   | replace exitcode with 0 by lia; destruct err; reflexivity ]).
Qed.

Lemma C2_classification_witness :
  0 <= 1 /\
  rc (snd (async_done_collect None (Some "Connection timed out"%string) 0 1
             idle_world idle_action)) = - ETIMEDOUT.
Proof.
  split; [lia |].
  rewrite (C2_classification None (Some "Connection timed out"%string) 0 1
             idle_world idle_action); [reflexivity | lia].
Defined.

(** The specification's order gives the timed-out error to an agent that
    exits with status 0 after printing a time-out message; the code reports
    success. *)
Lemma C2_claim_counterexample :
  rc (snd (async_done_collect None (Some "Connection timed out"%string) 0 0
             idle_world idle_action)) = pcmk_ok /\
  classify_as_specified (negb (last_timeout_signo idle_action =? 0)) 0 0
                      (Some "Connection timed out"%string) = - ETIMEDOUT /\
  rc (snd (async_done_collect None (Some "Connection timed out"%string) 0 0
             idle_world idle_action))
  <> classify_as_specified (negb (last_timeout_signo idle_action =? 0)) 0 0
                         (Some "Connection timed out"%string).
Proof. repeat split; vm_compute; congruence. Qed.

(** ** C3: call ids *)

Lemma send_command_call_id (x : exchange) (st : stonith_t) (op data : option string)
    (out : option (option xml_reply)) (opts tmo : Z) :
  1 <= call_id st <= INT_MAX ->
  let st' := so_session (stonith_send_command x st op data out opts tmo) in
  (call_id st' = call_id st \/
   call_id st' = if call_id st =? INT_MAX then 1 else call_id st + 1) /\
  1 <= call_id st' <= INT_MAX.
Proof.
  unfold INT_MAX. intros Hinv. unfold stonith_send_command.
  destruct (stonith_state_eqb (state st) stonith_disconnected); cbn; [lia |].
  destruct op as [op |]; cbn; [| lia].
  assert (Hnext : call_id
            (if wrap_int (call_id st + 1) <? 1
             then set_call_id (set_call_id st (wrap_int (call_id st + 1))) 1
             else set_call_id st (wrap_int (call_id st + 1)))
          = if call_id st =? 2147483647 then 1 else call_id st + 1).
  { destruct (Z.eqb_spec (call_id st) 2147483647) as [-> | Hne].
    - reflexivity.
    - rewrite wrap_int_id by int_bounds.
      destruct (Z.ltb_spec (call_id st + 1) 1); [lia | reflexivity]. }
  set (st1 := if wrap_int (call_id st + 1) <? 1
              then set_call_id (set_call_id st (wrap_int (call_id st + 1))) 1
              else set_call_id st (wrap_int (call_id st + 1))) in *.
  assert (Hrange : 1 <= call_id st1 <= 2147483647)
    by (rewrite Hnext; destruct (Z.eqb_spec (call_id st) 2147483647); lia).
  destruct (stonith_create_op _ _ _ _ _); cbn; [| rewrite Hnext; lia].
  repeat match goal with
         | |- context [if ?b then _ else _] => destruct b; cbn
         end; rewrite ?Hnext; lia.
Qed.

Lemma run_calls_call_id safe_str_neq (cs : list session_call) (st : stonith_t) :
  1 <= call_id st <= INT_MAX ->
  1 <= call_id (run_calls safe_str_neq cs st) <= INT_MAX.
Proof.
  revert st. induction cs as [| c cs IH]; intros st Hinv; [exact Hinv |].
  cbn. apply IH. destruct c as [io | | x op data out opts tmo]; cbn.
  - unfold stonith_api_signon, stonith_api_signoff.
    repeat match goal with
           | |- context [let '(_, _) := ?e in _] => destruct e eqn:?
           | |- context [if ?b then _ else _] => destruct b; cbn
           end; exact Hinv.
  - exact Hinv.
  - apply send_command_call_id, Hinv.
Qed.

(** C3.  On a session taken from [stonith_api_new] through any sequence
    of calls (connecting, disconnecting, sending), a [stonith_send_command]
    that gets as far as allocating a call id (the session is connected and
    an operation is named) allocates a strictly positive id: the previous
    one plus one, or 1 when the previous one is the largest [int].  The
    request it transmits carries that id. *)
Theorem C3_call_ids safe_str_neq (cs : list session_call) (x : exchange)
    (op : string) (data : option string) (out : option (option xml_reply))
    (opts tmo : Z) :
  let st := run_calls safe_str_neq cs stonith_api_new in
  let o := stonith_send_command x st (Some op) data out opts tmo in
  let allocated := call_id (so_session o) in
  state st <> stonith_disconnected ->
  0 < allocated /\
  allocated = (if call_id st =? INT_MAX then 1 else call_id st + 1) /\
  Forall (fun r => rq_call_id r = allocated) (so_sent o).
Proof.
  intros st o allocated Hconn.
  assert (Hinv : 1 <= call_id st <= INT_MAX)
    by (apply run_calls_call_id; cbn; unfold INT_MAX; lia).
  subst o allocated. unfold stonith_send_command.
  destruct (state st) eqn:Hst; try congruence; cbn.
  all: assert (Hnext : call_id
            (if wrap_int (call_id st + 1) <? 1
             then set_call_id (set_call_id st (wrap_int (call_id st + 1))) 1
             else set_call_id st (wrap_int (call_id st + 1)))
          = if call_id st =? INT_MAX then 1 else call_id st + 1)
    by (unfold INT_MAX in *; destruct (Z.eqb_spec (call_id st) 2147483647) as [Heq | Hne];
        [ rewrite Heq; reflexivity
        | rewrite wrap_int_id by int_bounds;
          destruct (Z.ltb_spec (call_id st + 1) 1); [lia | reflexivity] ]).
  all: set (st1 := if wrap_int (call_id st + 1) <? 1
              then set_call_id (set_call_id st (wrap_int (call_id st + 1))) 1
              else set_call_id st (wrap_int (call_id st + 1))) in *.
  all: assert (Hpos : 0 < call_id st1)
    by (rewrite Hnext; unfold INT_MAX in *; destruct (Z.eqb_spec (call_id st) 2147483647); lia).
  all: unfold stonith_create_op; destruct (token (st_private st)); cbn;
    [| repeat split; auto ].
  all: repeat match goal with
         | |- context [if ?b then _ else _] => destruct b; cbn
         end; repeat split; auto; try lia.
Qed.

(** ** C4: the reply of a synchronous call *)

(** C4.  A synchronous [stonith_send_command] on a connected session whose
    exchange succeeds and yields a reply [r] transmits one request, with a
    new call id.  If [r] carries that id, the result is the reply's result
    code ([-ENOMSG] when it has none) and [r] is handed to the caller, unless
    discarding was requested or no output slot was passed, in which case it
    is freed once.  If [r] carries no id, a non-positive one or another one,
    the result is [-ENOMSG] and the caller's slot stays empty, but
    [free_xml] is called on [r] twice: once in the branch that rejects the
    reply and once more after the [done:] label, since only the matching
    branch clears [op_reply] to prevent the second call. *)
Theorem C4_sync_reply (x : exchange) (st : stonith_t) (op : string)
    (data : option string) (out : option (option xml_reply)) (opts tmo : Z)
    (r : xml_reply) :
  state st <> stonith_disconnected ->
  is_Some (token (st_private st)) ->
  has_opt opts st_opt_sync_call = true ->
  0 <= ipc_rc x ->
  ipc_reply x = Some r ->
  let o := stonith_send_command x st (Some op) data out opts tmo in
  let sent_id := call_id (so_session o) in
  (exists req, so_sent o = [req] /\ rq_call_id req = sent_id) /\
  (f_callid r = Some sent_id ->
     so_rc o = match f_rc r with Some v => v | None => - ENOMSG end /\
     if has_opt opts st_opt_discard_reply || negb (bool_decide (is_Some out))
     then so_output_data o = cleared out /\ so_reply_frees o = 1%nat
     else so_output_data o = Some (Some r) /\ so_reply_frees o = 0%nat) /\
  (f_callid r <> Some sent_id ->
     so_rc o = - ENOMSG /\
     so_output_data o = cleared out /\
     so_reply_frees o = 2%nat).
Proof.
  intros Hconn [tok Htok] Hsync Hrc Hreply o sent_id. subst o sent_id.
  unfold stonith_send_command.
  replace (stonith_state_eqb (state st) stonith_disconnected) with false
    by (destruct (state st); cbn; congruence).
  set (st1 := if call_id (set_call_id st (wrap_int (call_id st + 1))) <? 1
              then set_call_id (set_call_id st (wrap_int (call_id st + 1))) 1
              else set_call_id st (wrap_int (call_id st + 1))).
  unfold stonith_create_op. rewrite Htok.
  replace (ipc_rc x <? 0) with false by (symmetry; apply Z.ltb_ge; lia).
  rewrite Hsync, Hreply. cbn [negb].
  fold (cleared out).
  assert (Hcl : bool_decide (is_Some (cleared out)) = bool_decide (is_Some out))
    by (destruct out; reflexivity).
  rewrite Hcl.
  destruct (f_callid r) as [i |] eqn:Hi.
  - destruct (Z.eqb_spec i (call_id st1)) as [-> | Hne].
    + split; [| split].
      * destruct (has_opt opts st_opt_discard_reply || negb (bool_decide (is_Some out)));
          destruct (ipc_connected x); cbn; eauto.
      * intros _.
        destruct (has_opt opts st_opt_discard_reply || negb (bool_decide (is_Some out)));
          destruct (ipc_connected x); cbn; auto.
      * intros Hc.
        destruct (has_opt opts st_opt_discard_reply || negb (bool_decide (is_Some out)));
          destruct (ipc_connected x); cbn in *; congruence.
    + split; [| split].
      * destruct (ipc_connected x); cbn; eauto.
      * intros Hc. destruct (ipc_connected x); cbn in *; congruence.
      * intros _. destruct (ipc_connected x); cbn; repeat split; auto.
  - assert (Hne : (-1 =? call_id st1) = false).
    { apply Z.eqb_neq. subst st1. cbn.
      destruct (Z.ltb_spec (wrap_int (call_id st + 1)) 1); cbn; lia. }
    rewrite Hne. split; [| split].
    + destruct (ipc_connected x); cbn; eauto.
    + intros Hc. destruct (ipc_connected x); cbn in *; congruence.
    + intros _. destruct (ipc_connected x); cbn; repeat split; auto.
Qed.

(** ** C8: disconnected sessions and lost connections *)

(** C8 (amended).  On a disconnected session [stonith_send_command]
    returns [-ENOTCONN] and changes and transmits nothing.  On a connected
    one, a call without an operation (a [NULL] pointer) returns [-EINVAL]
    without allocating a call id or transmitting.  After an exchange that
    was synchronous or whose send failed, a channel reported as no longer
    connected puts the session in the disconnected state; a successful
    asynchronous send returns the call id, which is positive, and leaves
    the state as it was.  An operation given as a string, the empty one
    included, is not rejected: on a connected session that holds a token
    the request is transmitted with that operation under the new call
    id. *)
Theorem C8_send_command_connection (x : exchange) (st : stonith_t)
    (op data : option string) (out : option (option xml_reply)) (opts tmo : Z) :
  let o := stonith_send_command x st op data out opts tmo in
  (state st = stonith_disconnected ->
     so_rc o = - ENOTCONN /\ so_session o = st /\ so_sent o = [] /\
     so_output_data o = out) /\
  (state st <> stonith_disconnected -> op = None ->
     so_rc o = - EINVAL /\ so_session o = st /\ so_sent o = []) /\
  (so_sent o <> [] ->
     has_opt opts st_opt_sync_call = true \/ ipc_rc x < 0 ->
     ipc_connected x = false ->
     state (so_session o) = stonith_disconnected) /\
  (so_sent o <> [] ->
     has_opt opts st_opt_sync_call = false -> 0 <= ipc_rc x ->
     so_rc o = call_id (so_session o) /\ 0 < so_rc o /\
     state (so_session o) = state st) /\
  (state st <> stonith_disconnected -> is_Some (token (st_private st)) ->
     forall s : string, op = Some s ->
     exists req, so_sent o = [req] /\ rq_op req = s /\
                 rq_call_id req = call_id (so_session o) /\
                 0 < call_id (so_session o)).
Proof.
  intros o. subst o. unfold stonith_send_command.
  destruct (stonith_state_eqb (state st) stonith_disconnected) eqn:Hst.
  - assert (state st = stonith_disconnected) by (destruct (state st); cbn in Hst; congruence).
    cbn. repeat split; auto; try congruence.
  - assert (Hc : state st <> stonith_disconnected)
      by (destruct (state st); cbn in Hst; congruence).
    destruct op as [op |]; cbn; [| repeat split; auto; congruence].
    set (st1 := if wrap_int (call_id st + 1) <? 1
                then set_call_id (set_call_id st (wrap_int (call_id st + 1))) 1
                else set_call_id st (wrap_int (call_id st + 1))).
    assert (Hstate : state st1 = state st)
      by (subst st1; destruct (wrap_int (call_id st + 1) <? 1); reflexivity).
    assert (Hpos : 0 < call_id st1)
      by (subst st1; destruct (Z.ltb_spec (wrap_int (call_id st + 1)) 1); cbn; lia).
    assert (Hnz : (call_id st1 =? 0) = false) by (apply Z.eqb_neq; lia).
    unfold stonith_create_op.
    destruct (token (st_private st)) as [tok |] eqn:Htok; cbn;
      [| repeat split; try congruence; intros _ [? ?]; congruence].
    destruct (Z.ltb_spec (ipc_rc x) 0) as [Hneg | Hnn].
    + repeat split; try congruence; try lia.
      * intros _ _ ->. reflexivity.
      * intros _ _ s Hs. injection Hs as <-.
        destruct (ipc_connected x); cbn; eauto.
    + destruct (has_opt opts st_opt_sync_call) eqn:Hsync; cbn [negb].
      * repeat split; try congruence.
        -- intros _ _ Hd. rewrite Hd.
           repeat match goal with
                  | |- context [if ?b then _ else _] => destruct b; cbn
                  end; reflexivity.
        -- intros _ _ s Hs. injection Hs as <-.
           repeat match goal with
                  | |- context [if ?b then _ else _] => destruct b; cbn
                  end; eauto.
      * rewrite Hnz. cbn.
        split; [congruence |]. split; [congruence |]. split; [| split].
        -- intros _ [Hf | Hf]; [congruence | lia].
        -- intros _ _ _. repeat split; [lia | exact Hstate].
        -- intros _ _ s Hs. injection Hs as <-. eauto.
Qed.

(** ** C5: delivery of a reply to the callbacks *)

(** C5 (amended).  For a delivered reply with a call id other than 0: an
    entry registered under that id is removed from the registry, its
    fallback timer is cancelled, and its callback is invoked unless it asked
    for successes only and the result is a failure; the session-wide default
    callback, when one is installed, is invoked for every reply, after the
    matched callback if there is one. *)
Theorem C5_perform_callback (w : world async_fn) (st : stonith_t)
    (msg : option xml_reply) (call0 rc0 : Z) :
  let call := reply_call_id msg call0 in
  let rc := reply_rc msg rc0 in
  call <> 0 ->
  let '(w', st', invs) := stonith_perform_callback w st msg call0 rc0 in
  stonith_op_callback_table (st_private st')
    = delete call (stonith_op_callback_table (st_private st)) /\
  op_callback (st_private st') = op_callback (st_private st) /\
  w' = match stonith_op_callback_table (st_private st) !! call with
       | Some b => stonith_destroy_op_callback b w
       | None => w
       end /\
  invs = specific_invocations st call rc ++ default_invocations st call rc.
Proof.
  intros call rc Hnz. unfold stonith_perform_callback.
  fold (reply_rc msg rc0). fold (reply_call_id msg call0). fold call. fold rc.
  unfold specific_invocations, default_invocations.
  destruct (stonith_op_callback_table (st_private st) !! call) as [b |] eqn:Hb.
  - unfold stonith_api_del_callback.
    replace (call =? 0) with false by (symmetry; apply Z.eqb_neq; exact Hnz).
    unfold g_hash_table_remove. rewrite Hb. cbn.
    repeat split; reflexivity.
  - cbn. repeat split; try reflexivity.
    symmetry. apply delete_id. exact Hb.
Qed.

Lemma C5_perform_callback_witness :
  reply_call_id (Some (mk_reply (Some 5) (Some 0) "")) 0 <> 0 /\
  snd (stonith_perform_callback session_world session_with_callbacks
         (Some (mk_reply (Some 5) (Some 0) "")) 0 0)
  = [mk_invocation 1 5 0 77; mk_invocation 2 5 0 0].
Proof.
  assert (Hnz : reply_call_id (Some (mk_reply (Some 5) (Some 0) "")) 0 <> 0)
    by (cbn; lia).
  split; [exact Hnz |].
  pose proof (C5_perform_callback session_world session_with_callbacks
                (Some (mk_reply (Some 5) (Some 0) "")) 0 0 Hnz) as H.
  destruct (stonith_perform_callback session_world session_with_callbacks
              (Some (mk_reply (Some 5) (Some 0) "")) 0 0) as [[w' st'] invs].
  destruct H as (_ & _ & _ & ->). reflexivity.
Defined.

(** A reply for call 5, for which a callback is registered, on a session
    that also has a default callback: the code invokes both, the
    specification only the first.  And a reply with call id 0 on a session whose default
    callback was registered under call id 0: the entry stored under key 0 is
    found and invoked, but it is the default callback that is dropped, not
    the entry. *)
Lemma C5_claim_counterexample :
  (snd (stonith_perform_callback session_world session_with_callbacks
          (Some (mk_reply (Some 5) (Some 0) "")) 0 0)
   = [mk_invocation 1 5 0 77; mk_invocation 2 5 0 0] /\
   invocations_as_specified session_with_callbacks 5 0 = [mk_invocation 1 5 0 77] /\
   snd (stonith_perform_callback session_world session_with_callbacks
          (Some (mk_reply (Some 5) (Some 0) "")) 0 0)
   <> invocations_as_specified session_with_callbacks 5 0) /\
  (let '(_, st', invs) :=
     stonith_perform_callback session_world session_with_default
       (Some (mk_reply (Some 0) (Some 0) "")) 0 0 in
   is_Some (stonith_op_callback_table (st_private session_with_default) !! 0) /\
   is_Some (stonith_op_callback_table (st_private st') !! 0) /\
   op_callback (st_private session_with_default) = Some 9%nat /\
   op_callback (st_private st') = None /\
   invs = [mk_invocation 9 0 0 0]).
Proof.
  assert (H1 : snd (stonith_perform_callback session_world session_with_callbacks
                      (Some (mk_reply (Some 5) (Some 0) "")) 0 0)
               = [mk_invocation 1 5 0 77; mk_invocation 2 5 0 0]) by reflexivity.
  assert (H2 : invocations_as_specified session_with_callbacks 5 0
               = [mk_invocation 1 5 0 77]) by reflexivity.
  split.
  - split; [exact H1 |]. split; [exact H2 |]. rewrite H1, H2. discriminate.
  - vm_compute. repeat split; eauto.
Qed.

(** ** C9: notification subscribers *)

Lemma strcmp_refl (s : string) : strcmp s s = 0.
Proof.
  unfold strcmp. pose proof (String.compare_antisym s s) as H.
  destruct (String.compare s s); cbn in H; try discriminate; reflexivity.
Qed.

Lemma strcmp_eq (a b : string) : strcmp a b = 0 -> a = b.
Proof.
  unfold strcmp. destruct (String.compare a b) eqn:Hc; try discriminate.
  intros _. apply String.compare_eq_iff. exact Hc.
Qed.

Lemma GCompareFunc_same (e : string) (f : nat) :
  stonithlib_GCompareFunc (mk_notify_client (Some e) (Some f))
                          (mk_notify_client (Some e) (Some f)) = 0.
Proof.
  unfold stonithlib_GCompareFunc. cbn. rewrite strcmp_refl. cbn.
  rewrite Nat.eqb_refl. reflexivity.
Qed.

Lemma GCompareFunc_zero (c : stonith_notify_client_t) (e : string) (f : nat) :
  is_Some (event c) -> is_Some (notify c) ->
  stonithlib_GCompareFunc c (mk_notify_client (Some e) (Some f)) = 0 ->
  c = mk_notify_client (Some e) (Some f).
Proof.
  destruct c as [[ce |] [cf |]]; intros [? He] [? Hf]; try discriminate.
  unfold stonithlib_GCompareFunc. cbn.
  destruct (Z.eqb_spec (strcmp ce e) 0) as [Hs | Hs]; [| intros; contradiction].
  apply strcmp_eq in Hs. subst ce.
  destruct (Nat.eqb_spec cf f) as [-> | Hn]; [reflexivity |].
  match goal with
  | |- (if ?b then _ else _) = _ -> _ => destruct b; intros; discriminate
  end.
Qed.

Lemma find_custom_present (l : list stonith_notify_client_t) (e : string) (f : nat) :
  In (mk_notify_client (Some e) (Some f)) l ->
  is_Some (g_list_find_custom l (mk_notify_client (Some e) (Some f))).
Proof.
  induction l as [| c l IH]; intros Hin; [destruct Hin |].
  cbn [g_list_find_custom].
  destruct (stonithlib_GCompareFunc c (mk_notify_client (Some e) (Some f)) =? 0) eqn:Hc;
    [eexists; reflexivity |].
  destruct Hin as [-> | Hin]; [| apply IH, Hin].
  rewrite GCompareFunc_same in Hc. discriminate.
Qed.

Lemma find_custom_absent (l : list stonith_notify_client_t) (e : string) (f : nat) :
  Forall (fun c => is_Some (event c) /\ is_Some (notify c)) l ->
  ~ In (mk_notify_client (Some e) (Some f)) l ->
  g_list_find_custom l (mk_notify_client (Some e) (Some f)) = None.
Proof.
  induction l as [| c l IH]; intros Hwf Hnin; [reflexivity |].
  apply Forall_cons_iff in Hwf as [[Hev Hno] Hwf].
  cbn [g_list_find_custom].
  destruct (Z.eqb_spec (stonithlib_GCompareFunc c (mk_notify_client (Some e) (Some f))) 0)
    as [Hz | Hz].
  - exfalso. apply Hnin. left. apply GCompareFunc_zero; assumption.
  - apply IH; [exact Hwf |]. intros Hin. apply Hnin. right. exact Hin.
Qed.

Lemma add_notification_keeps_pairs (st : stonith_t) (e : string) (f : nat) :
  Forall (fun c => is_Some (event c) /\ is_Some (notify c)) (notify_list (st_private st)) ->
  Forall (fun c => is_Some (event c) /\ is_Some (notify c))
         (notify_list (st_private
                         (fst (fst (stonith_api_add_notification st (Some e) (Some f)))))).
Proof.
  intros Hwf. unfold stonith_api_add_notification.
  destruct (g_list_find_custom _ _); cbn; [exact Hwf |].
  apply Forall_app. split; [exact Hwf |].
  constructor; [| constructor]. cbn. split; eexists; reflexivity.
Qed.

(** C9 (amended).  On a session whose subscribers all have an event name
    and a callback, subscribing a pair (event name, callback) that is
    already in the list returns [-ENOTUNIQ], changes nothing and sends
    nothing; subscribing a pair that is not yet in the list appends it,
    returns [pcmk_ok] and, unless the session is disconnected, sends one
    activate message for the event to the fencer. *)
Theorem C9_add_notification (st : stonith_t) (e : string) (f : nat) :
  let subscribers := notify_list (st_private st) in
  let pair := mk_notify_client (Some e) (Some f) in
  Forall (fun c => is_Some (event c) /\ is_Some (notify c)) subscribers ->
  let '(st', rc, sent) := stonith_api_add_notification st (Some e) (Some f) in
  (In pair subscribers ->
     rc = - ENOTUNIQ /\ st' = st /\ sent = []) /\
  (~ In pair subscribers ->
     rc = pcmk_ok /\
     notify_list (st_private st') = subscribers ++ [pair] /\
     state st' = state st /\
     sent = if stonith_state_eqb (state st) stonith_disconnected then []
            else [mk_notify_control true (Some e)]).
Proof.
  intros subscribers pair Hwf. subst subscribers pair.
  unfold stonith_api_add_notification.
  destruct (g_list_find_custom _ _) as [c |] eqn:Hfind.
  - split; [auto |]. intros Hnin.
    rewrite (find_custom_absent _ e f Hwf Hnin) in Hfind. discriminate.
  - split.
    + intros Hin. apply find_custom_present in Hin as [c Hc]. congruence.
    + intros _. unfold stonith_set_notification. cbn.
      destruct (stonith_state_eqb (state st) stonith_disconnected); auto.
Qed.

Lemma C9_add_notification_witness :
  Forall (fun c => is_Some (event c) /\ is_Some (notify c))
         (notify_list (st_private session_with_callbacks)) /\
  (let '(st', rc, sent) :=
    stonith_api_add_notification session_with_callbacks (Some "fence"%string)
                                 (Some 4%nat) in
  rc = pcmk_ok /\
  notify_list (st_private st') = [mk_notify_client (Some "fence"%string) (Some 4%nat)] /\
  sent = [mk_notify_control true (Some "fence"%string)]) /\
  Forall (fun c => is_Some (event c) /\ is_Some (notify c))
         (notify_list (st_private session_with_subscriber)) /\
  let '(st', rc, sent) :=
    stonith_api_add_notification session_with_subscriber (Some "fence"%string)
                                 (Some 4%nat) in
  rc = - ENOTUNIQ /\ st' = session_with_subscriber /\ sent = [].
Proof.
  assert (Hwf : Forall (fun c => is_Some (event c) /\ is_Some (notify c))
                  (notify_list (st_private session_with_callbacks)))
    by (cbn; constructor).
  assert (Hwf' : Forall (fun c => is_Some (event c) /\ is_Some (notify c))
                   (notify_list (st_private session_with_subscriber)))
    by (cbn; constructor; [split; eexists; reflexivity | constructor]).
  split; [exact Hwf |].
  pose proof (C9_add_notification session_with_callbacks "fence"%string 4%nat Hwf) as H.
  pose proof (C9_add_notification session_with_subscriber "fence"%string 4%nat Hwf') as H'.
  destruct (stonith_api_add_notification session_with_callbacks (Some "fence"%string)
              (Some 4%nat)) as [[st' rc] sent].
  destruct (stonith_api_add_notification session_with_subscriber (Some "fence"%string)
              (Some 4%nat)) as [[st'' rc'] sent'].
  destruct H as [_ H].
  destruct H as (Hrc & Hlist & _ & Hsent); [cbn; tauto |].
  destruct H' as [H' _].
  destruct H' as (Hrc' & Hst' & Hsent'); [cbn; tauto |].
  split; [split; [exact Hrc |]; split; [exact Hlist | exact Hsent] |].
  split; [exact Hwf' |].
  split; [exact Hrc' |]. split; [exact Hst' | exact Hsent'].
Defined.

(** On a session fresh from [stonith_api_new], which is disconnected,
    subscribing ("fence", callback 1) appends the pair and sends nothing.
    And where ("fence", [NULL]) is subscribed, the pair ("fence", callback 1)
    is not in the list, yet it is refused as a duplicate. *)
Lemma C9_claim_counterexample :
  stonith_api_add_notification stonith_api_new (Some "fence"%string) (Some 1%nat)
  = (set_private stonith_api_new
       (set_notify_list (st_private stonith_api_new)
          [mk_notify_client (Some "fence"%string) (Some 1%nat)]),
     pcmk_ok, []) /\
  ~ C9_append_as_specified /\
  notify_list (st_private session_with_null_subscriber)
  = [mk_notify_client (Some "fence"%string) None] /\
  stonith_api_add_notification session_with_null_subscriber (Some "fence"%string)
                               (Some 1%nat)
  = (session_with_null_subscriber, - ENOTUNIQ, []).
Proof.
  split; [reflexivity |]. split; [| split; reflexivity].
  intros Hspec.
  specialize (Hspec stonith_api_new "fence"%string 1%nat).
  cbn in Hspec. destruct Hspec as [_ Hsent]; [tauto | discriminate].
Qed.

(** ** C10: registering a callback *)

Lemma set_callback_timeout_fresh (blob : stonith_callback_client_t)
    (w : world async_fn) (call timeout : Z) :
  timer blob = None -> 0 < timeout -> (timeout + 60) * 1000 <= INT_MAX ->
  set_callback_timeout blob w call timeout =
  (mk_world (w_now w) (w_next_source w + 1)
     (w_sources w ++ [mk_gsource (w_next_source w) (w_now w + (timeout + 60) * 1000)
                                 (Stonith_async_timeout_handler call)])
     (w_kills w),
   mk_callback_client (callback blob) (id blob) (user_data blob) (only_success blob)
     (allow_timeout_updates blob)
     (Some (mk_timer_rec call ((timeout + 60) * 1000) (w_next_source w)))).
Proof.
  unfold INT_MAX. intros Ht Hpos Hmax. unfold set_callback_timeout.
  replace (timeout <=? 0) with false by (symmetry; apply Z.leb_gt; lia).
  rewrite Ht. cbn.
  rewrite (wrap_int_id (timeout + 60)) by int_bounds.
  rewrite (wrap_int_id ((timeout + 60) * 1000)) by int_bounds.
  unfold to_guint. rewrite Z.mod_small by lia. reflexivity.
Qed.

Lemma source_survives_remove {F} (s : gsource F) (i : Z) (w : world F) :
  In s (w_sources w) -> src_id s <> i -> In s (w_sources (g_source_remove i w)).
Proof.
  intros Hin Hne. unfold g_source_remove. cbn.
  apply filter_In. split; [exact Hin |].
  apply negb_true_iff, Z.eqb_neq, Hne.
Qed.

Lemma g_source_remove_next {F} (i : Z) (w : world F) :
  w_next_source (g_source_remove i w) = w_next_source w.
Proof. reflexivity. Qed.

Lemma destroy_op_callback_next (b : stonith_callback_client_t) (w : world async_fn) :
  w_next_source (stonith_destroy_op_callback b w) = w_next_source w.
Proof.
  unfold stonith_destroy_op_callback.
  destruct (timer b) as [t |]; [| reflexivity].
  destruct (0 <? tr_ref t); reflexivity.
Qed.

Lemma set_callback_timeout_ref (cb : stonith_callback_client_t) (w : world async_fn)
    (call timeout : Z) :
  (forall t, timer cb = Some t -> tr_ref t < w_next_source w) ->
  let '(w', cb') := set_callback_timeout cb w call timeout in
  w_next_source w <= w_next_source w' /\
  forall t, timer cb' = Some t -> tr_ref t < w_next_source w'.
Proof.
  intros Hcb. unfold set_callback_timeout.
  destruct (timeout <=? 0); [split; [lia | exact Hcb] |].
  destruct (negb (tr_ref _ =? 0)); cbn; (split; [lia |]); intros t [= <-]; cbn; lia.
Qed.

(** Registering a callback keeps the source ids of the registry below the
    next id the main loop hands out. *)
Lemma add_callback_refs_fresh (w : world async_fn) (st : stonith_t)
    (call timeout options ud : Z) (name : option string) (cb : fn_ptr) :
  refs_fresh w st ->
  match stonith_api_add_callback w st call timeout options ud name cb with
  | Some (w', st', _, _) => refs_fresh w' st'
  | None => True
  end.
Proof.
  intros Hfresh. unfold stonith_api_add_callback.
  set (blob := mk_callback_client cb name ud
                 (has_opt options st_opt_report_only_success)
                 (has_opt options st_opt_timeout_updates) None).
  assert (Hstore : forall private,
             stonith_op_callback_table private
               = stonith_op_callback_table (st_private st) ->
             match (let '(w0, blob0) :=
                      if 0 <? timeout then set_callback_timeout blob w call timeout
                      else (w, blob) in
                    let '(w1, private1) := g_hash_table_insert call blob0 w0 private in
                    Some (w1, set_private st private1, 1, @nil invocation)) with
             | Some (w', st', _, _) => refs_fresh w' st'
             | None => True
             end).
  { intros private Htab.
    pose proof (set_callback_timeout_ref blob w call timeout
                  ltac:(intros t Ht; discriminate Ht)) as Hset.
    assert (Hpair : let '(w0, blob0) :=
                      if 0 <? timeout then set_callback_timeout blob w call timeout
                      else (w, blob) in
                    w_next_source w <= w_next_source w0 /\
                    forall t, timer blob0 = Some t -> tr_ref t < w_next_source w0).
    { destruct (0 <? timeout); [exact Hset |].
      split; [lia |]. intros t Ht. discriminate Ht. }
    destruct (if 0 <? timeout then set_callback_timeout blob w call timeout
              else (w, blob)) as [w0 blob0].
    destruct Hpair as [Hle Hnew].
    unfold g_hash_table_insert, refs_fresh. cbn.
    intros k b t Hl Ht.
    assert (Hnext : w_next_source
                      match stonith_op_callback_table private !! call with
                      | Some old => stonith_destroy_op_callback old w0
                      | None => w0
                      end = w_next_source w0)
      by (destruct (stonith_op_callback_table private !! call);
          [apply destroy_op_callback_next | reflexivity]).
    rewrite Hnext.
    destruct (decide (call = k)) as [-> | Hne].
    - rewrite lookup_insert_eq in Hl. injection Hl as <-. apply Hnew, Ht.
    - rewrite lookup_insert_ne in Hl by exact Hne.
      rewrite Htab in Hl. specialize (Hfresh k b t Hl Ht). lia. }
  destruct (call =? 0); [apply Hstore; reflexivity |].
  destruct (call <? 0); [| apply Hstore; reflexivity].
  destruct (negb (has_opt options st_opt_report_only_success)); [| exact Hfresh].
  destruct cb; [exact Hfresh | exact I].
Qed.

(** C10.  With a timeout for which [(timeout + 60) * 1000] is an [int]:
    registering a callback under call id 0 installs it as the session-wide
    default callback and also stores an entry under key 0 of the registry,
    with a fallback timer due after [(timeout + 60)] seconds when
    [timeout > 0] and without a timer otherwise; a negative call id leaves
    the session and the timers as they were and returns [FALSE]; every
    call id that is not negative stores an entry under that id and returns
    [TRUE]. *)
Theorem C10_add_callback (w : world async_fn) (st : stonith_t)
    (timeout options ud : Z) (name : option string) (cb : fn_ptr) :
  refs_fresh w st ->
  (timeout + 60) * 1000 <= INT_MAX ->
  (exists w' st' blob,
     stonith_api_add_callback w st 0 timeout options ud name cb
       = Some (w', st', 1, []) /\
     op_callback (st_private st') = cb /\
     stonith_op_callback_table (st_private st') !! 0 = Some blob /\
     callback blob = cb /\ user_data blob = ud /\
     only_success blob = has_opt options st_opt_report_only_success /\
     if 0 <? timeout
     then exists ref,
            timer blob = Some (mk_timer_rec 0 ((timeout + 60) * 1000) ref) /\
            In (mk_gsource ref (w_now w + (timeout + 60) * 1000)
                           (Stonith_async_timeout_handler 0))
               (w_sources w')
     else timer blob = None) /\
  (forall call, call < 0 ->
     match stonith_api_add_callback w st call timeout options ud name cb with
     | Some (w', st', ret, _) => w' = w /\ st' = st /\ ret = 0
     | None => cb = None
     end) /\
  (forall call, 0 <= call ->
     exists w' st',
       stonith_api_add_callback w st call timeout options ud name cb
         = Some (w', st', 1, []) /\
       is_Some (stonith_op_callback_table (st_private st') !! call)).
Proof.
  intros Hfresh Hmax. split; [| split].
  - unfold stonith_api_add_callback. cbn [Z.eqb].
    destruct (Z.ltb_spec 0 timeout) as [Hpos | Hnpos].
    + rewrite set_callback_timeout_fresh by (cbn; auto).
      unfold g_hash_table_insert. cbn.
      eexists _, _, _. split; [reflexivity |]. cbn.
      rewrite lookup_insert_eq. repeat split.
      exists (w_next_source w). split; [reflexivity |].
      destruct (stonith_op_callback_table (st_private st) !! 0) as [old |] eqn:Hold.
      * unfold stonith_destroy_op_callback.
        destruct (timer old) as [t |] eqn:Ht; [| cbn; apply in_or_app; right; left; reflexivity].
        destruct (0 <? tr_ref t); [| cbn; apply in_or_app; right; left; reflexivity].
        apply source_survives_remove.
        -- cbn. apply in_or_app. right. left. reflexivity.
        -- cbn. specialize (Hfresh 0 old t Hold Ht). lia.
      * cbn. apply in_or_app. right. left. reflexivity.
    + unfold g_hash_table_insert. cbn.
      eexists _, _, _. split; [reflexivity |]. cbn.
      rewrite lookup_insert_eq. repeat split.
  - intros call Hneg. unfold stonith_api_add_callback.
    replace (call =? 0) with false by (symmetry; apply Z.eqb_neq; lia).
    replace (call <? 0) with true by (symmetry; apply Z.ltb_lt; lia).
    destruct (negb (has_opt options st_opt_report_only_success)); [| auto].
    destruct cb; auto.
  - intros call Hnn. unfold stonith_api_add_callback.
    destruct (Z.eqb_spec call 0) as [-> | Hnz].
    + destruct (0 <? timeout);
        [destruct (set_callback_timeout _ _ _ _) as [w1 b1] |];
        unfold g_hash_table_insert; cbn; eexists _, _; (split; [reflexivity |]); cbn;
        rewrite lookup_insert_eq; eexists; reflexivity.
    + replace (call <? 0) with false by (symmetry; apply Z.ltb_ge; lia).
      destruct (0 <? timeout);
        [destruct (set_callback_timeout _ _ _ _) as [w1 b1] |];
        unfold g_hash_table_insert; cbn; eexists _, _; (split; [reflexivity |]); cbn;
        rewrite lookup_insert_eq; eexists; reflexivity.
Qed.

(** ** C6: the arguments written for the agent *)

Lemma append_cons (c : ascii) (a b : string) :
  (String c a ++ b)%string = String c (a ++ b)%string.
Proof. reflexivity. Qed.

Lemma append_nil_l (b : string) : (EmptyString ++ b)%string = b.
Proof. reflexivity. Qed.

Lemma append_assoc (a b c : string) :
  ((a ++ b) ++ c)%string = (a ++ b ++ c)%string.
Proof.
  induction a as [| x a IH]; [reflexivity |].
  rewrite !append_cons, IH. reflexivity.
Qed.

Lemma has_char_app (p : ascii -> bool) (a b : string) :
  has_char p (a ++ b)%string = has_char p a || has_char p b.
Proof.
  induction a as [| c a IH]; [reflexivity |].
  rewrite append_cons. cbn. rewrite IH. apply orb_assoc.
Qed.

Lemma split_lines_line (l rest : string) :
  clean l = true ->
  split_lines (l ++ newline ++ rest)%string
  = (l :: fst (split_lines rest), snd (split_lines rest)).
Proof.
  unfold clean. induction l as [| c l IH]; intros Hl.
  - unfold newline. rewrite append_nil_l, append_cons, append_nil_l. cbn.
    destruct (split_lines rest); reflexivity.
  - cbn in Hl. apply negb_true_iff, orb_false_iff in Hl as [Hc Hl].
    rewrite append_cons. cbn [split_lines].
    rewrite IH by (apply negb_true_iff; exact Hl).
    rewrite Hc. reflexivity.
Qed.

Lemma line_key_entry (k v : string) :
  clean_key k = true -> line_key (k ++ "=" ++ v)%string = Some k.
Proof.
  unfold clean_key. induction k as [| c k IH]; intros Hk; [reflexivity |].
  cbn in Hk. apply andb_true_iff in Hk as [Hn He].
  apply negb_true_iff, orb_false_iff in Hn as [_ Hn].
  apply negb_true_iff, orb_false_iff in He as [Hc He].
  rewrite append_cons. cbn [line_key].
  rewrite Hc, IH; [reflexivity |].
  apply andb_true_iff. split; apply negb_true_iff; assumption.
Qed.

Lemma print_uint_clean (n : N) : clean (print_uint n) = true.
Proof.
  unfold print_uint, clean. generalize (N.to_uint n). intros d.
  induction d; cbn; auto.
Qed.

Lemma lookup_Forall (P : string -> Prop) (t : str_table) (k v : string) :
  Forall (fun kv => P (snd kv)) t -> g_hash_table_lookup t k = Some v -> P v.
Proof.
  induction t as [| [k' v'] t IH]; cbn; intros Hall Hl; [discriminate |].
  apply Forall_cons_iff in Hall as [Hv Hall].
  destruct (String.eqb k' k); [injection Hl as <-; exact Hv | apply IH; assumption].
Qed.

Section Serialization.

Variable safe_str_eq : option string -> option string -> bool.
Variable safe_str_neq : option string -> option string -> bool.

Lemma render_app (es1 es2 : list (string * string)) :
  render (es1 ++ es2) = (render es1 ++ render es2)%string.
Proof.
  induction es1 as [| [k v] es1 IH]; [reflexivity |].
  cbn [render app]. rewrite IH, !append_assoc. reflexivity.
Qed.

Lemma wf_blob_nil : (wf_blob safe_str_eq) None.
Proof. exists []. split; [reflexivity | constructor]. Qed.

Lemma append_arg_wf (key value : option string) (b : option string) :
  (wf_blob safe_str_eq) b ->
  (forall k, key = Some k -> clean_key k = true) ->
  (forall v, value = Some v -> clean v = true) ->
  (wf_blob safe_str_eq) (append_arg safe_str_eq key value b).
Proof.
  intros Hwf Hk Hv. unfold append_arg.
  destruct key as [k |]; [| exact Hwf]. destruct value as [v |]; [| exact Hwf].
  destruct (strstr k "pcmk_") eqn:H1; [exact Hwf |].
  destruct (strstr k CRM_META) eqn:H2; [exact Hwf |].
  destruct (safe_str_eq (Some k) (Some "crm_feature_set"%string)) eqn:H3; [exact Hwf |].
  destruct Hwf as (entries & Hb & Hall).
  exists (entries ++ [(k, v)]). split.
  - fold (blob_of b). rewrite Hb, render_app. cbn [render blob_of].
    repeat f_equal.
  - apply Forall_app. split; [exact Hall |]. constructor; [| constructor].
    unfold entry_ok, reserved. cbn. rewrite H1, H2, H3.
    repeat split; auto.
Qed.

Lemma split_render (entries : list (string * string)) :
  Forall (entry_ok safe_str_eq) entries ->
  split_lines (render entries)
  = (map (fun kv => (fst kv ++ "=" ++ snd kv)%string) entries, EmptyString).
Proof.
  induction entries as [| [k v] es IH]; intros Hall; [reflexivity |].
  apply Forall_cons_iff in Hall as [(Hk & Hv & _) Hall].
  cbn [render map fst snd] in *.
  replace (k ++ "=" ++ v ++ newline ++ render es)%string
    with ((k ++ "=" ++ v) ++ newline ++ render es)%string
    by (rewrite !append_assoc; reflexivity).
  rewrite split_lines_line.
  - rewrite IH by exact Hall. reflexivity.
  - unfold clean, clean_key in *. rewrite !has_char_app.
    apply andb_true_iff in Hk as [Hk _].
    apply negb_true_iff in Hk, Hv. rewrite Hk, Hv. reflexivity.
Qed.

Lemma fold_config_wf (t : str_table) (b : option string) :
  Forall (fun kv => clean_key (fst kv) = true /\ clean (snd kv) = true) t ->
  (wf_blob safe_str_eq) b ->
  (wf_blob safe_str_eq) (fold_left (fun acc kv =>
                        append_config_arg safe_str_eq safe_str_neq (fst kv) (snd kv) acc)
                     t b).
Proof.
  revert b. induction t as [| [k v] t IH]; intros b Hall Hwf; [exact Hwf |].
  apply Forall_cons_iff in Hall as [[Hk Hv] Hall]. cbn [fold_left fst snd] in *.
  apply IH; [exact Hall |]. unfold append_config_arg.
  destruct (safe_str_neq (Some k) (Some STONITH_ATTR_ACTION_OP)); [| exact Hwf].
  apply append_arg_wf; [exact Hwf | |]; congruence.
Qed.

Lemma make_args_wf (agent victim : option string) (action : string) (nodeid : N)
    (dargs pmap : option str_table) :
  clean action = true ->
  (forall vic, victim = Some vic -> clean vic = true) ->
  (forall t, dargs = Some t ->
     Forall (fun kv => clean_key (fst kv) = true /\ clean (snd kv) = true) t /\
     forall p, g_hash_table_lookup t STONITH_ATTR_HOSTARG = Some p -> clean_key p = true) ->
  (forall t, pmap = Some t -> Forall (fun kv => clean (snd kv) = true) t) ->
  (wf_blob safe_str_eq) (make_args safe_str_eq safe_str_neq agent (Some action) victim nodeid dargs pmap).
Proof.
  intros Hact Hvic Hdargs Hpmap. unfold make_args.
  (* the action written first *)
  set (action' := match match dargs with
                        | Some t => g_hash_table_lookup t _
                        | None => None
                        end with
                  | Some v => v
                  | None => action
                  end).
  assert (Hact' : clean action' = true).
  { subst action'. destruct dargs as [t |]; [| exact Hact].
    destruct (g_hash_table_lookup t _) as [v |] eqn:Hl; [| exact Hact].
    destruct (Hdargs t eq_refl) as [Hall _].
    eapply (lookup_Forall (fun v => clean v = true) t); [| exact Hl].
    eapply Forall_impl; [exact Hall |]. cbn. tauto. }
  set (arg1 := append_arg safe_str_eq (Some STONITH_ATTR_ACTION_OP) (Some action') None).
  assert (H1 : (wf_blob safe_str_eq) arg1).
  { apply append_arg_wf; [apply wf_blob_nil | |]; intros ? [= <-]; [reflexivity | exact Hact']. }
  destruct dargs as [t |].
  2:{ destruct victim; exact H1. }
  destruct (Hdargs t eq_refl) as [Hall Hhost].
  apply fold_config_wf; [exact Hall |].
  destruct victim as [vic |]; [| exact H1].
  specialize (Hvic vic eq_refl).
  set (alias := match pmap with
                | Some pm => match g_hash_table_lookup pm vic with
                             | Some a => a
                             | None => vic
                             end
                | None => vic
                end).
  assert (Halias : clean alias = true).
  { subst alias. destruct pmap as [pm |]; [| exact Hvic].
    destruct (g_hash_table_lookup pm vic) as [a |] eqn:Hl; [| exact Hvic].
    apply (lookup_Forall (fun v => clean v = true) pm vic a); [| exact Hl].
    apply Hpmap. reflexivity. }
  set (arg2 := append_arg safe_str_eq (Some "nodename"%string) (Some vic) arg1).
  assert (H2 : (wf_blob safe_str_eq) arg2).
  { apply append_arg_wf; [exact H1 | |]; intros ? [= <-]; [reflexivity | exact Hvic]. }
  set (arg3 := if negb (nodeid =? 0)%N
               then append_arg safe_str_eq (Some "nodeid"%string)
                               (Some (print_uint nodeid)) arg2
               else arg2).
  assert (H3 : (wf_blob safe_str_eq) arg3).
  { subst arg3. destruct (negb (nodeid =? 0)%N); [| exact H2].
    apply append_arg_wf; [exact H2 | |]; intros ? [= <-];
      [reflexivity | apply print_uint_clean]. }
  assert (Hfinal : forall param value,
             (forall k, param = Some k -> clean_key k = true) ->
             (wf_blob safe_str_eq) (if negb (bool_decide (is_Some value))
                         || safe_str_eq value (Some "dynamic"%string)
                      then append_arg safe_str_eq param (Some alias) arg3
                      else arg3)).
  { intros param value Hp.
    destruct (negb (bool_decide (is_Some value)) || safe_str_eq value (Some "dynamic"%string));
      [| exact H3].
    apply append_arg_wf; [exact H3 | exact Hp |]. intros ? [= <-]. exact Halias. }
  assert (Hparam : forall k, g_hash_table_lookup t STONITH_ATTR_HOSTARG = Some k ->
                             clean_key k = true) by exact Hhost.
  destruct (safe_str_eq agent (Some "fence_legacy"%string)).
  - apply Hfinal. exact Hparam.
  - destruct (g_hash_table_lookup t STONITH_ATTR_HOSTARG) as [p |] eqn:Hp.
    + destruct (safe_str_eq (Some p) (Some "none"%string)); apply Hfinal;
        intros k [= <-]; apply Hparam; reflexivity.
    + apply Hfinal. intros k [= <-]. reflexivity.
Qed.

(** C6 (amended).  For an action, a target, device parameters and a port
    map in which no key or value contains a newline and in which no key and
    no host-argument name contains [=], the blob [make_args] builds (empty
    when it returns [NULL]) consists of newline-terminated lines, each of
    the form [key=value] with [key] the text before its first [=], and no
    such key is one that [append_arg] filters: none contains [pcmk_], none
    contains [CRM_meta], and none is [crm_feature_set] for [safe_str_eq]. *)
Theorem C6_make_args (agent victim : option string) (action : string) (nodeid : N)
    (dargs pmap : option str_table) :
  clean action = true ->
  (forall vic, victim = Some vic -> clean vic = true) ->
  (forall t, dargs = Some t ->
     Forall (fun kv => clean_key (fst kv) = true /\ clean (snd kv) = true) t /\
     forall p, g_hash_table_lookup t STONITH_ATTR_HOSTARG = Some p -> clean_key p = true) ->
  (forall t, pmap = Some t -> Forall (fun kv => clean (snd kv) = true) t) ->
  let blob := blob_of (make_args safe_str_eq safe_str_neq agent (Some action) victim
                                 nodeid dargs pmap) in
  snd (split_lines blob) = EmptyString /\
  Forall (fun l => exists k v,
              l = (k ++ "=" ++ v)%string /\ line_key l = Some k /\
              reserved safe_str_eq k = false)
         (fst (split_lines blob)).
Proof.
  intros Hact Hvic Hdargs Hpmap blob.
  destruct (make_args_wf agent victim action nodeid dargs pmap Hact Hvic Hdargs Hpmap)
    as (entries & Hblob & Hall).
  subst blob. rewrite Hblob, split_render by exact Hall. cbn [fst snd].
  split; [reflexivity |].
  apply Forall_map. eapply Forall_impl; [exact Hall |].
  intros [k v] (Hk & Hv & Hres). cbn [fst snd] in *.
  exists k, v. split; [reflexivity |]. split; [apply line_key_entry, Hk | exact Hres].
Qed.

End Serialization.

(** ** C7: the two timers of an asynchronous attempt *)

Lemma execute_async_armed (now : Z) (os : spawn) (w : world timer_fn)
    (a : stonith_action_t) :
  spawned os a -> w_sources w = [] ->
  0 < remaining_timeout a -> 1000 * (remaining_timeout a + 5) <= INT_MAX ->
  exists a1,
    internal_stonith_action_execute now os w a
    = (mk_world (w_now w) (w_next_source w + 1 + 1)
         [mk_gsource (w_next_source w) (w_now w + 1000 * remaining_timeout a)
                     St_child_term;
          mk_gsource (w_next_source w + 1)
                     (w_now w + 1000 * (remaining_timeout a + 5)) St_child_kill]
         (w_kills w),
       a1, 0) /\
    timer_sigterm a1 = w_next_source w /\
    timer_sigkill a1 = w_next_source w + 1 /\
    pid a1 = spawn_fork os /\
    last_timeout_signo a1 = 0.
Proof.
  unfold INT_MAX. intros (Hpipes & Hfork & blob & ag & Hargs & Hagent & Htotal) Hsrc HR Hmax.
  destruct a as [ag0 ac vi ar ti asy fo fe lts ist tr rem tt tk mr pi r o e0].
  destruct w as [wn wx ws wk].
  cbn [args agent remaining_timeout w_sources w_now w_next_source w_kills] in *.
  subst ag0 ar ws.
  assert (Hterm : to_guint (wrap_int (1000 * rem)) = 1000 * rem).
  { rewrite wrap_int_id by int_bounds. unfold to_guint. apply Z.mod_small. lia. }
  assert (Hkill : to_guint (wrap_int (1000 * wrap_int (rem + 5))) = 1000 * (rem + 5)).
  { rewrite (wrap_int_id (rem + 5)) by int_bounds.
    rewrite wrap_int_id by int_bounds. unfold to_guint. apply Z.mod_small. lia. }
  assert (Hnz : (rem =? 0) = false) by (apply Z.eqb_neq; lia).
  assert (Hfk : (spawn_fork os <? 0) = false) by (apply Z.ltb_ge; lia).
  unfold internal_stonith_action_execute, stonith_action_clear_tracking_data.
  cbn [timer_sigterm timer_sigkill].
  assert (Hclear : forall (b1 b2 : bool) (i j : Z),
             (if b2 then g_source_remove j
                           (if b1 then g_source_remove i (mk_world wn wx [] wk)
                            else mk_world wn wx [] wk)
              else if b1 then g_source_remove i (mk_world wn wx [] wk)
                   else mk_world wn wx (@nil (gsource timer_fn)) wk)
             = mk_world wn wx [] wk)
    by (intros [] [] i j; reflexivity).
  rewrite Hclear.
  cbn [tries].
  destruct (tr =? 0);
    cbn -[wrap_int to_guint Z.mul Z.add Z.ltb Z.eqb Z.of_nat];
    rewrite Hpipes; cbn [negb]; rewrite Hfk, Htotal, Z.eqb_refl; cbn [negb];
    rewrite Hnz; cbn [negb]; rewrite Hterm, Hkill;
    eexists; (split; [reflexivity |]);
    cbn [timer_sigterm timer_sigkill pid last_timeout_signo set_timers]; auto.
Qed.

Lemma run_until_armed (t t0 n d1 d2 : Z) (ks : list (Z * Z)) (a1 : stonith_action_t) :
  t0 < d1 -> d1 < d2 -> 0 < n ->
  timer_sigterm a1 = n -> timer_sigkill a1 = n + 1 ->
  let w1 := mk_world t0 (n + 1 + 1)
              [mk_gsource n d1 St_child_term; mk_gsource (n + 1) d2 St_child_kill] ks in
  let '(wt, at_) := run_until t w1 a1 in
  w_kills wt = ks ++ (if t <? d1 then []
                      else if t <? d2 then [(- pid a1, SIGTERM)]
                      else [(- pid a1, SIGTERM); (- pid a1, SIGKILL)]) /\
  pid at_ = pid a1 /\
  (forall s, In s (w_sources wt) ->
             0 < src_id s /\ (src_id s = timer_sigterm at_ \/ src_id s = timer_sigkill at_)).
Proof.
  intros H01 H12 Hn Hterm Hkill.
  destruct a1 as [ag ac vi ar ti asy fo fe lts ist tr rem tt tk mr pi r o e0].
  cbn in Hterm, Hkill. subst tt tk.
  cbv -[Z.max Z.leb Z.ltb Z.eqb Z.add Z.opp Z.lt In app].
  replace (d2 <? d1) with false by (symmetry; apply Z.ltb_ge; lia).
  destruct (Z.leb_spec d1 (Z.max t0 t)) as [Hd1 | Hd1].
  - replace (t <? d1) with false by (symmetry; apply Z.ltb_ge; lia).
    rewrite Z.eqb_refl.
    replace (n + 1 =? n) with false by (symmetry; apply Z.eqb_neq; lia).
    cbv -[Z.max Z.leb Z.ltb Z.eqb Z.add Z.opp Z.lt In app].
    destruct (Z.leb_spec d2 (Z.max t0 t)) as [Hd2 | Hd2].
    + replace (t <? d2) with false by (symmetry; apply Z.ltb_ge; lia).
      rewrite Z.eqb_refl.
      cbv -[Z.max Z.leb Z.ltb Z.eqb Z.add Z.opp Z.lt In app].
      rewrite <- app_assoc.
      repeat split; auto; contradiction.
    + replace (t <? d2) with true by (symmetry; apply Z.ltb_lt; lia).
      repeat split; auto; destruct H as [<- | []]; cbn; auto; lia.
  - replace (t <? d1) with true by (symmetry; apply Z.ltb_lt; lia).
    rewrite app_nil_r. repeat split; auto;
      destruct H as [<- | [<- | []]]; cbn; try lia; auto.
Qed.

Lemma collect_cancels (out err : option string) (signo exitcode : Z)
    (w : world timer_fn) (a : stonith_action_t) :
  (forall s, In s (w_sources w) ->
             0 < src_id s /\ (src_id s = timer_sigterm a \/ src_id s = timer_sigkill a)) ->
  w_sources (fst (async_done_collect out err signo exitcode w a)) = [] /\
  w_kills (fst (async_done_collect out err signo exitcode w a)) = w_kills w.
Proof.
  intros Hsrc. unfold async_done_collect. cbn [fst].
  set (w1 := if 0 <? timer_sigterm a then g_source_remove (timer_sigterm a) w else w).
  set (a1 := if 0 <? timer_sigterm a then set_timers a 0 (timer_sigkill a) else a).
  assert (Hk1 : timer_sigkill a1 = timer_sigkill a)
    by (subst a1; destruct (0 <? timer_sigterm a); reflexivity).
  rewrite Hk1.
  set (w2 := if 0 <? timer_sigkill a then g_source_remove (timer_sigkill a) w1 else w1).
  assert (Hkills : w_kills w2 = w_kills w)
    by (subst w2 w1; destruct (0 <? timer_sigkill a), (0 <? timer_sigterm a); reflexivity).
  split; [| exact Hkills].
  destruct (w_sources w2) as [| s rest] eqn:Hs; [reflexivity | exfalso].
  assert (Hin : In s (w_sources w2)) by (rewrite Hs; left; reflexivity).
  assert (Hin1 : In s (w_sources w1) /\ (0 < timer_sigkill a -> src_id s <> timer_sigkill a)).
  { subst w2. destruct (Z.ltb_spec 0 (timer_sigkill a)) as [Hp | Hp].
    - cbn in Hin. apply filter_In in Hin as [Hin Hne].
      split; [exact Hin |]. intros _. apply negb_true_iff, Z.eqb_neq in Hne. exact Hne.
    - split; [exact Hin | lia]. }
  destruct Hin1 as [Hin1 Hnk].
  assert (Hin0 : In s (w_sources w) /\ (0 < timer_sigterm a -> src_id s <> timer_sigterm a)).
  { subst w1. destruct (Z.ltb_spec 0 (timer_sigterm a)) as [Hp | Hp].
    - cbn in Hin1. apply filter_In in Hin1 as [Hin1 Hne].
      split; [exact Hin1 |]. intros _. apply negb_true_iff, Z.eqb_neq in Hne. exact Hne.
    - split; [exact Hin1 | lia]. }
  destruct Hin0 as [Hin0 Hnt].
  destruct (Hsrc s Hin0) as [Hpos [Heq | Heq]]; [apply Hnt | apply Hnk]; lia.
Qed.

Lemma run_until_idle (t : Z) (w : world timer_fn) (a : stonith_action_t) :
  w_sources w = [] -> w_kills (fst (run_until t w a)) = w_kills w.
Proof. intros Hs. unfold run_until. rewrite Hs. reflexivity. Qed.

(** C7.  An asynchronous attempt that starts the agent with a remaining
    timeout [R > 0] (with [1000 * (R + 5)] an [int]) and no timer pending
    arms two one-shot timers: [st_child_term], due [R] seconds later, and
    [st_child_kill], due [R + 5] seconds later.  While the child has not
    exited, the main loop sends SIGTERM to the child's process group once
    the first is due and SIGKILL once the second is due, and nothing
    before.  When the child's exit is handled, the timers still pending are
    removed and no signal is sent from then on; in particular none is ever
    sent if the exit is handled before the first timer is due. *)
Theorem C7_timeout_escalation (now : Z) (os : spawn) (w : world timer_fn)
    (a : stonith_action_t) :
  let R := remaining_timeout a in
  spawned os a -> w_sources w = [] -> 0 < w_next_source w ->
  0 < R -> 1000 * (R + 5) <= INT_MAX ->
  let '(w1, a1, r) := internal_stonith_action_execute now os w a in
  let due_term := w_now w + 1000 * R in
  let due_kill := w_now w + 1000 * (R + 5) in
  r = 0 /\
  w_sources w1 = [mk_gsource (timer_sigterm a1) due_term St_child_term;
                  mk_gsource (timer_sigkill a1) due_kill St_child_kill] /\
  w_kills w1 = w_kills w /\
  due_kill = due_term + 5000 /\
  forall t,
    let '(wt, at_) := run_until t w1 a1 in
    w_kills wt = w_kills w ++
                 (if t <? due_term then []
                  else if t <? due_kill then [(- spawn_fork os, SIGTERM)]
                  else [(- spawn_fork os, SIGTERM); (- spawn_fork os, SIGKILL)]) /\
    forall out err signo exitcode t',
      let '(w2, a2) := async_done_collect out err signo exitcode wt at_ in
      w_sources w2 = [] /\
      w_kills (fst (run_until t' w2 a2)) = w_kills wt.
Proof.
  intros R Hsp Hsrc Hnext HR Hmax.
  destruct (execute_async_armed now os w a Hsp Hsrc HR Hmax)
    as (a1 & Hexec & Hterm & Hkill & Hpid & Hlts).
  rewrite Hexec. fold R. cbn [w_sources w_kills].
  rewrite Hterm, Hkill.
  split; [reflexivity |]. split; [reflexivity |]. split; [reflexivity |].
  split; [lia |].
  intros t.
  pose proof (run_until_armed t (w_now w) (w_next_source w)
                (w_now w + 1000 * R) (w_now w + 1000 * (R + 5)) (w_kills w) a1
                ltac:(lia) ltac:(lia) Hnext Hterm Hkill) as Hrun.
  cbv zeta in Hrun.
  destruct (run_until t _ a1) as [wt at_].
  destruct Hrun as (Hkills & Hpid' & Hpending).
  rewrite Hpid in Hkills. split; [exact Hkills |].
  intros out err signo exitcode t'.
  pose proof (collect_cancels out err signo exitcode wt at_ Hpending) as [Hnone Hsame].
  destruct (async_done_collect out err signo exitcode wt at_) as [w2 a2].
  cbn [fst] in Hnone, Hsame.
  split; [exact Hnone |].
  rewrite run_until_idle by exact Hnone. exact Hsame.
Qed.

(** ** Instances *)

Lemma C3_call_ids_witness :
  state (run_calls nocase_str_neq [Call_signon signon_ok] stonith_api_new)
    <> stonith_disconnected /\
  call_id (so_session
             (stonith_send_command exchange_async_ok
                (run_calls nocase_str_neq [Call_signon signon_ok] stonith_api_new)
                (Some "st_fence"%string) None None 0 10)) = 2.
Proof.
  assert (Hc : state (run_calls nocase_str_neq [Call_signon signon_ok] stonith_api_new)
               <> stonith_disconnected) by (vm_compute; discriminate).
  split; [exact Hc |].
  destruct (C3_call_ids nocase_str_neq [Call_signon signon_ok] exchange_async_ok
              "st_fence"%string None None 0 10 Hc) as (_ & Hid & _).
  rewrite Hid. reflexivity.
Defined.

(** A synchronous [st_query] on a session whose last call id is 5: the
    reply carrying id 6 is handed to the caller with its result code; the
    stale reply carrying id 4 gives [-ENOMSG], leaves the slot empty and is
    passed to [free_xml] twice. *)
Lemma C4_sync_reply_witness :
  state session_with_callbacks <> stonith_disconnected /\
  is_Some (token (st_private session_with_callbacks)) /\
  has_opt st_opt_sync_call st_opt_sync_call = true /\
  0 <= ipc_rc exchange_sync_6 /\
  ipc_reply exchange_sync_6 = Some reply_6 /\
  so_rc (stonith_send_command exchange_sync_6 session_with_callbacks
           (Some "st_query"%string) None (Some None) st_opt_sync_call 10) = 0 /\
  so_output_data (stonith_send_command exchange_sync_6 session_with_callbacks
                    (Some "st_query"%string) None (Some None) st_opt_sync_call 10)
  = Some (Some reply_6) /\
  0 <= ipc_rc exchange_sync_4 /\
  ipc_reply exchange_sync_4 = Some reply_4 /\
  (let o := stonith_send_command exchange_sync_4 session_with_callbacks
              (Some "st_query"%string) None (Some None) st_opt_sync_call 10 in
   call_id (so_session o) = 6 /\
   so_rc o = - ENOMSG /\ so_output_data o = Some None /\
   so_reply_frees o = 2%nat).
Proof.
  assert (H1 : state session_with_callbacks <> stonith_disconnected)
    by (cbn; discriminate).
  assert (H2 : is_Some (token (st_private session_with_callbacks)))
    by (eexists; reflexivity).
  assert (H3 : has_opt st_opt_sync_call st_opt_sync_call = true) by reflexivity.
  assert (H4 : 0 <= ipc_rc exchange_sync_6) by (cbn; lia).
  assert (H5 : ipc_reply exchange_sync_6 = Some reply_6) by reflexivity.
  assert (H6 : 0 <= ipc_rc exchange_sync_4) by (cbn; lia).
  assert (H7 : ipc_reply exchange_sync_4 = Some reply_4) by reflexivity.
  destruct (C4_sync_reply exchange_sync_6 session_with_callbacks "st_query"%string
              None (Some None) st_opt_sync_call 10 reply_6 H1 H2 H3 H4 H5)
    as (_ & Hmatch & _).
  destruct (Hmatch eq_refl) as [Hrc Hout].
  assert (Hcond : has_opt st_opt_sync_call st_opt_discard_reply
                  || negb (bool_decide (is_Some (Some (@None xml_reply)))) = false)
    by reflexivity.
  rewrite Hcond in Hout. destruct Hout as [Hout _].
  destruct (C4_sync_reply exchange_sync_4 session_with_callbacks "st_query"%string
              None (Some None) st_opt_sync_call 10 reply_4 H1 H2 H3 H6 H7)
    as (_ & _ & Hother).
  destruct Hother as (Hrc' & Hout' & Hfrees); [cbn; discriminate |].
  split; [exact H1 |]. split; [exact H2 |]. split; [exact H3 |].
  split; [exact H4 |]. split; [exact H5 |]. split; [exact Hrc |].
  split; [exact Hout |]. split; [exact H6 |]. split; [exact H7 |].
  cbv zeta. split; [reflexivity |]. split; [exact Hrc' |].
  split; [exact Hout' | exact Hfrees].
Defined.

(** An asynchronous [st_fence] on a connected session, with the channel
    reported as lost after the send: the request is transmitted, call id 6
    is returned and the session still counts as connected.  And an
    asynchronous call whose operation is the empty string: it is not
    rejected, the request is transmitted under call id 6. *)
Lemma C8_claim_counterexample :
  (let o := stonith_send_command exchange_async_lost session_with_callbacks
              (Some "st_fence"%string) None None 0 10 in
   so_rc o = 6 /\ length (so_sent o) = 1%nat /\
   state (so_session o) = stonith_connected_command) /\
  ~ C8_lost_connection_as_specified /\
  (let o := stonith_send_command exchange_async_ok session_with_callbacks
              (Some EmptyString) None None 0 10 in
   so_rc o = 6 /\ call_id (so_session o) = 6 /\
   so_sent o = [mk_request "token" EmptyString 6 0 10 None]) /\
  ~ C8_empty_operation_as_specified.
Proof.
  split; [repeat split |]. split; [| split; [repeat split |]].
  - intros Hspec.
    specialize (Hspec exchange_async_lost session_with_callbacks
                  (Some "st_fence"%string) None None 0 10).
    cbn in Hspec. discriminate Hspec; [discriminate | reflexivity].
  - intros Hspec.
    destruct (Hspec exchange_async_ok session_with_callbacks None None 0 10)
      as [_ Hsent]; [cbn; discriminate |].
    cbn in Hsent. discriminate Hsent.
Qed.

Lemma C6_make_args_witness :
  clean "reboot" = true /\
  make_args nocase_str_eq nocase_str_neq (Some "fence_ipmilan"%string)
            (Some "reboot"%string) (Some "node2"%string) 7%N
            (Some device_args_example) (Some port_map_example)
  = Some ("action=off" ++ newline ++ "nodename=node2" ++ newline ++
          "nodeid=7" ++ newline ++ "port=vm-2" ++ newline ++
          "ipaddr=10.0.0.2" ++ newline)%string /\
  Forall (fun l => exists k v,
              l = (k ++ "=" ++ v)%string /\ line_key l = Some k /\
              reserved nocase_str_eq k = false)
         (fst (split_lines
                 (blob_of (make_args nocase_str_eq nocase_str_neq
                             (Some "fence_ipmilan"%string) (Some "reboot"%string)
                             (Some "node2"%string) 7%N
                             (Some device_args_example) (Some port_map_example))))).
Proof.
  assert (H1 : clean "reboot" = true) by reflexivity.
  assert (H2 : forall vic, Some "node2"%string = Some vic -> clean vic = true)
    by (intros vic [= <-]; reflexivity).
  assert (H3 : forall t, Some device_args_example = Some t ->
             Forall (fun kv => clean_key (fst kv) = true /\ clean (snd kv) = true) t /\
             forall p, g_hash_table_lookup t STONITH_ATTR_HOSTARG = Some p ->
                       clean_key p = true).
  { intros t [= <-]. split.
    - repeat constructor.
    - intros p Hp. vm_compute in Hp. discriminate. }
  assert (H4 : forall t, Some port_map_example = Some t ->
             Forall (fun kv => clean (snd kv) = true) t)
    by (intros t [= <-]; repeat constructor).
  split; [exact H1 |]. split; [vm_compute; reflexivity |].
  exact (proj2 (C6_make_args nocase_str_eq nocase_str_neq (Some "fence_ipmilan"%string)
                  (Some "node2"%string) "reboot" 7%N (Some device_args_example)
                  (Some port_map_example) H1 H2 H3 H4)).
Defined.

(** A parameter [a] whose value holds a newline followed by [pcmk_x=1]: the
    key [a] passes the filter, and the agent reads a line with the key
    [pcmk_x].  And a parameter named [crm_feature_set=x]: it is not the
    filtered name, and the agent reads a line with the key [crm_feature_set]. *)
Lemma C6_claim_counterexample :
  fst (split_lines
         (blob_of (make_args nocase_str_eq nocase_str_neq (Some "fence_ipmilan"%string)
                     (Some "off"%string) None 0%N (Some device_args_injection) None)))
  = ["action=off"; "a=b"; "pcmk_x=1"]%string /\
  line_key "pcmk_x=1" = Some "pcmk_x"%string /\
  reserved nocase_str_eq "pcmk_x" = true /\
  ~ C6_as_specified /\
  fst (split_lines
         (blob_of (make_args nocase_str_eq nocase_str_neq (Some "fence_ipmilan"%string)
                     (Some "off"%string) None 0%N (Some device_args_equals) None)))
  = ["action=off"; "crm_feature_set=x=1"]%string /\
  line_key "crm_feature_set=x=1" = Some "crm_feature_set"%string /\
  reserved nocase_str_eq "crm_feature_set" = true.
Proof.
  split; [vm_compute; reflexivity |]. split; [reflexivity |]. split; [reflexivity |].
  split; [| split; [vm_compute; reflexivity | split; reflexivity]].
  intros Hspec.
  specialize (Hspec (Some "fence_ipmilan"%string) (Some "off"%string) None 0%N
                (Some device_args_injection) None).
  destruct Hspec as [_ Hall].
  vm_compute in Hall.
  apply Forall_cons_iff in Hall as [_ Hall].
  apply Forall_cons_iff in Hall as [_ Hall].
  apply Forall_cons_iff in Hall as [(k & Hk & Hres) _].
  injection Hk as <-. discriminate Hres.
Qed.

Lemma C7_timeout_escalation_witness :
  spawned spawn_ok async_action /\
  w_sources idle_world = [] /\ 0 < w_next_source idle_world /\
  0 < remaining_timeout async_action /\
  1000 * (remaining_timeout async_action + 5) <= INT_MAX /\
  w_sources (fst (fst (internal_stonith_action_execute 1000 spawn_ok idle_world
                         async_action)))
  = [mk_gsource 1 10000 St_child_term; mk_gsource 2 15000 St_child_kill].
Proof.
  assert (H1 : spawned spawn_ok async_action).
  { split; [reflexivity |]. split; [reflexivity |].
    eexists _, _. split; [reflexivity |]. split; reflexivity. }
  assert (H2 : w_sources idle_world = []) by reflexivity.
  assert (H3 : 0 < w_next_source idle_world) by reflexivity.
  assert (H4 : 0 < remaining_timeout async_action) by reflexivity.
  assert (H5 : 1000 * (remaining_timeout async_action + 5) <= INT_MAX)
    by (vm_compute; discriminate).
  pose proof (C7_timeout_escalation 1000 spawn_ok idle_world async_action
                H1 H2 H3 H4 H5) as H.
  destruct (internal_stonith_action_execute 1000 spawn_ok idle_world async_action)
    as [[w1 a1] r] eqn:Hexec.
  destruct H as (_ & Hsrc & _).
  assert (Hids : timer_sigterm a1 = 1 /\ timer_sigkill a1 = 2)
    by (vm_compute in Hexec; injection Hexec as _ <- _; split; reflexivity).
  destruct Hids as [Ht Hk]. rewrite Ht, Hk in Hsrc.
  repeat (split; [assumption |]). exact Hsrc.
Defined.

Lemma C10_add_callback_witness :
  refs_fresh session_world session_with_callbacks /\
  (30 + 60) * 1000 <= INT_MAX /\
  exists w' st' blob ref,
    stonith_api_add_callback session_world session_with_callbacks 0 30 0 77
                             (Some "default"%string) (Some 9%nat)
      = Some (w', st', 1, []) /\
    op_callback (st_private st') = Some 9%nat /\
    stonith_op_callback_table (st_private st') !! 0 = Some blob /\
    timer blob = Some (mk_timer_rec 0 90000 ref).
Proof.
  assert (H1 : refs_fresh session_world session_with_callbacks).
  { intros k b t Hl Ht. cbn in Hl.
    apply lookup_singleton_Some in Hl as [_ <-]. discriminate Ht. }
  assert (H2 : (30 + 60) * 1000 <= INT_MAX) by (vm_compute; discriminate).
  split; [exact H1 |]. split; [exact H2 |].
  destruct (C10_add_callback session_world session_with_callbacks 30 0 77
              (Some "default"%string) (Some 9%nat) H1 H2)
    as ((w' & st' & blob & Hcall & Hop & Hlook & _ & _ & _ & Htimer) & _ & _).
  change (0 <? 30) with true in Htimer. destruct Htimer as (ref & Htimer & _).
  exists w', st', blob, ref. repeat (split; [assumption |]). exact Htimer.
Defined.

(* ===================================================================== *)
(** * Operation keys *)
(* ===================================================================== *)

Lemma length_append (a b : string) :
  String.length (a ++ b) = (String.length a + String.length b)%nat.
Proof. induction a; [reflexivity|]. rewrite append_cons. cbn. rewrite IHa. reflexivity. Qed.

Lemma char_at_append_r (a b : string) (k : nat) :
  char_at (a ++ b) (String.length a + k) = char_at b k.
Proof.
  unfold char_at. induction a; [reflexivity|].
  rewrite append_cons. cbn. exact IHa.
Qed.

Lemma char_at_append_l (a b : string) (k : nat) :
  (k < String.length a)%nat -> char_at (a ++ b) k = char_at a k.
Proof.
  unfold char_at. revert k. induction a; intros k Hk; [cbn in Hk; lia|].
  rewrite append_cons. destruct k; [reflexivity|]. cbn. apply IHa. cbn in Hk. lia.
Qed.

Lemma substring_append_l (a b : string) :
  String.substring 0 (String.length a) (a ++ b) = a.
Proof.
  induction a; [destruct b; reflexivity|].
  rewrite append_cons. cbn. rewrite IHa. reflexivity.
Qed.

Lemma substring_append_r (a b : string) (m : nat) :
  String.substring (String.length a) m (a ++ b) = String.substring 0 m b.
Proof. induction a; [reflexivity|]. rewrite append_cons. cbn. exact IHa. Qed.

Lemma substring_all (a : string) : String.substring 0 (String.length a) a = a.
Proof. induction a; [reflexivity|]. cbn. rewrite IHa. reflexivity. Qed.

Lemma string_of_uint_revapp (r acc : Decimal.uint) :
  NilEmpty.string_of_uint (Decimal.revapp r acc)
  = (NilEmpty.string_of_uint (Decimal.rev r) ++ NilEmpty.string_of_uint acc)%string.
Proof.
  revert acc. unfold Decimal.rev.
  induction r; intros acc; [reflexivity | ..]; cbn [Decimal.revapp];
    rewrite IHr, (IHr (_ Decimal.Nil)), append_assoc; reflexivity.
Qed.

Lemma length_string_of_uint (d : Decimal.uint) :
  String.length (NilEmpty.string_of_uint d) = Decimal.nb_digits d.
Proof. induction d; cbn; congruence. Qed.

Lemma usize_nb_digits (d : Decimal.uint) :
  DecimalPos.Unsigned.usize d = N.of_nat (Decimal.nb_digits d).
Proof.
  induction d; [reflexivity | ..]; cbn [DecimalPos.Unsigned.usize Decimal.nb_digits];
    rewrite IHd; lia.
Qed.

Lemma times10_small (k : nat) (ch : Z) :
  0 <= ch -> ch * 10 ^ Z.of_nat k < 18446744073709551616 ->
  times10 k ch = ch * 10 ^ Z.of_nat k.
Proof.
  revert ch. induction k; intros ch H0 Hlt.
  - cbn. lia.
  - cbn [times10]. rewrite Nat2Z.inj_succ, Z.pow_succ_r in * by lia.
    assert (0 < 10 ^ Z.of_nat k) by (apply Z.pow_pos_nonneg; lia).
    rewrite Z.mod_small by nia.
    rewrite IHk by nia. lia.
Qed.

Lemma char_at_digit (pre : string) (sep : ascii) (r : Decimal.uint) (y : string) :
  char_at (pre ++ String sep (NilEmpty.string_of_uint (Decimal.rev r) ++ y))
          (S (String.length pre + Decimal.nb_digits r))
  = char_at y 0.
Proof.
  rewrite <- Nat.add_succ_r, char_at_append_r.
  change (char_at (String sep ?s) (S ?k)) with (char_at s k).
  rewrite <- (DecimalFacts.nb_digits_rev r), <- length_string_of_uint.
  rewrite <- (Nat.add_0_r (String.length _)) at 1.
  apply char_at_append_r.
Qed.

Lemma of_lu_snoc (acc d : Decimal.uint) :
  Z.of_N (DecimalPos.Unsigned.of_lu (Decimal.revapp acc d))
  = Z.of_N (DecimalPos.Unsigned.of_lu (Decimal.rev acc))
    + Z.of_N (DecimalPos.Unsigned.of_lu d) * 10 ^ Z.of_nat (Decimal.nb_digits acc).
Proof.
  rewrite DecimalPos.Unsigned.of_lu_revapp, usize_nb_digits.
  rewrite N2Z.inj_add, N2Z.inj_mul, N2Z.inj_pow, nat_N_Z. reflexivity.
Qed.

Ltac scan_digit IHr acc r Hlt D c :=
  let Hc := fresh "Hc" in let Hl := fresh "Hl" in
  let Htot := fresh "Htot" in let Hstep := fresh "Hstep" in
  let Hp := fresh "Hp" in let Hv := fresh "Hv" in let Hq := fresh "Hq" in
  cbn [Decimal.nb_digits Decimal.revapp] in *;
  rewrite Nat.add_succ_r; cbn [scan_interval];
  match goal with |- context [char_at ?key (S ?o)] =>
    assert (Hc : char_at key (S o) = c)
      by (rewrite string_of_uint_revapp; apply char_at_digit);
    assert (Hl : (String.length key - S o - 1)%nat = Decimal.nb_digits acc)
      by (rewrite string_of_uint_revapp, length_append; cbn [String.length];
          rewrite length_append, !length_string_of_uint, DecimalFacts.nb_digits_rev;
          cbn [Decimal.nb_digits]; lia)
  end;
  rewrite Hc, Hl;
  change (isdigit c) with true; cbv iota;
  let v := eval vm_compute in (Z.of_nat (nat_of_ascii c) - 48) in
  change (Z.of_nat (nat_of_ascii c) - 48) with v;
  pose proof (of_lu_snoc acc (D r)) as Htot;
  pose proof (of_lu_snoc acc (D Decimal.Nil)) as Hstep;
  change (Decimal.revapp acc (D Decimal.Nil)) with (Decimal.rev (D acc)) in Hstep;
  cbn [DecimalPos.Unsigned.of_lu] in Htot, Hstep;
  rewrite ?N2Z.inj_add, ?N2Z.inj_mul in Htot, Hstep;
  change (Z.of_N 0) with 0 in Hstep;
  assert (Hp : 0 < 10 ^ Z.of_nat (Decimal.nb_digits acc))
    by (apply Z.pow_pos_nonneg; lia);
  pose proof (N2Z.is_nonneg (DecimalPos.Unsigned.of_lu (Decimal.rev acc))) as Hv;
  pose proof (N2Z.is_nonneg (DecimalPos.Unsigned.of_lu r)) as Hq;
  rewrite times10_small by nia;
  unfold to_guint; rewrite Z.mod_small by nia;
  match goal with |- scan_interval _ _ _ ?x = _ =>
    replace x with (Z.of_N (DecimalPos.Unsigned.of_lu (Decimal.rev (D acc)))) by lia
  end;
  exact (IHr (D acc) Hlt).

Lemma scan_interval_digits (pre : string) (sep : ascii) (r acc : Decimal.uint) :
  isdigit sep = false ->
  Z.of_N (DecimalPos.Unsigned.of_lu (Decimal.revapp acc r)) < 4294967296 ->
  scan_interval
    (pre ++ String sep (NilEmpty.string_of_uint (Decimal.revapp r acc)))
    (String.length (pre ++ String sep (NilEmpty.string_of_uint (Decimal.revapp r acc))))
    (String.length pre + Decimal.nb_digits r)
    (Z.of_N (DecimalPos.Unsigned.of_lu (Decimal.rev acc)))
  = (String.length pre, Z.of_N (DecimalPos.Unsigned.of_lu (Decimal.revapp acc r))).
Proof.
  intros Hsep. revert acc.
  induction r; intros acc Hlt.
  - cbn [Decimal.nb_digits Decimal.revapp]. rewrite Nat.add_0_r.
    change (Decimal.revapp acc Decimal.Nil) with (Decimal.rev acc).
    destruct (String.length pre) eqn:E; [reflexivity|].
    cbn [scan_interval]. rewrite <- E.
    rewrite <- (Nat.add_0_r (String.length pre)) at 1 2.
    rewrite char_at_append_r.
    change (char_at (String sep ?s) 0) with sep. rewrite Hsep.
    rewrite Nat.add_0_r. reflexivity.
  - scan_digit IHr acc r Hlt Decimal.D0 "0"%char.
  - scan_digit IHr acc r Hlt Decimal.D1 "1"%char.
  - scan_digit IHr acc r Hlt Decimal.D2 "2"%char.
  - scan_digit IHr acc r Hlt Decimal.D3 "3"%char.
  - scan_digit IHr acc r Hlt Decimal.D4 "4"%char.
  - scan_digit IHr acc r Hlt Decimal.D5 "5"%char.
  - scan_digit IHr acc r Hlt Decimal.D6 "6"%char.
  - scan_digit IHr acc r Hlt Decimal.D7 "7"%char.
  - scan_digit IHr acc r Hlt Decimal.D8 "8"%char.
  - scan_digit IHr acc r Hlt Decimal.D9 "9"%char.
Qed.

Lemma scan_interval_print_uint (pre : string) (sep : ascii) (n : N) :
  isdigit sep = false -> (n < 4294967296)%N ->
  scan_interval (pre ++ String sep (print_uint n))
    (String.length (pre ++ String sep (print_uint n)))
    (String.length (pre ++ String sep (print_uint n)) - 1) 0
  = (String.length pre, Z.of_N n).
Proof.
  intros Hsep Hn. unfold print_uint.
  pose proof (DecimalN.Unsigned.of_to n) as Hof.
  unfold N.of_uint in Hof. rewrite DecimalPos.Unsigned.of_uint_alt in Hof.
  set (d := N.to_uint n) in *.
  pose proof (scan_interval_digits pre sep (Decimal.rev d) Decimal.Nil Hsep) as H.
  change (Decimal.revapp (Decimal.rev d) Decimal.Nil)
    with (Decimal.rev (Decimal.rev d)) in H.
  rewrite DecimalFacts.rev_rev in H.
  change (Decimal.revapp Decimal.Nil (Decimal.rev d)) with (Decimal.rev d) in H.
  rewrite Hof in H.
  replace (String.length _ - 1)%nat
    with (String.length pre + Decimal.nb_digits (Decimal.rev d))%nat.
  - apply H. lia.
  - rewrite length_append. cbn [String.length].
    rewrite length_string_of_uint, DecimalFacts.nb_digits_rev. lia.
Qed.

Lemma has_char_char_at (p : ascii -> bool) (s : string) (k : nat) :
  has_char p s = false -> (k < String.length s)%nat -> p (char_at s k) = false.
Proof.
  revert k. induction s as [|c s IH]; intros k Hs Hk; [cbn in Hk; lia|].
  cbn in Hs. apply orb_false_iff in Hs as [Hc Hs].
  destruct k; [exact Hc|]. apply IH; [exact Hs | cbn in Hk; lia].
Qed.

Lemma scan_underscore_op (rsc op rest : string) (k : nat) :
  has_char is_underscore op = false -> (k <= String.length op)%nat ->
  scan_underscore (rsc ++ String "_" (op ++ rest)) (String.length rsc + k)
  = String.length rsc.
Proof.
  intros Hop. induction k; intros Hk.
  - rewrite Nat.add_0_r. destruct (String.length rsc) eqn:E; [reflexivity|].
    cbn [scan_underscore]. rewrite <- E.
    rewrite <- (Nat.add_0_r (String.length rsc)) at 1.
    rewrite char_at_append_r. reflexivity.
  - rewrite Nat.add_succ_r. cbn [scan_underscore].
    rewrite <- Nat.add_succ_r, char_at_append_r.
    change (char_at (String ?c ?s) (S ?j)) with (char_at s j).
    rewrite char_at_append_l by lia.
    rewrite (has_char_char_at _ _ _ Hop) by lia.
    cbn [negb]. apply IHk. lia.
Qed.

Lemma strstr_split_none (haystack needle : string) :
  strstr haystack needle = false -> strstr_split haystack needle = None.
Proof.
  induction haystack as [|c h IH]; cbn [strstr strstr_split].
  - destruct (String.prefix needle EmptyString); [discriminate | reflexivity].
  - destruct (String.prefix needle (String c h)); [discriminate|].
    intros H. rewrite (IH H). reflexivity.
Qed.

Ltac prefix_walk s :=
  let c := fresh "c" in
  destruct s as [|c s];
  [ try reflexivity; try congruence
  | rewrite ?append_cons; cbn [String.prefix];
    match goal with
    | |- (if ?d then _ else _) = _ => destruct d; [| reflexivity]
    | |- _ => reflexivity
    end ].

Lemma prefix_post_post (s : string) :
  s <> EmptyString ->
  String.prefix "_post_notify" (s ++ "_post_notify") = String.prefix "_post_notify" s.
Proof. intros Hs. do 13 (try prefix_walk s). Qed.

Lemma prefix_pre_pre (s : string) :
  s <> EmptyString ->
  String.prefix "_pre_notify" (s ++ "_pre_notify") = String.prefix "_pre_notify" s.
Proof. intros Hs. do 12 (try prefix_walk s). Qed.

Lemma prefix_post_pre (s : string) :
  String.prefix "_post_notify" (s ++ "_pre_notify") = String.prefix "_post_notify" s.
Proof. do 13 (try prefix_walk s). Qed.

Lemma strstr_split_suffix (needle rsc : string) :
  (forall s, s <> EmptyString ->
             String.prefix needle (s ++ needle) = String.prefix needle s) ->
  String.prefix needle needle = true ->
  strstr rsc needle = false ->
  strstr_split (rsc ++ needle) needle = Some (rsc, needle).
Proof.
  intros Hborder Hrefl. induction rsc as [|c h IH]; intros Hno.
  - rewrite append_nil_l. destruct needle; cbn [strstr_split]; rewrite Hrefl; reflexivity.
  - cbn [strstr] in Hno.
    destruct (String.prefix needle (String c h)) eqn:Ep; [discriminate|].
    rewrite append_cons. cbn [strstr_split]. rewrite <- append_cons.
    rewrite Hborder by discriminate. rewrite Ep.
    rewrite (IH Hno). reflexivity.
Qed.

Lemma strstr_post_in_pre (rsc : string) :
  strstr rsc "_post_notify" = false ->
  strstr (rsc ++ "_pre_notify") "_post_notify" = false.
Proof.
  induction rsc as [|c h IH]; intros Hno; [reflexivity|].
  cbn [strstr] in Hno.
  destruct (String.prefix "_post_notify" (String c h)) eqn:Ep; [discriminate|].
  rewrite append_cons. cbn [strstr]. rewrite <- append_cons.
  rewrite prefix_post_pre, Ep. apply IH, Hno.
Qed.

Section OperationKeyProperties.

Variable safe_str_eq : option string -> option string -> bool.

Lemma cut_notify_absent (needle s : string) :
  strstr s needle = false -> cut_notify safe_str_eq needle s = s.
Proof. intros H. unfold cut_notify. rewrite (strstr_split_none _ _ H). reflexivity. Qed.

(** A key [<front>_<op>_<interval>] whose [op] has no underscore is split
    at its last two underscores. *)
Lemma parse_op_key_split (front op : string) (n : N) :
  has_char is_underscore op = false -> (n < 4294967296)%N ->
  parse_op_key safe_str_eq (Some (front ++ "_" ++ op ++ "_" ++ print_uint n)%string)
  = Some (true,
          mk_op_key_parts
            (Some (cut_notify safe_str_eq "_pre_notify"
                     (cut_notify safe_str_eq "_post_notify" front)))
            (Some op) (Z.of_N n)).
Proof.
  intros Hop Hn.
  set (pre := (front ++ "_" ++ op)%string).
  replace (front ++ "_" ++ op ++ "_" ++ print_uint n)%string
    with (pre ++ String "_" (print_uint n))%string
    by (subst pre; rewrite !append_assoc; reflexivity).
  unfold parse_op_key.
  destruct (pre ++ String "_" (print_uint n))%string as [|c0 key0] eqn:Ek.
  { apply (f_equal String.length) in Ek. rewrite length_append in Ek.
    cbn in Ek. lia. }
  rewrite <- Ek. clear c0 key0 Ek.
  rewrite (scan_interval_print_uint pre "_" n eq_refl Hn).
  assert (Hlen : String.length (pre ++ String "_" (print_uint n))
                 = (String.length pre + S (Decimal.nb_digits (N.to_uint n)))%nat).
  { rewrite length_append. cbn [String.length]. unfold print_uint.
    rewrite length_string_of_uint. reflexivity. }
  assert (Hpre : String.length pre = S (String.length front + String.length op)).
  { subst pre. rewrite length_append. change ("_" ++ op)%string with (String "_" op).
    cbn [String.length]. lia. }
  assert (Hdig : (0 < Decimal.nb_digits (N.to_uint n))%nat).
  { destruct n as [|p]; [cbn; lia|].
    pose proof (DecimalN.Unsigned.of_to (N.pos p)) as Hof.
    destruct (N.to_uint (N.pos p)); [discriminate Hof | cbn; lia ..]. }
  assert (Hc1 : char_at (pre ++ String "_" (print_uint n)) (String.length pre)
                = "_"%char).
  { rewrite <- (Nat.add_0_r (String.length pre)), char_at_append_r. reflexivity. }
  assert (Hscan : scan_underscore (pre ++ String "_" (print_uint n))
                    (String.length front + String.length op)
                  = String.length front).
  { subst pre. rewrite append_assoc.
    change ("_" ++ op)%string with (String "_" op). rewrite append_cons.
    apply scan_underscore_op; [exact Hop | lia]. }
  assert (Hc2 : char_at (pre ++ String "_" (print_uint n)) (String.length front)
                = "_"%char).
  { subst pre. rewrite append_assoc.
    rewrite <- (Nat.add_0_r (String.length front)), char_at_append_r. reflexivity. }
  rewrite Hc1, substring_append_l.
  replace (String.length pre =? _)%nat with false
    by (symmetry; apply Nat.eqb_neq; lia).
  cbn [negb andb is_underscore Ascii.eqb Bool.eqb].
  rewrite Hpre, Hscan, Hc2.
  cbn [is_underscore Ascii.eqb Bool.eqb].
  subst pre.
  rewrite substring_append_l.
  rewrite Nat.add_1_r.
  change ("_" ++ op)%string with (String "_" op).
  replace (S (String.length front)) with (String.length (front ++ "_"))
    by (rewrite length_append, Nat.add_1_r; reflexivity).
  replace (front ++ String "_" op)%string with ((front ++ "_") ++ op)%string
    by (rewrite append_assoc; reflexivity).
  rewrite substring_append_r.
  replace (_ - _)%nat with (String.length op)
    by (rewrite length_append; cbn [String.length]; lia).
  rewrite substring_all. reflexivity.
Qed.


(** X1.  For a resource id that contains neither [_post_notify] nor
    [_pre_notify], an operation name without an underscore and an interval
    that a [guint] holds, [parse_op_key] applied to the key that
    [generate_op_key] builds returns [TRUE] and gives back exactly the
    resource id, the operation name and the interval. *)
Theorem op_key_round_trip (rsc_id op_type : string) (interval_ms : N) :
  has_char is_underscore op_type = false ->
  strstr rsc_id "_post_notify" = false ->
  strstr rsc_id "_pre_notify" = false ->
  (interval_ms < 4294967296)%N ->
  parse_op_key safe_str_eq (Some (generate_op_key rsc_id op_type interval_ms))
  = Some (true, mk_op_key_parts (Some rsc_id) (Some op_type) (Z.of_N interval_ms)).
Proof.
  intros Hop Hpost Hpre Hn. unfold generate_op_key.
  rewrite parse_op_key_split by assumption.
  rewrite (cut_notify_absent _ _ Hpost), (cut_notify_absent _ _ Hpre).
  reflexivity.
Qed.

(** X2.  An operation name that contains an underscore does not
    survive the round trip: the key [generate_op_key] builds for the
    operation [a_b] ([b] without underscore) is parsed as the operation [b]
    on the resource [rsc_a] (here for a [rsc_a] that contains no notify
    suffix). *)
Theorem op_key_underscore_in_op (rsc_id a b : string) (interval_ms : N) :
  has_char is_underscore b = false ->
  strstr (rsc_id ++ "_" ++ a) "_post_notify" = false ->
  strstr (rsc_id ++ "_" ++ a) "_pre_notify" = false ->
  (interval_ms < 4294967296)%N ->
  parse_op_key safe_str_eq
    (Some (generate_op_key rsc_id (a ++ "_" ++ b) interval_ms))
  = Some (true, mk_op_key_parts (Some (rsc_id ++ "_" ++ a)%string) (Some b)
                  (Z.of_N interval_ms)).
Proof.
  intros Hop Hpost Hpre Hn. unfold generate_op_key.
  replace (rsc_id ++ "_" ++ (a ++ "_" ++ b) ++ "_" ++ print_uint interval_ms)%string
    with ((rsc_id ++ "_" ++ a) ++ "_" ++ b ++ "_" ++ print_uint interval_ms)%string
    by (rewrite !append_assoc; reflexivity).
  rewrite parse_op_key_split by assumption.
  rewrite (cut_notify_absent _ _ Hpost), (cut_notify_absent _ _ Hpre).
  reflexivity.
Qed.

(** X3.  With a [safe_str_eq] that accepts each of the two notify
    suffixes as equal to itself: the key [generate_notify_key] builds for
    the notify type [post] or [pre] is parsed by [parse_op_key] as interval 0,
    the operation name given and the bare resource id; the
    [_post_notify] or [_pre_notify] part is cut off the resource id. *)
Theorem notify_key_parse (rsc_id op_type : string) (post : bool) :
  safe_str_eq (Some "_post_notify"%string) (Some "_post_notify"%string) = true ->
  safe_str_eq (Some "_pre_notify"%string) (Some "_pre_notify"%string) = true ->
  has_char is_underscore op_type = false ->
  strstr rsc_id "_post_notify" = false ->
  strstr rsc_id "_pre_notify" = false ->
  parse_op_key safe_str_eq
    (Some (generate_notify_key rsc_id (if post then "post" else "pre") op_type))
  = Some (true, mk_op_key_parts (Some rsc_id) (Some op_type) 0).
Proof.
  intros Heq_post Heq_pre Hop Hpost Hpre. unfold generate_notify_key.
  destruct post.
  - replace (rsc_id ++ "_" ++ "post" ++ "_notify_" ++ op_type ++ "_0")%string
      with ((rsc_id ++ "_post_notify") ++ "_" ++ op_type ++ "_" ++ print_uint 0)%string
      by (rewrite !append_assoc; reflexivity).
    rewrite parse_op_key_split by (try assumption; reflexivity).
    unfold cut_notify at 2.
    rewrite (strstr_split_suffix "_post_notify" rsc_id prefix_post_post eq_refl Hpost).
    rewrite Heq_post, (cut_notify_absent _ _ Hpre). reflexivity.
  - replace (rsc_id ++ "_" ++ "pre" ++ "_notify_" ++ op_type ++ "_0")%string
      with ((rsc_id ++ "_pre_notify") ++ "_" ++ op_type ++ "_" ++ print_uint 0)%string
      by (rewrite !append_assoc; reflexivity).
    rewrite parse_op_key_split by (try assumption; reflexivity).
    rewrite (cut_notify_absent "_post_notify" _ (strstr_post_in_pre _ Hpost)).
    unfold cut_notify.
    rewrite (strstr_split_suffix "_pre_notify" rsc_id prefix_pre_pre eq_refl Hpre).
    rewrite Heq_pre. reflexivity.
Qed.

(** X4.  [parse_op_key] returns [FALSE], with both strings [NULL] and
    interval 0, for a [NULL] key, for an empty key and for every key whose
    last character is not a digit. *)
Theorem parse_op_key_no_interval (s : string) (c : ascii) :
  isdigit c = false ->
  parse_op_key safe_str_eq None = Some (false, mk_op_key_parts None None 0) /\
  parse_op_key safe_str_eq (Some EmptyString)
  = Some (false, mk_op_key_parts None None 0) /\
  parse_op_key safe_str_eq (Some (s ++ String c EmptyString)%string)
  = Some (false, mk_op_key_parts None None 0).
Proof.
  intros Hc. split; [reflexivity|]. split; [reflexivity|].
  unfold parse_op_key.
  destruct (s ++ String c EmptyString)%string as [|c0 key0] eqn:Ek.
  { apply (f_equal String.length) in Ek. rewrite length_append in Ek. cbn in Ek. lia. }
  rewrite <- Ek. clear c0 key0 Ek.
  replace (String.length (s ++ String c EmptyString) - 1)%nat with (String.length s)
    by (rewrite length_append; cbn; lia).
  assert (Hs : scan_interval (s ++ String c EmptyString) (String.length (s ++ String c EmptyString))
                 (String.length s) 0 = (String.length s, 0)).
  { destruct (String.length s) eqn:E; [reflexivity|].
    cbn [scan_interval]. rewrite <- E.
    rewrite <- (Nat.add_0_r (String.length s)) at 1.
    rewrite char_at_append_r. change (char_at (String c EmptyString) 0) with c.
    rewrite Hc. reflexivity. }
  rewrite Hs, Nat.eqb_refl. reflexivity.
Qed.

(** X5.  A key that consists of one underscore followed by a number
    passes the check of the interval with offset 0; the decrement of the
    offset then wraps around and the next test reads the key far outside
    its bounds: such a run has no defined result. *)
Theorem parse_op_key_bare_interval (interval_ms : N) :
  (interval_ms < 4294967296)%N ->
  parse_op_key safe_str_eq (Some ("_" ++ print_uint interval_ms)%string) = None.
Proof.
  intros Hn.
  change ("_" ++ print_uint interval_ms)%string
    with (EmptyString ++ String "_" (print_uint interval_ms))%string.
  unfold parse_op_key.
  destruct (EmptyString ++ String "_" (print_uint interval_ms))%string as [|c0 key0] eqn:Ek;
    [discriminate Ek|].
  rewrite <- Ek. clear c0 key0 Ek.
  rewrite (scan_interval_print_uint EmptyString "_" interval_ms eq_refl Hn).
  rewrite append_nil_l. cbn [String.length].
  assert (Hdig : (0 < String.length (print_uint interval_ms))%nat).
  { unfold print_uint. rewrite length_string_of_uint.
    destruct interval_ms as [|p]; [cbn; lia|].
    pose proof (DecimalN.Unsigned.of_to (N.pos p)) as Hof.
    destruct (N.to_uint (N.pos p)); [discriminate Hof | cbn; lia ..]. }
  replace (0 =? _)%nat with false by (symmetry; apply Nat.eqb_neq; lia).
  reflexivity.
Qed.

(** X6.  When the digits at the end of a key are preceded by a
    character that is neither a digit nor an underscore, [parse_op_key]
    returns [FALSE] and leaves both strings [NULL], but it has already
    stored the number read in the interval output. *)
Theorem parse_op_key_interval_on_failure (front : string) (c : ascii) (n : N) :
  isdigit c = false -> is_underscore c = false -> (n < 4294967296)%N ->
  parse_op_key safe_str_eq (Some (front ++ String c (print_uint n))%string)
  = Some (false, mk_op_key_parts None None (Z.of_N n)).
Proof.
  intros Hd Hu Hn. unfold parse_op_key.
  destruct (front ++ String c (print_uint n))%string as [|c0 key0] eqn:Ek.
  { apply (f_equal String.length) in Ek. rewrite length_append in Ek. cbn in Ek. lia. }
  rewrite <- Ek. clear c0 key0 Ek.
  rewrite (scan_interval_print_uint front c n Hd Hn).
  rewrite <- (Nat.add_0_r (String.length front)) at 2.
  rewrite char_at_append_r. change (char_at (String c ?x) 0) with c.
  rewrite Hu, andb_false_r. reflexivity.
Qed.

End OperationKeyProperties.

(* ===================================================================== *)
(** * Agent namespaces *)
(* ===================================================================== *)

(** X7.  The name [stonith_namespace2text] gives for a namespace is
    read back by [stonith_text2namespace] as that namespace (the invalid
    one included, through [unsupported]); and a string that
    [stonith_text2namespace] maps to a valid namespace is the name of that
    namespace, the only exception being the alias [redhat]. *)
Theorem namespace_text_round_trip (namespace : stonith_namespace) :
  stonith_text2namespace (Some (stonith_namespace2text namespace)) = namespace /\
  (forall s,
      stonith_text2namespace (Some s) = namespace ->
      namespace <> st_namespace_invalid ->
      s <> "redhat"%string ->
      stonith_namespace2text namespace = s).
Proof.
  split; [destruct namespace; reflexivity|].
  intros s Hs Hvalid Hred. unfold stonith_text2namespace in Hs.
  repeat match type of Hs with
         | context [strcmp s ?lit =? 0] =>
             let E := fresh "E" in
             destruct (strcmp s lit =? 0) eqn:E;
             [apply Z.eqb_eq, strcmp_eq in E | clear E]
         end;
    cbn in Hs; subst; try reflexivity; try congruence.
Qed.

(* ===================================================================== *)
(** * Key/value lists and fencing levels *)
(* ===================================================================== *)

(** X8.  [stonith_key_value_add] keeps the entries of the list in
    their order and links the new entry behind the last one; on a [NULL]
    list the new entry is the list. *)
Theorem key_value_add_appends (head : list stonith_key_value_t)
    (key value : option string) :
  stonith_key_value_add head key value = head ++ [mk_key_value key value].
Proof.
  unfold stonith_key_value_add.
  induction head as [|node next IH]; [reflexivity|].
  cbn [link_at_end]. destruct next; [reflexivity|]. rewrite IH. reflexivity.
Qed.

Lemma bytes_of_app (a b : string) : bytes_of (a ++ b) = bytes_of a ++ bytes_of b.
Proof.
  induction a as [|c a IH]; [reflexivity|].
  rewrite append_cons. cbn [bytes_of]. rewrite IH. reflexivity.
Qed.

Lemma bytes_of_length (a : string) : length (bytes_of a) = String.length a.
Proof. induction a as [|c a IH]; [reflexivity|]. cbn. rewrite IH. reflexivity. Qed.

Lemma c_string_bytes (a : string) (rest : list (option ascii)) :
  c_string (bytes_of a ++ None :: rest) = a.
Proof. induction a as [|c a IH]; [reflexivity|]. cbn. rewrite IH. reflexivity. Qed.

(** The devices after the first, each behind its comma. *)
Definition comma_tail (vs : list string) : string :=
  String.concat EmptyString (map (String.append ",") vs).

Lemma append_nil_r (a : string) : (a ++ EmptyString)%string = a.
Proof. induction a; [reflexivity|]. rewrite append_cons. congruence. Qed.

Lemma comma_tail_cons (v : string) (vs : list string) :
  comma_tail (v :: vs) = ("," ++ v ++ comma_tail vs)%string.
Proof.
  unfold comma_tail. cbn [map]. destruct vs as [|v' vs].
  - cbn [map String.concat]. rewrite append_nil_r. reflexivity.
  - cbn [map String.concat]. rewrite append_nil_l, append_assoc. reflexivity.
Qed.

Lemma concat_comma (v : string) (vs : list string) :
  String.concat "," (v :: vs) = (v ++ comma_tail vs)%string.
Proof.
  revert v. induction vs as [|v' vs IH]; intros v.
  - cbn. rewrite append_nil_r. reflexivity.
  - change (String.concat "," (v :: v' :: vs))
      with (v ++ "," ++ String.concat "," (v' :: vs))%string.
    rewrite IH, comma_tail_cons. reflexivity.
Qed.

Lemma device_loop_joined (device_list : list stonith_key_value_t)
    (vs : list string) (joined : string) :
  map kv_value device_list = map Some vs ->
  joined <> EmptyString ->
  device_loop device_list (Some (bytes_of joined ++ [None])) (String.length joined)
  = Some (Some (bytes_of (joined ++ comma_tail vs) ++ [None])).
Proof.
  revert vs joined. induction device_list as [|d ds IH]; intros vs joined Hmap Hne.
  - destruct vs; [|discriminate]. cbn. rewrite append_nil_r. reflexivity.
  - destruct vs as [|v vs]; [discriminate|]. cbn [map] in Hmap.
    injection Hmap as Hd Hds.
    cbn [device_loop]. rewrite Hd.
    replace (String.length joined =? 0)%nat with false
      by (symmetry; apply Nat.eqb_neq; destruct joined; [congruence | cbn; lia]).
    unfold sprintf_at.
    rewrite <- (bytes_of_length joined), take_app_length.
    rewrite comma_tail_cons.
    replace (bytes_of joined ++ bytes_of "," ++ bytes_of v ++ [None])
      with (bytes_of (joined ++ "," ++ v) ++ [None])
      by (rewrite !bytes_of_app, <- !app_assoc; reflexivity).
    replace (length (bytes_of joined) + _)%nat
      with (String.length (joined ++ "," ++ v))
      by (rewrite !length_append, bytes_of_length; cbn; lia).
    rewrite (IH vs (joined ++ "," ++ v)%string Hds).
    + rewrite !append_assoc. reflexivity.
    + destruct joined; [congruence | discriminate].
Qed.

(** X9.  When a target is given, every device has a value and the
    first value is not empty, [create_level_registration_xml] returns a
    request whose id and index are the level and whose devices attribute is
    the values in list order, joined by commas. *)
Theorem level_devices_joined (node pattern attr value : option string)
    (level : Z) (device_list : list stonith_key_value_t)
    (v : string) (vs : list string) :
  is_Some node \/ is_Some pattern \/ (is_Some attr /\ is_Some value) ->
  map kv_value device_list = map Some (v :: vs) ->
  v <> EmptyString ->
  exists data,
    create_level_registration_xml node pattern attr value level device_list
    = Some (Some data) /\
    lr_id data = level /\ lr_index data = level /\
    lr_devices data = Some (String.concat "," (v :: vs)).
Proof.
  intros Htarget Hmap Hne.
  unfold create_level_registration_xml.
  assert (Hcheck : bool_decide (is_Some node) || bool_decide (is_Some pattern)
                   || (bool_decide (is_Some attr) && bool_decide (is_Some value))
                   = true).
  { destruct Htarget as [H | [H | [H1 H2]]].
    - rewrite (bool_decide_eq_true_2 _ H). reflexivity.
    - rewrite (bool_decide_eq_true_2 _ H), orb_true_r. reflexivity.
    - rewrite (bool_decide_eq_true_2 _ H1), (bool_decide_eq_true_2 _ H2).
      apply orb_true_r. }
  rewrite Hcheck. cbn [negb].
  destruct device_list as [|d ds]; [discriminate|].
  cbn [map] in Hmap. injection Hmap as Hd Hds.
  cbn [device_loop]. rewrite Hd. cbn [bool_decide].
  assert (Hloop : device_loop ds
            (Some (sprintf_at [] 0 (if (0 =? 0)%nat then EmptyString else ",") v))
            (0 + String.length v)
          = Some (Some (bytes_of (v ++ comma_tail vs) ++ [None]))).
  { apply (device_loop_joined ds vs v Hds Hne). }
  replace (if bool_decide (is_Some None) then S (String.length v) else String.length v)
    with (String.length v) by reflexivity.
  rewrite Hloop.
  destruct node, pattern; eexists; (split; [reflexivity|]);
    cbn [lr_id lr_index lr_devices option_map];
    rewrite c_string_bytes, concat_comma; auto.
Qed.

Lemma device_loop_hidden (device_list : list stonith_key_value_t)
    (vs : list string) (shown : string) (list0 : list (option ascii)) (len : nat) :
  map kv_value device_list = map Some vs ->
  take (S (String.length shown)) list0 = bytes_of shown ++ [None] ->
  (S (String.length shown) <= len)%nat ->
  exists list1,
    device_loop device_list (Some list0) len = Some (Some list1) /\
    c_string list1 = shown.
Proof.
  revert vs list0 len. induction device_list as [|d ds IH];
    intros vs list0 len Hmap Htake Hlen.
  - exists list0. split; [reflexivity|].
    rewrite <- (take_drop (S (String.length shown)) list0), Htake, <- app_assoc.
    apply c_string_bytes.
  - destruct vs as [|v vs]; [discriminate|]. cbn [map] in Hmap.
    injection Hmap as Hd Hds.
    cbn [device_loop]. rewrite Hd.
    eapply IH; [exact Hds | | lia].
    unfold sprintf_at.
    assert (Hl0 : (S (String.length shown) <= length list0)%nat).
    { apply (f_equal length) in Htake.
      rewrite length_take, length_app, bytes_of_length in Htake.
      cbn [length] in Htake. lia. }
    rewrite take_app_le by (rewrite length_take; lia).
    rewrite take_take. rewrite Nat.min_l by lia. exact Htake.
Qed.

(** X10.  When the value of the first device is the empty string,
    the devices attribute of the request is the value of the second device
    alone: the text written for every later device lands behind the
    terminator and is lost. *)
Theorem level_devices_empty_first (node pattern attr value : option string)
    (level : Z) (device_list : list stonith_key_value_t)
    (v : string) (vs : list string) :
  is_Some node \/ is_Some pattern \/ (is_Some attr /\ is_Some value) ->
  map kv_value device_list = map Some (EmptyString :: v :: vs) ->
  exists data,
    create_level_registration_xml node pattern attr value level device_list
    = Some (Some data) /\
    lr_devices data = Some v.
Proof.
  intros Htarget Hmap.
  unfold create_level_registration_xml.
  assert (Hcheck : bool_decide (is_Some node) || bool_decide (is_Some pattern)
                   || (bool_decide (is_Some attr) && bool_decide (is_Some value))
                   = true).
  { destruct Htarget as [H | [H | [H1 H2]]].
    - rewrite (bool_decide_eq_true_2 _ H). reflexivity.
    - rewrite (bool_decide_eq_true_2 _ H), orb_true_r. reflexivity.
    - rewrite (bool_decide_eq_true_2 _ H1), (bool_decide_eq_true_2 _ H2).
      apply orb_true_r. }
  rewrite Hcheck. cbn [negb].
  destruct device_list as [|d1 [|d2 ds]]; try discriminate.
  cbn [map] in Hmap. injection Hmap as Hd1 Hd2 Hds.
  cbn [device_loop]. rewrite Hd1, Hd2.
  destruct (device_loop_hidden ds vs v
              (sprintf_at (sprintf_at [] 0 EmptyString EmptyString) 0 EmptyString v)
              (0 + String.length EmptyString + S (String.length v)) Hds)
    as (list1 & Hloop & Hshown).
  { unfold sprintf_at. cbn [take bytes_of app].
    apply take_ge. rewrite length_app, bytes_of_length. cbn [length]. lia. }
  { cbn. lia. }
  match goal with |- context [device_loop ds ?b ?l] =>
    replace (device_loop ds b l) with (Some (Some list1))
      by (rewrite <- Hloop; reflexivity)
  end.
  destruct node, pattern; eexists; (split; [reflexivity|]);
    cbn [lr_devices option_map]; rewrite Hshown; reflexivity.
Qed.

(* ===================================================================== *)
(** * Callbacks from registration to delivery *)
(* ===================================================================== *)

Lemma remove_fresh_source {F} (w : world F) (s : gsource F) :
  sources_fresh w -> src_id s = w_next_source w ->
  List.filter (fun s' => negb (src_id s' =? src_id s)) (w_sources w ++ [s])
  = w_sources w.
Proof.
  intros Hfresh Hid. rewrite List.filter_app. cbn [List.filter].
  rewrite Z.eqb_refl. cbn [negb]. rewrite app_nil_r.
  unfold sources_fresh in Hfresh.
  induction (w_sources w) as [|s' l IH]; [reflexivity|].
  apply Forall_cons in Hfresh as [Hs' Hl]. cbn [List.filter].
  replace (src_id s' =? src_id s) with false by (symmetry; apply Z.eqb_neq; lia).
  cbn [negb]. rewrite (IH Hl). reflexivity.
Qed.

(** The registration of [stonith_api_add_callback] under a positive call
    id with no entry yet. *)
Lemma add_callback_new_entry (w : world async_fn) (st : stonith_t)
    (call timeout options ud : Z) (name : option string) (cb : fn_ptr) :
  0 < call ->
  stonith_op_callback_table (st_private st) !! call = None ->
  (timeout + 60) * 1000 <= INT_MAX ->
  exists w1 blob,
    stonith_api_add_callback w st call timeout options ud name cb
    = Some (w1, set_private st
                  (set_table (st_private st)
                     (<[call := blob]> (stonith_op_callback_table (st_private st)))),
            1, []) /\
    callback blob = cb /\ user_data blob = ud /\
    only_success blob = has_opt options st_opt_report_only_success /\
    allow_timeout_updates blob = has_opt options st_opt_timeout_updates /\
    (if 0 <? timeout
     then w1 = mk_world (w_now w) (w_next_source w + 1)
                 (w_sources w ++
                  [mk_gsource (w_next_source w) (w_now w + (timeout + 60) * 1000)
                              (Stonith_async_timeout_handler call)])
                 (w_kills w) /\
          timer blob = Some (mk_timer_rec call ((timeout + 60) * 1000)
                                          (w_next_source w))
     else w1 = w /\ timer blob = None).
Proof.
  intros Hcall Hnone Hmax. unfold stonith_api_add_callback.
  replace (call =? 0) with false by (symmetry; apply Z.eqb_neq; lia).
  replace (call <? 0) with false by (symmetry; apply Z.ltb_ge; lia).
  set (blob0 := mk_callback_client cb name ud
                  (has_opt options st_opt_report_only_success)
                  (has_opt options st_opt_timeout_updates) None).
  destruct (0 <? timeout) eqn:Et.
  - apply Z.ltb_lt in Et.
    rewrite (set_callback_timeout_fresh blob0 w call timeout eq_refl Et Hmax).
    unfold g_hash_table_insert. rewrite Hnone.
    eexists _, _. split; [reflexivity|]. cbn. auto 10.
  - unfold g_hash_table_insert. rewrite Hnone.
    eexists _, _. split; [reflexivity|]. cbn. auto 10.
Qed.

(** [stonith_perform_callback] for a call id other than 0. *)
Lemma perform_callback_nonzero (w : world async_fn) (st : stonith_t)
    (msg : option xml_reply) (call0 rc0 : Z) :
  let call := match msg with
              | Some m => match f_callid m with Some v => v | None => call0 end
              | None => call0
              end in
  let rc := match msg with
            | Some m => match f_rc m with Some v => v | None => rc0 end
            | None => rc0
            end in
  call <> 0 ->
  stonith_perform_callback w st msg call0 rc0
  = (match stonith_op_callback_table (st_private st) !! call with
     | Some b => stonith_destroy_op_callback b w
     | None => w
     end,
     set_private st
       (set_table (st_private st) (delete call (stonith_op_callback_table (st_private st)))),
     match stonith_op_callback_table (st_private st) !! call with
     | Some b =>
         match callback b with
         | Some fn =>
             if (rc =? pcmk_ok) || negb (only_success b)
             then [invoke_callback call rc (user_data b) fn] else []
         | None => []
         end
     | None => []
     end ++
     match op_callback (st_private st) with
     | Some g => [invoke_callback call rc 0 g]
     | None => []
     end).
Proof.
  intros call rc Hcall. unfold stonith_perform_callback.
  fold call. fold rc.
  destruct (stonith_op_callback_table (st_private st) !! call) as [b|] eqn:Eb.
  - unfold stonith_api_del_callback.
    replace (call =? 0) with false by (symmetry; apply Z.eqb_neq; exact Hcall).
    unfold g_hash_table_remove. rewrite Eb. cbn.
    destruct st as [s c p]. reflexivity.
  - cbn. rewrite delete_id by exact Eb.
    destruct st as [s c [tk ip tb nl oc]]. reflexivity.
Qed.

(** X11.  Registering a callback under a positive call id that has no
    entry yet and then delivering the reply for that id invokes the callback
    once, with the reply's result and the user data (not at all if it asked
    for successes only and the result is a failure), followed by the default
    callback if one is installed; afterwards the registry and the pending
    timeout sources are as before the registration, and a second delivery of
    the same reply reaches the default callback only. *)
Theorem register_then_deliver (w : world async_fn) (st : stonith_t)
    (call timeout options ud : Z) (name : option string) (fn : nat)
    (r : Z) (body : string) :
  0 < call ->
  stonith_op_callback_table (st_private st) !! call = None ->
  (timeout + 60) * 1000 <= INT_MAX ->
  sources_fresh w -> 0 < w_next_source w ->
  let reply := Some (mk_reply (Some call) (Some r) body) in
  let default :=
    match op_callback (st_private st) with
    | Some g => [invoke_callback call r 0 g]
    | None => []
    end in
  exists w1 st1,
    stonith_api_add_callback w st call timeout options ud name (Some fn)
    = Some (w1, st1, 1, []) /\
    let '(w2, st2, invs) := stonith_perform_callback w1 st1 reply 0 0 in
    invs = (if (r =? pcmk_ok) || negb (has_opt options st_opt_report_only_success)
            then [invoke_callback call r ud fn] else []) ++ default /\
    stonith_op_callback_table (st_private st2)
    = stonith_op_callback_table (st_private st) /\
    w_sources w2 = w_sources w /\
    snd (stonith_perform_callback w2 st2 reply 0 0) = default.
Proof.
  intros Hcall Hnone Hmax Hfresh Hnext reply default. subst reply default.
  destruct (add_callback_new_entry w st call timeout options ud name (Some fn)
              Hcall Hnone Hmax)
    as (w1 & blob & Hadd & Hcb & Hud & Honly & _ & Htimer).
  eexists _, _. split; [exact Hadd|].
  assert (Hne : call <> 0) by lia.
  rewrite (perform_callback_nonzero w1 _ (Some (mk_reply (Some call) (Some r) body))
             0 0 Hne).
  cbn [st_private set_private set_table stonith_op_callback_table op_callback
       f_callid f_rc].
  rewrite lookup_insert_eq, delete_insert_eq, delete_id by exact Hnone.
  rewrite Hcb, Hud, Honly.
  split; [reflexivity|]. split; [reflexivity|].
  split.
  - unfold stonith_destroy_op_callback.
    destruct (0 <? timeout).
    + destruct Htimer as [-> ->]. cbn [tr_ref].
      replace (0 <? w_next_source w) with true by (symmetry; apply Z.ltb_lt; lia).
      unfold g_source_remove. cbn [w_sources].
      apply (remove_fresh_source w (mk_gsource (w_next_source w) _ _) Hfresh eq_refl).
    + destruct Htimer as [-> ->]. reflexivity.
  - rewrite (perform_callback_nonzero _ _ (Some (mk_reply (Some call) (Some r) body))
               0 0 Hne).
    cbn [st_private set_private set_table stonith_op_callback_table op_callback snd
         f_callid f_rc].
    rewrite Hnone. reflexivity.
Qed.

(** X12.  A callback registered with a timeout under a positive call id
    that has no entry yet has a fallback timer pending; when [stonith_async_timeout_handler] runs for it, the callback is
    invoked with [-ETIME] unless it asked for successes only, in which case
    it is never invoked; the default callback is invoked with [-ETIME]; the
    entry and the timer's source are removed, although the handler returns
    [TRUE]. *)
Theorem timeout_reaches_callback (w : world async_fn) (st : stonith_t)
    (call timeout options ud : Z) (name : option string) (fn : nat) :
  0 < call ->
  stonith_op_callback_table (st_private st) !! call = None ->
  0 < timeout -> (timeout + 60) * 1000 <= INT_MAX ->
  sources_fresh w -> 0 < w_next_source w ->
  let default :=
    match op_callback (st_private st) with
    | Some g => [invoke_callback call (- ETIME) 0 g]
    | None => []
    end in
  exists w1 st1 blob t,
    stonith_api_add_callback w st call timeout options ud name (Some fn)
    = Some (w1, st1, 1, []) /\
    stonith_op_callback_table (st_private st1) !! call = Some blob /\
    timer blob = Some t /\
    In (mk_gsource (tr_ref t) (w_now w + (timeout + 60) * 1000)
                   (Stonith_async_timeout_handler (tr_call_id t)))
       (w_sources w1) /\
    let '(w2, st2, invs, again) := stonith_async_timeout_handler w1 st1 t in
    again = true /\
    invs = (if has_opt options st_opt_report_only_success then []
            else [invoke_callback call (- ETIME) ud fn]) ++ default /\
    stonith_op_callback_table (st_private st2)
    = stonith_op_callback_table (st_private st) /\
    w_sources w2 = w_sources w.
Proof.
  intros Hcall Hnone Hpos Hmax Hfresh Hnext default. subst default.
  destruct (add_callback_new_entry w st call timeout options ud name (Some fn)
              Hcall Hnone Hmax)
    as (w1 & blob & Hadd & Hcb & Hud & Honly & _ & Htimer).
  replace (0 <? timeout) with true in Htimer by (symmetry; apply Z.ltb_lt; lia).
  destruct Htimer as [Hw1 Ht].
  eexists _, _, blob, _. split; [exact Hadd|].
  cbn [st_private set_private set_table stonith_op_callback_table].
  split; [apply lookup_insert_eq|]. split; [exact Ht|].
  cbn [tr_ref tr_call_id].
  split; [rewrite Hw1; cbn [w_sources]; apply in_or_app; right; left; reflexivity|].
  unfold stonith_async_timeout_handler. cbn [tr_call_id].
  assert (Hne : call <> 0) by lia.
  rewrite (perform_callback_nonzero w1 _ None call (- ETIME) Hne).
  cbn [st_private set_private set_table stonith_op_callback_table op_callback].
  rewrite lookup_insert_eq, delete_insert_eq, delete_id by exact Hnone.
  rewrite Hcb, Hud, Honly.
  split; [reflexivity|]. split.
  { change (- ETIME =? pcmk_ok) with false. cbn [orb].
    destruct (has_opt options st_opt_report_only_success); reflexivity. }
  split; [reflexivity|].
  unfold stonith_destroy_op_callback. rewrite Ht, Hw1. cbn [tr_ref].
  replace (0 <? w_next_source w) with true by (symmetry; apply Z.ltb_lt; lia).
  unfold g_source_remove. cbn [w_sources].
  apply (remove_fresh_source w (mk_gsource (w_next_source w) _ _) Hfresh eq_refl).
Qed.

(** X13.  A timeout update for a registered call replaces its timer
    when the callback was registered with [st_opt_timeout_updates]: the old
    source is removed and one new source is due [(t2 + 60)] seconds from now,
    the callback and its user data staying as registered; without that option
    the update changes nothing. *)
Theorem update_timeout_replaces_timer (w : world async_fn) (st : stonith_t)
    (call t1 t2 options ud : Z) (name : option string) (cb : fn_ptr) :
  0 < call ->
  stonith_op_callback_table (st_private st) !! call = None ->
  0 < t1 -> (t1 + 60) * 1000 <= INT_MAX ->
  0 < t2 -> (t2 + 60) * 1000 <= INT_MAX ->
  sources_fresh w -> 0 < w_next_source w ->
  exists w1 st1,
    stonith_api_add_callback w st call t1 options ud name cb
    = Some (w1, st1, 1, []) /\
    let '(w2, st2) := update_callback_timeout w1 call t2 st1 in
    if has_opt options st_opt_timeout_updates then
      w_sources w2
      = w_sources w ++
        [mk_gsource (w_next_source w + 1) (w_now w + (t2 + 60) * 1000)
                    (Stonith_async_timeout_handler call)] /\
      exists blob,
        stonith_op_callback_table (st_private st2) !! call = Some blob /\
        callback blob = cb /\ user_data blob = ud /\
        timer blob = Some (mk_timer_rec call ((t2 + 60) * 1000) (w_next_source w + 1))
    else w2 = w1 /\ st2 = st1.
Proof.
  intros Hcall Hnone Ht1 Hmax1 Ht2 Hmax2 Hfresh Hnext.
  destruct (add_callback_new_entry w st call t1 options ud name cb
              Hcall Hnone Hmax1)
    as (w1 & blob & Hadd & Hcb & Hud & Honly & Hupd & Htimer).
  replace (0 <? t1) with true in Htimer by (symmetry; apply Z.ltb_lt; lia).
  destruct Htimer as [Hw1 Ht].
  eexists _, _. split; [exact Hadd|].
  unfold update_callback_timeout.
  cbn [st_private set_private set_table stonith_op_callback_table].
  rewrite lookup_insert_eq, Hupd.
  destruct (has_opt options st_opt_timeout_updates); [| split; reflexivity].
  unfold set_callback_timeout.
  replace (t2 <=? 0) with false by (symmetry; apply Z.leb_gt; lia).
  rewrite Ht. cbn [tr_ref].
  replace (w_next_source w =? 0) with false by (symmetry; apply Z.eqb_neq; lia).
  cbn [negb].
  assert (Hms : wrap_int (wrap_int (t2 + 60) * 1000) = (t2 + 60) * 1000).
  { unfold INT_MAX in Hmax2. rewrite (wrap_int_id (t2 + 60)) by int_bounds.
    apply wrap_int_id. int_bounds. }
  rewrite Hms.
  replace (to_guint ((t2 + 60) * 1000)) with ((t2 + 60) * 1000)
    by (unfold to_guint, INT_MAX in *; rewrite Z.mod_small; lia).
  unfold g_timeout_add, g_source_remove. rewrite Hw1.
  cbn [w_sources w_now w_next_source w_kills].
  rewrite (remove_fresh_source w (mk_gsource (w_next_source w) _ _) Hfresh eq_refl).
  split; [reflexivity|].
  eexists. split; [apply lookup_insert_eq|].
  cbn [callback user_data timer]. auto.
Qed.

(** X28.  A callback registered under call id 0 with a timeout becomes the
    default callback and gets a fallback timer.  When that timer fires, the
    callback is invoked with [-ETIME] (it did not ask for successes only)
    and the default callback is uninstalled, but the entry under key 0 and
    the timer's source stay and the handler returns [TRUE]: every later
    firing invokes the callback with [-ETIME] again. *)
Theorem default_callback_timer_repeats (w : world async_fn) (st : stonith_t)
    (timeout options ud : Z) (name : option string) (fn : nat) :
  0 < timeout -> (timeout + 60) * 1000 <= INT_MAX ->
  stonith_op_callback_table (st_private st) !! 0 = None ->
  has_opt options st_opt_report_only_success = false ->
  exists w1 st1 blob t,
    stonith_api_add_callback w st 0 timeout options ud name (Some fn)
    = Some (w1, st1, 1, []) /\
    op_callback (st_private st1) = Some fn /\
    stonith_op_callback_table (st_private st1) !! 0 = Some blob /\
    timer blob = Some t /\
    In (mk_gsource (tr_ref t) (w_now w + (timeout + 60) * 1000)
                   (Stonith_async_timeout_handler 0))
       (w_sources w1) /\
    let '(w2, st2, invs, again) := stonith_async_timeout_handler w1 st1 t in
    again = true /\
    invs = [invoke_callback 0 (- ETIME) ud fn] /\
    op_callback (st_private st2) = None /\
    stonith_op_callback_table (st_private st2)
    = stonith_op_callback_table (st_private st1) /\
    w2 = w1 /\
    stonith_async_timeout_handler w2 st2 t = (w2, st2, invs, true).
Proof.
  intros Hpos Hmax Hnone Honly.
  unfold stonith_api_add_callback. rewrite Z.eqb_refl.
  replace (0 <? timeout) with true by (symmetry; apply Z.ltb_lt; lia).
  set (blob0 := mk_callback_client (Some fn) name ud
                  (has_opt options st_opt_report_only_success)
                  (has_opt options st_opt_timeout_updates) None).
  rewrite (set_callback_timeout_fresh blob0 w 0 timeout eq_refl Hpos Hmax).
  unfold g_hash_table_insert.
  cbn [set_op_callback stonith_op_callback_table]. rewrite Hnone.
  eexists _, _, _, _. split; [reflexivity|].
  cbn [st_private set_private set_table set_op_callback op_callback
       stonith_op_callback_table].
  split; [reflexivity|]. split; [apply lookup_insert_eq|].
  cbn [timer blob0 callback id user_data only_success allow_timeout_updates].
  split; [reflexivity|]. cbn [tr_ref].
  split; [cbn [w_sources]; apply in_or_app; right; left; reflexivity|].
  unfold stonith_async_timeout_handler, stonith_perform_callback.
  cbn [tr_call_id st_private set_private set_table set_op_callback op_callback
       stonith_op_callback_table].
  rewrite lookup_insert_eq.
  unfold stonith_api_del_callback. rewrite Z.eqb_refl.
  cbn [st_private set_private set_table set_op_callback op_callback
       stonith_op_callback_table callback user_data only_success].
  rewrite lookup_insert_eq.
  cbn [callback user_data only_success]. rewrite Honly.
  change (- ETIME =? pcmk_ok) with false. cbn [orb negb app].
  repeat (split; [reflexivity|]). reflexivity.
Qed.

Lemma destroy_op_callback_sources (b : stonith_callback_client_t)
    (w : world async_fn) (s : gsource async_fn) :
  In s (w_sources (stonith_destroy_op_callback b w)) ->
  In s (w_sources w) /\
  forall t, timer b = Some t -> 0 < tr_ref t -> src_id s <> tr_ref t.
Proof.
  unfold stonith_destroy_op_callback.
  destruct (timer b) as [t|]; [| intros H; split; [exact H | discriminate]].
  destruct (0 <? tr_ref t) eqn:E.
  - unfold g_source_remove. cbn [w_sources]. intros H.
    apply filter_In in H as [Hin Hid]. split; [exact Hin|].
    intros t' [= <-] _. apply negb_true_iff, Z.eqb_neq in Hid. exact Hid.
  - intros H. split; [exact H|]. intros t' [= <-] Hpos.
    apply Z.ltb_ge in E. lia.
Qed.

(** X14.  [stonith_api_del_callback] with [all_callbacks] returns
    [pcmk_ok], empties the registry and removes the default callback; no
    source that remains pending is the timer of a removed entry and no source
    is added; from then on a delivered reply invokes no callback. *)
Theorem del_all_callbacks (w : world async_fn) (st : stonith_t) (call : Z) :
  let '(w', st', rc) := stonith_api_del_callback w st call true in
  rc = pcmk_ok /\
  stonith_op_callback_table (st_private st') = ∅ /\
  op_callback (st_private st') = None /\
  (forall s, In s (w_sources w') ->
     In s (w_sources w) /\
     forall k b t,
       stonith_op_callback_table (st_private st) !! k = Some b ->
       timer b = Some t -> 0 < tr_ref t -> src_id s <> tr_ref t) /\
  (forall msg c r, snd (stonith_perform_callback w' st' msg c r) = []).
Proof.
  unfold stonith_api_del_callback.
  split; [reflexivity|]. split; [reflexivity|]. split; [reflexivity|].
  split.
  - apply (map_fold_weak_ind
             (fun (w' : world async_fn) (m : gmap Z stonith_callback_client_t) =>
                forall s, In s (w_sources w') ->
                  In s (w_sources w) /\
                  forall k b t, m !! k = Some b -> timer b = Some t ->
                                0 < tr_ref t -> src_id s <> tr_ref t)).
    + intros s Hs. split; [exact Hs|]. intros k b t Hk. rewrite lookup_empty in Hk.
      discriminate.
    + intros i x m r Hi IH s Hs.
      apply destroy_op_callback_sources in Hs as [Hs Hx].
      destruct (IH s Hs) as [Hin Hm]. split; [exact Hin|].
      intros k b t Hk Ht Hpos.
      destruct (decide (k = i)) as [-> | Hki].
      * rewrite lookup_insert_eq in Hk. injection Hk as <-. exact (Hx t Ht Hpos).
      * rewrite lookup_insert_ne in Hk by congruence. exact (Hm k b t Hk Ht Hpos).
  - intros msg c r. unfold stonith_perform_callback.
    cbn [st_private set_private set_table set_op_callback stonith_op_callback_table
         op_callback].
    rewrite lookup_empty. reflexivity.
Qed.

(** X15.  [stonith_api_del_notification] always returns [pcmk_ok]
    and, unless the session is disconnected, sends a deactivate message for
    the event, whether or not a subscriber was removed.  Where the
    subscribers before the first one of the event all have event names, it
    removes that first subscriber only, whatever its callback: later
    subscribers of the same event stay in the list.  When every subscriber
    has an event name and none has the event, the session is unchanged. *)
Theorem del_notification_first (st : stonith_t) (e : string) :
  let subscribers := notify_list (st_private st) in
  let '(st', rc, sent) := stonith_api_del_notification st (Some e) in
  rc = pcmk_ok /\
  sent = (if stonith_state_eqb (state st) stonith_disconnected then []
          else [mk_notify_control false (Some e)]) /\
  (forall l1 c l2,
      subscribers = l1 ++ c :: l2 ->
      Forall (fun c' => exists e', event c' = Some e' /\ e' <> e) l1 ->
      event c = Some e ->
      notify_list (st_private st') = l1 ++ l2) /\
  (Forall (fun c' => exists e', event c' = Some e' /\ e' <> e) subscribers ->
   st' = st).
Proof.
  intros subscribers. unfold stonith_api_del_notification.
  fold subscribers.
  assert (Hskip : forall c', (exists e', event c' = Some e' /\ e' <> e) ->
             (stonithlib_GCompareFunc c' (mk_notify_client (Some e) None) =? 0) = false).
  { intros c' (e' & He' & Hne). unfold stonithlib_GCompareFunc.
    rewrite He'. cbn [event].
    destruct (strcmp e' e =? 0) eqn:E.
    - apply Z.eqb_eq, strcmp_eq in E. congruence.
    - exact E. }
  assert (Hhit : forall c', event c' = Some e ->
             (stonithlib_GCompareFunc c' (mk_notify_client (Some e) None) =? 0) = true).
  { intros c' He'. unfold stonithlib_GCompareFunc. rewrite He'. cbn [event notify].
    rewrite strcmp_refl. cbn. destruct (notify c'); reflexivity. }
  assert (Hfind : forall l1 c l2,
             Forall (fun c' => exists e', event c' = Some e' /\ e' <> e) l1 ->
             event c = Some e ->
             g_list_find_custom (l1 ++ c :: l2) (mk_notify_client (Some e) None) = Some c /\
             g_list_remove (l1 ++ c :: l2) (mk_notify_client (Some e) None) = l1 ++ l2).
  { intros l1 c l2 Hl1 Hc. induction l1 as [|c1 l1 IH].
    - cbn. rewrite (Hhit c Hc). split; reflexivity.
    - apply Forall_cons in Hl1 as [Hc1 Hl1]. cbn.
      rewrite (Hskip c1 Hc1). destruct (IH Hl1) as [-> ->]. split; reflexivity. }
  assert (Hmiss : forall l,
             Forall (fun c' => exists e', event c' = Some e' /\ e' <> e) l ->
             g_list_find_custom l (mk_notify_client (Some e) None) = None).
  { intros l Hl. induction l as [|c1 l IH]; [reflexivity|].
    apply Forall_cons in Hl as [Hc1 Hl]. cbn. rewrite (Hskip c1 Hc1). exact (IH Hl). }
  assert (Hsent : stonith_set_notification st (Some e) false
                  = if stonith_state_eqb (state st) stonith_disconnected then []
                    else [mk_notify_control false (Some e)]).
  { unfold stonith_set_notification.
    destruct (stonith_state_eqb (state st) stonith_disconnected); reflexivity. }
  destruct (g_list_find_custom subscribers (mk_notify_client (Some e) None))
    as [found|] eqn:Efind.
  - split; [reflexivity|]. split; [exact Hsent|]. split.
    + intros l1 c l2 Hsub Hl1 Hc.
      cbn [st_private set_private set_notify_list notify_list].
      rewrite Hsub. apply (Hfind l1 c l2 Hl1 Hc).
    + intros Hall. rewrite (Hmiss _ Hall) in Efind. discriminate.
  - split; [reflexivity|]. split; [exact Hsent|]. split.
    + intros l1 c l2 Hsub Hl1 Hc. rewrite Hsub in Efind.
      destruct (Hfind l1 c l2 Hl1 Hc) as [Hf _]. rewrite Hf in Efind. discriminate.
    + intros _. reflexivity.
Qed.

(* ===================================================================== *)
(** * Signing on *)
(* ===================================================================== *)

(** X16.  [stonith_api_signon] returns [pcmk_ok], [-ENOTCONN],
    [-ECOMM] or [-EPROTO].  On [pcmk_ok] the session is connected, has a
    channel and holds the token of the registration reply; on every other
    result it is disconnected, without channel and without token.  The call
    id counter, the callback registry, the subscribers and the default
    callback are never changed. *)
Theorem signon_outcome (safe_str_neq : option string -> option string -> bool)
    (io : signon_io) (st : stonith_t) :
  let '(st', rc) := stonith_api_signon safe_str_neq io st in
  (rc = pcmk_ok \/ rc = - ENOTCONN \/ rc = - ECOMM \/ rc = - EPROTO) /\
  (rc = pcmk_ok ->
     state st' = stonith_connected_command /\
     ipc (st_private st') = true /\
     exists msg_type ticket,
       sg_reply io = Some (msg_type, Some ticket) /\
       token (st_private st') = Some ticket) /\
  (rc <> pcmk_ok ->
     state st' = stonith_disconnected /\
     ipc (st_private st') = false /\
     token (st_private st') = None) /\
  call_id st' = call_id st /\
  stonith_op_callback_table (st_private st')
  = stonith_op_callback_table (st_private st) /\
  notify_list (st_private st') = notify_list (st_private st) /\
  op_callback (st_private st') = op_callback (st_private st).
Proof.
  unfold stonith_api_signon, stonith_api_signoff.
  destruct st as [s c [tk ip tb nl oc]].
  destruct io as [nm si sc src [[mt [tt|]]|]];
    cbn [sg_no_mainloop sg_ipc sg_connect sg_send_rc sg_reply set_state st_private
         token ipc stonith_op_callback_table notify_list op_callback state call_id];
    destruct nm, si, sc; cbn [andb ipc];
    repeat match goal with
           | |- context [if ?b then _ else _] =>
               lazymatch b with
               | _ <? _ => destruct b eqn:?
               | safe_str_neq _ _ => destruct b eqn:?
               end
           end;
    cbn;
    (split; [auto|]);
    (split; [intros H; try discriminate H; eauto 6|]);
    (split; [intros H; try congruence; auto|]); auto.
Qed.

(* ===================================================================== *)
(** * The end of an asynchronous attempt *)
(* ===================================================================== *)

Lemma async_done_collect_fields (out err : option string) (signo exitcode : Z)
    (w : world timer_fn) (a : stonith_action_t) :
  let a1 := snd (async_done_collect out err signo exitcode w a) in
  tries a1 = tries a /\ max_retries a1 = max_retries a /\
  timeout a1 = timeout a /\ initial_start_time a1 = initial_start_time a /\
  args a1 = args a /\ agent a1 = agent a /\
  output a1 = out /\ error a1 = err /\
  (last_timeout_signo a <> 0 -> rc a1 = - ETIME) /\
  (last_timeout_signo a = 0 -> signo = 0 -> exitcode = 0 -> rc a1 = 0).
Proof.
  destruct a as [ag0 ac vi ar ti asy fo fe lts ist tr rem tt tk mr pi r o e0].
  unfold async_done_collect.
  cbn [timer_sigterm timer_sigkill].
  destruct (0 <? tt); cbn [set_timers timer_sigkill timer_sigterm];
    destruct (0 <? tk);
    cbn [set_timers set_result snd tries max_retries timeout initial_start_time
         args agent output error rc last_timeout_signo];
    (repeat split; try reflexivity);
    try (intros Hl; replace (lts =? 0) with false by (symmetry; apply Z.eqb_neq; exact Hl);
         reflexivity);
    intros -> -> ->; reflexivity.
Qed.

Lemma update_remaining_timeout_permits (now : Z) (a : stonith_action_t) :
  snd (update_remaining_timeout now a) = true ->
  tries a < max_retries a /\ rc a <> - ETIME.
Proof.
  unfold update_remaining_timeout.
  destruct (max_retries a <=? tries a) eqn:Em.
  - destruct a; cbn. discriminate.
  - apply Z.leb_gt in Em. intros H. split; [exact Em|].
    intros Hrc. rewrite Hrc, Z.eqb_refl in H. destruct a; cbn in H. discriminate.
Qed.

Lemma update_remaining_timeout_keeps (now : Z) (a : stonith_action_t) :
  let a1 := fst (update_remaining_timeout now a) in
  tries a1 = tries a /\ max_retries a1 = max_retries a /\ rc a1 = rc a /\
  output a1 = output a /\ args a1 = args a /\ agent a1 = agent a.
Proof.
  unfold update_remaining_timeout.
  destruct a as [ag0 ac vi ar ti asy fo fe lts ist tr rem tt tk mr pi r o e0].
  cbn [max_retries tries rc timeout initial_start_time].
  destruct (mr <=? tr); [cbn; auto 10|].
  destruct (negb (r =? - ETIME) && _); cbn; auto 10.
Qed.

Ltac exec_failed :=
  split; [reflexivity|];
  split; [intros Hr; exfalso; vm_compute in Hr; discriminate Hr
         | intros _; split; reflexivity].

Lemma execute_result (now : Z) (os : spawn) (w : world timer_fn) (a : stonith_action_t) :
  let '(w1, a1, r) := internal_stonith_action_execute now os w a in
  tries a1 = wrap_int (tries a + 1) /\
  (r = 0 -> pid a1 = spawn_fork os /\ spawn_pipes_ok os = true /\ 0 <= spawn_fork os) /\
  (r <> 0 -> rc a1 = 0 /\ output a1 = None).
Proof.
  destruct a as [ag0 ac vi ar ti asy fo fe lts ist tr rem tt tk mr pi r0 o e0].
  destruct os as [po fk prf pef tot wr].
  unfold internal_stonith_action_execute, stonith_action_clear_tracking_data.
  cbn [timer_sigterm timer_sigkill tries set_start_tries initial_start_time
       agent action victim args timeout async max_retries remaining_timeout
       spawn_pipes_ok spawn_fork spawn_p_read_fd spawn_p_stderr_fd spawn_total
       spawn_write_ret].
  destruct (tr =? 0);
    cbn [set_start_tries args agent initial_start_time tries];
    (destruct ar as [blob|]; [destruct ag0 as [ag|] |]); cbv beta iota zeta;
    try (exec_failed);
    (destruct po; cbn [negb]; cbv beta iota zeta;
     [| exec_failed]);
    (destruct (fk <? 0) eqn:Ef; cbv beta iota zeta;
     [exec_failed |]);
    apply Z.ltb_ge in Ef;
    (destruct (negb (tot =? _)); cbv beta iota zeta;
     [destruct (0 <=? wr);
      (exec_failed) |]);
    cbn [set_pid set_fds set_last_timeout_signo set_start_tries set_timers
         remaining_timeout agent action victim
         args timeout async fd_stdout fd_stderr last_timeout_signo initial_start_time
         tries timer_sigterm timer_sigkill max_retries pid rc output error];
    (destruct (negb (rem =? 0)); unfold g_timeout_add; cbv beta iota zeta;
     (split; [reflexivity|]; split; [intros _; auto | intros H; congruence])).
Qed.

(** X17.  When [stonith_action_async_done] ends in a new attempt,
    fewer than [max_retries] attempts had been made, the attempt count has
    grown by one, the ended attempt was not escalated by a timer and did
    fail (a signal or a non-zero exit status), and the action tracks the new
    child. *)
Theorem async_retry_conditions (now : Z) (os : spawn) (out err : option string)
    (signo exitcode : Z) (w w' : world timer_fn) (a a' : stonith_action_t) :
  stonith_action_async_done now os out err signo exitcode w a = Retrying w' a' ->
  tries a < max_retries a /\
  tries a' = wrap_int (tries a + 1) /\
  last_timeout_signo a = 0 /\
  (signo <> 0 \/ exitcode <> 0) /\
  pid a' = spawn_fork os.
Proof.
  unfold stonith_action_async_done.
  pose proof (async_done_collect_fields out err signo exitcode w a) as Hc.
  destruct (async_done_collect out err signo exitcode w a) as [w1 a1].
  cbn [snd] in Hc.
  destruct Hc as (Htr & Hmr & _ & _ & _ & _ & _ & _ & Htimed & Hok).
  destruct (negb (rc a1 =? pcmk_ok)) eqn:Erc;
    [| destruct (stonith_action_clear_tracking_data w1 a1); discriminate].
  apply negb_true_iff, Z.eqb_neq in Erc.
  pose proof (update_remaining_timeout_permits now a1) as Hperm.
  pose proof (update_remaining_timeout_keeps now a1) as Hkeep.
  destruct (update_remaining_timeout now a1) as [a2 retry].
  cbn [fst snd] in Hperm, Hkeep.
  destruct retry;
    [| destruct (stonith_action_clear_tracking_data w1 a2); discriminate].
  destruct (Hperm eq_refl) as [Hlt Hnt].
  destruct Hkeep as (Htr2 & _).
  pose proof (execute_result now os w1 a2) as Hex.
  destruct (internal_stonith_action_execute now os w1 a2) as [[w2 a3] r].
  destruct Hex as (Htr3 & Hr0 & _).
  destruct (r =? pcmk_ok) eqn:Er;
    [| destruct (stonith_action_clear_tracking_data w2 a3); discriminate].
  apply Z.eqb_eq in Er. intros [= <- <-].
  destruct (Hr0 Er) as (Hpid & _ & _).
  split; [lia|]. split; [congruence|].
  assert (Hl : last_timeout_signo a = 0).
  { destruct (Z.eq_dec (last_timeout_signo a) 0) as [H|H]; [exact H|].
    exfalso. apply Hnt. apply Htimed, H. }
  split; [exact Hl|]. split; [| exact Hpid].
  destruct (Z.eq_dec signo 0) as [Hs|Hs]; [| left; exact Hs].
  destruct (Z.eq_dec exitcode 0) as [He|He]; [| right; exact He].
  exfalso. apply Erc. apply Hok; assumption.
Qed.

(** X18.  When an asynchronous attempt has failed, a retry is
    permitted and the new attempt cannot be started because the pipes or the
    fork fail, the completion callback is run with [pcmk_ok] and without
    output: the failure of the attempt is lost with the tracking data that
    the new attempt cleared. *)
Theorem async_respawn_failure_reports_success (now : Z) (os : spawn)
    (out err : option string) (signo exitcode : Z)
    (w : world timer_fn) (a : stonith_action_t) :
  let a1 := snd (async_done_collect out err signo exitcode w a) in
  rc a1 <> pcmk_ok ->
  snd (update_remaining_timeout now a1) = true ->
  spawn_pipes_ok os = false \/ spawn_fork os < 0 ->
  exists w',
    stonith_action_async_done now os out err signo exitcode w a
    = Completed w' pcmk_ok None.
Proof.
  intros a1 Hrc Hretry Hos. subst a1.
  unfold stonith_action_async_done.
  destruct (async_done_collect out err signo exitcode w a) as [w1 a1].
  cbn [snd] in Hrc, Hretry.
  replace (negb (rc a1 =? pcmk_ok)) with true
    by (symmetry; apply negb_true_iff, Z.eqb_neq; exact Hrc).
  destruct (update_remaining_timeout now a1) as [a2 retry].
  cbn [snd] in Hretry. subst retry.
  pose proof (execute_result now os w1 a2) as Hex.
  destruct (internal_stonith_action_execute now os w1 a2) as [[w2 a3] r].
  destruct Hex as (_ & Hr0 & Hr1).
  assert (Hr : r <> 0).
  { intros Hr. destruct (Hr0 Hr) as (_ & Hp & Hf).
    destruct Hos as [Hos | Hos]; [congruence | lia]. }
  replace (r =? pcmk_ok) with false by (symmetry; apply Z.eqb_neq; exact Hr).
  destruct (Hr1 Hr) as [-> ->].
  destruct (stonith_action_clear_tracking_data w2 a3) as [w3 a4].
  exists w3. reflexivity.
Qed.

(** X19.  When the ended attempt succeeded, or failed and no retry is
    permitted, [stonith_action_async_done] runs the completion callback
    with the result code derived from the way the child ended and with the
    output read from the child, and sends no signal. *)
Theorem async_completion_reports (now : Z) (os : spawn)
    (out err : option string) (signo exitcode : Z)
    (w : world timer_fn) (a : stonith_action_t) :
  let a1 := snd (async_done_collect out err signo exitcode w a) in
  rc a1 = pcmk_ok \/ snd (update_remaining_timeout now a1) = false ->
  exists w',
    stonith_action_async_done now os out err signo exitcode w a
    = Completed w' (rc a1) out /\
    w_kills w' = w_kills w.
Proof.
  intros a1 Hno. subst a1.
  unfold stonith_action_async_done.
  pose proof (async_done_collect_fields out err signo exitcode w a) as Hc.
  assert (Hk : w_kills (fst (async_done_collect out err signo exitcode w a)) = w_kills w).
  { unfold async_done_collect. cbn [fst].
    destruct (0 <? timer_sigterm a); cbn [set_timers timer_sigkill];
      destruct (0 <? timer_sigkill a); reflexivity. }
  destruct (async_done_collect out err signo exitcode w a) as [w1 a1].
  cbn [fst snd] in *.
  destruct Hc as (_ & _ & _ & _ & _ & _ & Hout & _).
  assert (Hclear : forall a0,
             w_kills (fst (stonith_action_clear_tracking_data w1 a0)) = w_kills w1).
  { intros a0. unfold stonith_action_clear_tracking_data. cbn [fst].
    destruct (0 <? timer_sigterm a0); destruct (0 <? timer_sigkill a0); reflexivity. }
  destruct (negb (rc a1 =? pcmk_ok)) eqn:Erc.
  - destruct Hno as [Hno | Hno];
      [rewrite Hno in Erc; discriminate Erc|].
    pose proof (update_remaining_timeout_keeps now a1) as Hkeep.
    destruct (update_remaining_timeout now a1) as [a2 retry].
    cbn [fst snd] in *. subst retry.
    destruct Hkeep as (_ & _ & Hrc2 & Hout2 & _).
    specialize (Hclear a2).
    destruct (stonith_action_clear_tracking_data w1 a2) as [w3 a4].
    exists w3. cbn [fst] in Hclear. split; [congruence | congruence].
  - specialize (Hclear a1).
    destruct (stonith_action_clear_tracking_data w1 a1) as [w3 a4].
    exists w3. cbn [fst] in Hclear. split; [congruence | congruence].
Qed.

(* ===================================================================== *)
(** * Running an agent synchronously *)
(* ===================================================================== *)

Lemma wait_loop_reported (ch : child_run) (remaining : Z) (e : nat) :
  cr_exits_after ch = Some e ->
  forall (n : nat) (k : nat) (timeout : Z) (fuel : nat),
    (k + n = e)%nat -> Z.of_nat n < timeout <= INT_MAX -> (n < fuel)%nat ->
    wait_loop fuel ch remaining timeout k = Some (timeout - Z.of_nat n, true).
Proof.
  intros He. induction n as [|n IH]; intros k timeout fuel Hk Ht Hf.
  - destruct fuel as [|fuel]; [lia|]. cbn [wait_loop].
    replace (0 <? timeout) with true by (symmetry; apply Z.ltb_lt; lia).
    rewrite orb_true_r. unfold polled. rewrite He.
    replace (e <=? k)%nat with true by (symmetry; apply Nat.leb_le; lia).
    f_equal. f_equal. lia.
  - destruct fuel as [|fuel]; [lia|]. cbn [wait_loop].
    replace (0 <? timeout) with true by (symmetry; apply Z.ltb_lt; lia).
    rewrite orb_true_r. unfold polled. rewrite He.
    replace (e <=? k)%nat with false by (symmetry; apply Nat.leb_gt; lia).
    rewrite wrap_int_id by (unfold INT_MAX in *; int_bounds).
    rewrite (IH (S k) (timeout - 1) fuel) by lia.
    f_equal. f_equal. lia.
Qed.

Lemma wait_loop_expires (ch : child_run) (remaining : Z) :
  0 <= remaining ->
  forall (n : nat) (k : nat) (fuel : nat),
    (forall j, (k <= j < k + n)%nat -> polled ch j = false) ->
    Z.of_nat n <= INT_MAX -> (n < fuel)%nat ->
    wait_loop fuel ch remaining (Z.of_nat n) k = Some (0, false).
Proof.
  intros Hrem. induction n as [|n IH]; intros k fuel Hp Hn Hf.
  - destruct fuel as [|fuel]; [lia|]. cbn [wait_loop].
    replace (remaining <? 0) with false by (symmetry; apply Z.ltb_ge; lia).
    reflexivity.
  - destruct fuel as [|fuel]; [lia|]. cbn [wait_loop].
    replace (0 <? Z.of_nat (S n)) with true by (symmetry; apply Z.ltb_lt; lia).
    rewrite orb_true_r. rewrite (Hp k) by lia.
    rewrite wrap_int_id by (unfold INT_MAX in *; int_bounds).
    replace (Z.of_nat (S n) - 1) with (Z.of_nat n) by lia.
    apply IH; [intros j Hj; apply Hp; lia | lia | lia].
Qed.

Lemma clear_tracking_kills (w : world timer_fn) (a : stonith_action_t) :
  w_kills (fst (stonith_action_clear_tracking_data w a)) = w_kills w.
Proof.
  unfold stonith_action_clear_tracking_data. cbn [fst].
  destruct (0 <? timer_sigterm a); destruct (0 <? timer_sigkill a); reflexivity.
Qed.

(** A synchronous attempt whose agent is started: what is left to the
    polling loop. *)
Lemma execute_sync_started (fuel : nat) (now : Z) (os : spawn) (ch : child_run)
    (w : world timer_fn) (a : stonith_action_t) :
  spawned os a ->
  exists w0 a0,
    w_kills w0 = w_kills w /\
    tries a0 = wrap_int (tries a + 1) /\ max_retries a0 = max_retries a /\
    pid a0 = spawn_fork os /\ remaining_timeout a0 = remaining_timeout a /\
    internal_stonith_action_execute_sync fuel now os ch w a
    = match wait_loop fuel ch (remaining_timeout a)
              (wrap_int (remaining_timeout a + 1)) 0 with
      | None => None
      | Some (timeout, reported) =>
          let w1 := if timeout =? 0 then kill (- spawn_fork os) SIGKILL w0 else w0 in
          let status :=
            if (timeout =? 0) || reported then cr_status ch else Status_exited 0 in
          if timeout =? 0 then
            Some (w1, set_result a0 (- ETIME) (cr_stdout ch) (cr_stderr ch),
                  - ECONNABORTED)
          else
            match status with
            | Status_exited code =>
                Some (w1, set_result a0 (- code) (cr_stdout ch) (cr_stderr ch), 0)
            | _ => Some (w1, set_result a0 (- ECONNABORTED) (cr_stdout ch) (cr_stderr ch),
                         - ECONNABORTED)
            end
      end.
Proof.
  intros (Hpipes & Hfork & blob & ag & Hargs & Hagent & Htotal).
  pose proof (clear_tracking_kills w a) as Hk.
  destruct a as [ag0 ac vi ar ti asy fo fe lts ist tr rem tt tk mr pi r0 o e0].
  destruct os as [po fk prf pef tot wr].
  cbn [args agent spawn_pipes_ok spawn_fork spawn_total] in *. subst ag0 ar po tot.
  unfold internal_stonith_action_execute_sync.
  destruct (stonith_action_clear_tracking_data w _) as [w0 a0] eqn:Ec.
  cbn [fst] in Hk.
  unfold stonith_action_clear_tracking_data in Ec. injection Ec as Hw0 Ha0.
  clear Hw0. subst a0.
  cbn [tries max_retries remaining_timeout spawn_pipes_ok spawn_fork spawn_total
       spawn_write_ret negb].
  replace (fk <? 0) with false by (symmetry; apply Z.ltb_ge; lia).
  exists w0.
  exists (mk_action (Some ag) ac vi (Some blob) ti asy 0 0 0
            (if tr =? 0 then now else ist) (wrap_int (tr + 1)) rem 0 0 mr fk 0
            None None).
  split; [exact Hk|]. repeat (split; [reflexivity|]).
  destruct (tr =? 0);
    cbn [set_start_tries set_pid set_result agent action victim args timeout async
         fd_stdout fd_stderr last_timeout_signo initial_start_time tries
         remaining_timeout timer_sigterm timer_sigkill max_retries pid rc output error];
    rewrite Z.eqb_refl; cbn [negb];
    (destruct (wait_loop fuel ch rem (wrap_int (rem + 1)) 0) as [[t rep]|];
     [| reflexivity]);
    cbv zeta; (destruct (t =? 0); [reflexivity|]);
    cbn [orb]; destruct (if rep then cr_status ch else Status_exited 0);
    reflexivity.
Qed.

(** X20.  In a synchronous run, a child that is started and exits by
    itself within the remaining timeout ends the run after that one attempt,
    whatever its exit status: [stonith__execute] returns [pcmk_ok], the
    action's result code is minus the exit status, its output and error text
    are what was read from the child, and no signal is sent. *)
Theorem sync_exit_ends_run (fuel : nat) (now now' : Z) (os : spawn) (ch : child_run)
    (rest : list attempt) (w : world timer_fn) (a : stonith_action_t)
    (e : nat) (code : Z) :
  spawned os a ->
  0 <= remaining_timeout a < INT_MAX ->
  cr_exits_after ch = Some e -> Z.of_nat e <= remaining_timeout a ->
  (e < fuel)%nat ->
  cr_status ch = Status_exited code ->
  exists w' a',
    stonith__execute fuel (mk_attempt now os ch now' :: rest) w (Some a)
    = Some (w', Some a', pcmk_ok) /\
    rc a' = - code /\ output a' = cr_stdout ch /\ error a' = cr_stderr ch /\
    tries a' = wrap_int (tries a + 1) /\
    w_kills w' = w_kills w.
Proof.
  intros Hsp Hrem He Hle Hfuel Hst.
  destruct (execute_sync_started fuel now os ch w a Hsp)
    as (w0 & a0 & Hk & Htr & _ & _ & _ & Hex).
  unfold stonith__execute. cbn [execute_loop at_now at_spawn at_child at_now_after].
  rewrite Hex.
  rewrite wrap_int_id by (unfold INT_MAX in *; int_bounds).
  rewrite (wait_loop_reported ch (remaining_timeout a) e He e 0
             (remaining_timeout a + 1) fuel) by (unfold INT_MAX in *; lia).
  cbv zeta.
  replace (remaining_timeout a + 1 - Z.of_nat e =? 0) with false
    by (symmetry; apply Z.eqb_neq; lia).
  cbn [orb]. rewrite Hst. cbn [negb Z.eqb pcmk_ok].
  eexists _, _. split; [reflexivity|].
  destruct a0. cbn. cbn in Htr. auto 10.
Qed.

(** X21.  In a synchronous run, a child that does not exit within
    the remaining timeout is sent SIGKILL once, to its process group; the
    action's result code is [-ETIME], [stonith__execute] returns
    [-ECONNABORTED], and no further attempt is made. *)
Theorem sync_timeout_kills (fuel : nat) (now now' : Z) (os : spawn) (ch : child_run)
    (rest : list attempt) (w : world timer_fn) (a : stonith_action_t) :
  spawned os a ->
  0 <= remaining_timeout a < INT_MAX ->
  (forall k, Z.of_nat k <= remaining_timeout a -> polled ch k = false) ->
  (Z.to_nat (remaining_timeout a) + 1 < fuel)%nat ->
  exists w' a',
    stonith__execute fuel (mk_attempt now os ch now' :: rest) w (Some a)
    = Some (w', Some a', - ECONNABORTED) /\
    rc a' = - ETIME /\ remaining_timeout a' = 0 /\
    tries a' = wrap_int (tries a + 1) /\
    w_kills w' = w_kills w ++ [(- spawn_fork os, SIGKILL)].
Proof.
  intros Hsp Hrem Hpoll Hfuel.
  destruct (execute_sync_started fuel now os ch w a Hsp)
    as (w0 & a0 & Hk & Htr & _ & _ & _ & Hex).
  unfold stonith__execute. cbn [execute_loop at_now at_spawn at_child at_now_after].
  rewrite Hex.
  rewrite wrap_int_id by (unfold INT_MAX in *; int_bounds).
  replace (remaining_timeout a + 1)
    with (Z.of_nat (Z.to_nat (remaining_timeout a) + 1)) by lia.
  rewrite (wait_loop_expires ch (remaining_timeout a) (proj1 Hrem)
             (Z.to_nat (remaining_timeout a) + 1) 0 fuel)
    by (try (intros j Hj; apply Hpoll); unfold INT_MAX in *; lia).
  cbv zeta. cbn [Z.eqb].
  change (negb (- ECONNABORTED =? pcmk_ok)) with true. cbv iota.
  destruct a0 as [ag0 ac vi ar ti asy fo fe lts ist tr rem tt tk mr pi r0 o e0].
  unfold update_remaining_timeout.
  cbn [set_result max_retries tries rc timeout initial_start_time].
  destruct (mr <=? tr);
    cbn [set_remaining_timeout remaining_timeout Z.eqb negb andb];
    (eexists _, _; split; [reflexivity|]; cbn; cbn in Htr; rewrite Hk; auto 10).
Qed.

Lemma execute_sync_tries (fuel : nat) (now : Z) (os : spawn) (ch : child_run)
    (w w1 : world timer_fn) (a a1 : stonith_action_t) (r : Z) :
  internal_stonith_action_execute_sync fuel now os ch w a = Some (w1, a1, r) ->
  tries a1 = wrap_int (tries a + 1) /\ max_retries a1 = max_retries a.
Proof.
  destruct a as [ag0 ac vi ar ti asy fo fe lts ist tr rem tt tk mr pi r0 o e0].
  unfold internal_stonith_action_execute_sync, stonith_action_clear_tracking_data.
  cbn [timer_sigterm timer_sigkill tries set_start_tries initial_start_time
       agent action victim args timeout async max_retries remaining_timeout].
  destruct (tr =? 0);
    cbn [set_start_tries set_pid set_result agent action victim args timeout async
         fd_stdout fd_stderr last_timeout_signo initial_start_time tries
         remaining_timeout timer_sigterm timer_sigkill max_retries pid rc output error];
    (destruct ar as [blob|]; [destruct ag0 as [ag|] |]);
    try (intros [= <- <- <-]; split; reflexivity);
    (destruct (negb (spawn_pipes_ok os)); [intros [= <- <- <-]; split; reflexivity|]);
    (destruct (spawn_fork os <? 0); [intros [= <- <- <-]; split; reflexivity|]);
    (destruct (negb (spawn_total os =? _)); [intros [= <- <- <-]; split; reflexivity|]);
    (destruct (wait_loop fuel ch rem (wrap_int (rem + 1)) 0) as [[t rep]|];
     [| discriminate]);
    cbv zeta; (destruct (t =? 0); [intros [= <- <- <-]; split; reflexivity|]);
    (match goal with
     | |- context [match ?s with Status_exited _ => _ | _ => _ end] => destruct s
     end;
     intros [= <- <- <-]; split; reflexivity).
Qed.

Lemma execute_loop_tries (fuel : nat) (attempts : list attempt)
    (w w' : world timer_fn) (a a' : stonith_action_t) (r : Z) :
  INT_MIN <= tries a -> tries a + Z.of_nat (length attempts) <= INT_MAX ->
  execute_loop fuel attempts w a = Some (w', a', r) ->
  tries a < tries a' /\
  tries a' <= Z.max (tries a + 1) (max_retries a) /\
  tries a' - tries a <= Z.of_nat (length attempts).
Proof.
  revert w a. induction attempts as [|e rest IH];
    intros w a Hlo Hhi Eloop; [discriminate|].
  cbn [execute_loop] in Eloop. cbn [length] in Hhi |- *.
  destruct (internal_stonith_action_execute_sync fuel (at_now e) (at_spawn e)
              (at_child e) w a) as [[[w2 a2] r2]|] eqn:Ex; [| discriminate].
  apply execute_sync_tries in Ex as [Htr Hmr].
  rewrite wrap_int_id in Htr by (unfold INT_MIN, INT_MAX in *; int_bounds).
  destruct (negb (r2 =? pcmk_ok)).
  - pose proof (update_remaining_timeout_permits (at_now_after e) a2) as Hperm.
    pose proof (update_remaining_timeout_keeps (at_now_after e) a2) as Hkeep.
    destruct (update_remaining_timeout (at_now_after e) a2) as [a3 again].
    cbn [fst snd] in Hperm, Hkeep. destruct Hkeep as (Htr3 & Hmr3 & _).
    destruct again.
    + destruct (Hperm eq_refl) as [Hlt _].
      destruct (IH w2 a3) as (H1 & H2 & H3); [lia | lia | exact Eloop |].
      lia.
    + injection Eloop as <- <- <-. lia.
  - injection Eloop as <- <- <-. lia.
Qed.

(** X22.  A synchronous run that returns has made at least one
    attempt and, counting those made before, at most [max_retries] attempts
    (one more than before if that is larger), as long as the attempt count
    stays an [int]. *)
Theorem sync_attempts_bounded (fuel : nat) (attempts : list attempt)
    (w w' : world timer_fn) (a a' : stonith_action_t) (r : Z) :
  INT_MIN <= tries a -> tries a + Z.of_nat (length attempts) <= INT_MAX ->
  stonith__execute fuel attempts w (Some a) = Some (w', Some a', r) ->
  tries a < tries a' /\
  tries a' <= Z.max (tries a + 1) (max_retries a).
Proof.
  unfold stonith__execute. intros Hlo Hhi H.
  destruct (execute_loop fuel attempts w a) as [[[w1 a1] r1]|] eqn:Eloop;
    [| discriminate].
  injection H as <- <- <-.
  destruct (execute_loop_tries fuel attempts w w1 a a1 r1 Hlo Hhi Eloop)
    as (H1 & H2 & _).
  split; assumption.
Qed.

(** X23.  An action made by [stonith_action_create] has its timeout
    as remaining timeout and no attempt made; when the device parameters hold
    no [pcmk_<action>_retries] entry its [max_retries] is 2, so that a
    synchronous run of it that returns has made one or two attempts. *)
Theorem new_action_default_attempts
    (safe_str_eq safe_str_neq : option string -> option string -> bool)
    (atoi : string -> Z)
    (agent0 _action : string) (victim0 : option string) (nodeid : N) (timeout0 : Z)
    (device_args port_map : option str_table)
    (fuel : nat) (attempts : list attempt) (w w' : world timer_fn)
    (a' : stonith_action_t) (r : Z) :
  let a := stonith_action_create safe_str_eq safe_str_neq atoi agent0 _action victim0
             nodeid timeout0 device_args port_map in
  (forall t, device_args = Some t ->
     g_hash_table_lookup t (snprintf_512 ("pcmk_" ++ _action ++ "_retries")) = None) ->
  Z.of_nat (length attempts) <= INT_MAX ->
  stonith__execute fuel attempts w (Some a) = Some (w', Some a', r) ->
  timeout a = timeout0 /\ remaining_timeout a = timeout0 /\
  tries a = 0 /\ max_retries a = 2 /\
  1 <= tries a' <= 2.
Proof.
  intros a Hnone Hlen H.
  assert (Hmr : max_retries a = 2).
  { subst a. unfold stonith_action_create. cbn [max_retries].
    destruct device_args as [t|]; [| reflexivity].
    rewrite (Hnone t eq_refl). reflexivity. }
  assert (Htr : tries a = 0) by reflexivity.
  split; [reflexivity|]. split; [reflexivity|]. split; [exact Htr|].
  split; [exact Hmr|].
  unfold stonith__execute in H.
  destruct (execute_loop fuel attempts w a) as [[[w1 a1] r1]|] eqn:Eloop;
    [| discriminate].
  injection H as <- <- <-.
  destruct (execute_loop_tries fuel attempts w w1 a a1 r1) as (H1 & H2 & _);
    [rewrite Htr; unfold INT_MIN; lia | rewrite Htr; lia | exact Eloop |].
  rewrite Htr, Hmr in *. lia.
Qed.

(* ===================================================================== *)
(** * Reading the output of an agent *)
(* ===================================================================== *)

Lemma until_nul_clean (s : string) : has_char is_nul s = false -> until_nul s = s.
Proof.
  induction s as [|c s IH]; [reflexivity|]. cbn [has_char until_nul].
  intros H. apply orb_false_iff in H as [Hc Hs]. rewrite Hc, (IH Hs). reflexivity.
Qed.

Lemma snprintf_at_append (text data : string) :
  has_char is_nul data = false ->
  snprintf_at (bytes_of text ++ [None]) (String.length text) (String.length data) data
  = bytes_of (text ++ data) ++ [None].
Proof.
  intros Hd. unfold snprintf_at.
  rewrite until_nul_clean by exact Hd. rewrite substring_all.
  rewrite <- (bytes_of_length text), take_app_length.
  rewrite length_app. cbn [length].
  replace (length (bytes_of text) - (length (bytes_of text) + 1))%nat with 0%nat by lia.
  cbn [replicate app]. rewrite bytes_of_app, <- app_assoc. reflexivity.
Qed.

Lemma snprintf_at_first (data : string) :
  has_char is_nul data = false ->
  snprintf_at [] 0 (String.length data) data = bytes_of data ++ [None].
Proof.
  intros Hd. unfold snprintf_at.
  rewrite until_nul_clean by exact Hd. rewrite substring_all. reflexivity.
Qed.

(** The loop over full reads followed by one that ends it. *)
Lemma read_loop_chunks (fulls : list string) (last : read_ret) (rest : list read_ret)
    (text : string) (output0 : option (list (option ascii))) :
  Forall (fun d => String.length d = (READ_MAX - 1)%nat /\ has_char is_nul d = false)
         fulls ->
  output0 = (if (String.length text =? 0)%nat then None
             else Some (bytes_of text ++ [None])) ->
  read_loop (map Read_bytes fulls ++ last :: rest) output0 (String.length text)
  = read_loop (last :: rest)
      (if (String.length (text ++ String.concat EmptyString fulls) =? 0)%nat then None
       else Some (bytes_of (text ++ String.concat EmptyString fulls) ++ [None]))
      (String.length (text ++ String.concat EmptyString fulls)).
Proof.
  revert text output0. induction fulls as [|d ds IH]; intros text output0 Hall Hout.
  - cbn [map app String.concat]. rewrite append_nil_r. subst output0. reflexivity.
  - apply Forall_cons in Hall as [[Hlen Hnul] Hds].
    cbn [map app]. cbn [read_loop]. rewrite Hlen, Nat.eqb_refl.
    change (0 <? READ_MAX - 1)%nat with true. cbv iota.
    assert (Hcat : (text ++ String.concat EmptyString (d :: ds))%string
                   = ((text ++ d) ++ String.concat EmptyString ds)%string).
    { destruct ds as [|d' ds'].
      - cbn [String.concat]. rewrite append_nil_r. reflexivity.
      - cbn [String.concat]. rewrite append_nil_l, append_assoc. reflexivity. }
    rewrite Hcat.
    replace (String.length text + (READ_MAX - 1))%nat with (String.length (text ++ d))
      by (rewrite length_append, Hlen; reflexivity).
    apply IH; [exact Hds|].
    replace (String.length (text ++ d) =? 0)%nat with false
      by (symmetry; apply Nat.eqb_neq; rewrite length_append, Hlen;
          unfold READ_MAX; lia).
    f_equal. rewrite <- Hlen. subst output0.
    destruct (String.length text =? 0)%nat eqn:E.
    + apply Nat.eqb_eq in E. destruct text; [| discriminate E].
      rewrite append_nil_l. apply snprintf_at_first, Hnul.
    + apply snprintf_at_append, Hnul.
Qed.

(** X24.  [read_output] does not read from descriptor 0 and returns
    [NULL] for it.  For another descriptor, after any number of reads that
    fill the buffer (free of 0 bytes), a shorter non-empty read ends the
    loop and the result is all the text read, in order; a read of 0 bytes or
    a failing read (other than [EINTR]) ends the loop with the text read so
    far, [NULL] if there is none.  What the descriptor holds beyond that read
    is not read. *)
Theorem read_output_chunks (fd : Z) (fulls : list string) (last : read_ret)
    (rest : list read_ret) :
  Forall (fun d => String.length d = (READ_MAX - 1)%nat /\ has_char is_nul d = false)
         fulls ->
  read_output 0 (map Read_bytes fulls ++ last :: rest)
  = Some (None, map Read_bytes fulls ++ last :: rest) /\
  (fd <> 0 ->
   let text := String.concat EmptyString fulls in
   match last with
   | Read_bytes short =>
       (0 < String.length short < READ_MAX - 1)%nat ->
       has_char is_nul short = false ->
       read_output fd (map Read_bytes fulls ++ last :: rest)
       = Some (Some (text ++ short)%string, rest)
   | Read_zero | Read_error false =>
       read_output fd (map Read_bytes fulls ++ last :: rest)
       = Some (if (String.length text =? 0)%nat then None else Some text, rest)
   | Read_error true => True
   end).
Proof.
  intros Hall. split; [reflexivity|]. intros Hfd text.
  assert (Hloop := read_loop_chunks fulls last rest EmptyString None Hall eq_refl).
  rewrite append_nil_l in Hloop. fold text in Hloop.
  change (String.length EmptyString) with 0%nat in Hloop.
  unfold read_output.
  replace (fd =? 0) with false by (symmetry; apply Z.eqb_neq; exact Hfd).
  destruct last as [short| |[|]]; [| | exact I |].
  - intros Hlen Hnul. rewrite Hloop. cbn [read_loop].
    replace (String.length short =? READ_MAX - 1)%nat with false
      by (symmetry; apply Nat.eqb_neq; lia).
    replace (0 <? String.length short)%nat with true
      by (symmetry; apply Nat.ltb_lt; lia).
    cbn [option_map]. f_equal. f_equal. f_equal.
    destruct (String.length text =? 0)%nat eqn:E.
    + apply Nat.eqb_eq in E. destruct text; [| discriminate E].
      rewrite append_nil_l, snprintf_at_first by exact Hnul.
      apply c_string_bytes.
    + rewrite snprintf_at_append by exact Hnul. apply c_string_bytes.
  - rewrite Hloop. cbn [read_loop].
    destruct (String.length text =? 0)%nat; [reflexivity|].
    cbn [option_map]. rewrite c_string_bytes. reflexivity.
  - rewrite Hloop. cbn [read_loop].
    destruct (String.length text =? 0)%nat; [reflexivity|].
    cbn [option_map]. rewrite c_string_bytes. reflexivity.
Qed.

Lemma read_loop_hidden (reads : list read_ret) (shown : string)
    (output0 : list (option ascii)) (len : nat)
    (output1 : option (list (option ascii))) (rest : list read_ret) :
  take (S (String.length shown)) output0 = bytes_of shown ++ [None] ->
  (S (String.length shown) <= len)%nat ->
  read_loop reads (Some output0) len = Some (output1, rest) ->
  option_map c_string output1 = Some shown.
Proof.
  revert output0 len. induction reads as [|r reads IH];
    intros output0 len Htake Hlen Hloop; [discriminate|].
  assert (Hshown : c_string output0 = shown).
  { rewrite <- (take_drop (S (String.length shown)) output0), Htake, <- app_assoc.
    apply c_string_bytes. }
  assert (Hl0 : (S (String.length shown) <= length output0)%nat).
  { apply (f_equal length) in Htake.
    rewrite length_take, length_app, bytes_of_length in Htake.
    cbn [length] in Htake. lia. }
  assert (Hnext : forall more data,
             take (S (String.length shown)) (snprintf_at output0 len more data)
             = bytes_of shown ++ [None]).
  { intros more data. unfold snprintf_at.
    rewrite take_app_le by (rewrite length_take; lia).
    rewrite take_take, Nat.min_l by lia. exact Htake. }
  cbn [read_loop] in Hloop. destruct r as [data| |[|]].
  - destruct (0 <? String.length data)%nat.
    + destruct (String.length data =? READ_MAX - 1)%nat.
      * apply (IH _ _ (Hnext _ _)) in Hloop; [exact Hloop | lia].
      * injection Hloop as <- <-. cbn [option_map]. f_equal.
        rewrite <- (take_drop (S (String.length shown)) (snprintf_at _ _ _ _)),
          Hnext, <- app_assoc.
        apply c_string_bytes.
    + destruct (String.length data =? READ_MAX - 1)%nat.
      * apply (IH _ _ Htake Hlen) in Hloop. exact Hloop.
      * injection Hloop as <- <-. cbn [option_map]. rewrite Hshown. reflexivity.
  - injection Hloop as <- <-. cbn [option_map]. rewrite Hshown. reflexivity.
  - apply (IH _ _ Htake Hlen) in Hloop. exact Hloop.
  - injection Hloop as <- <-. cbn [option_map]. rewrite Hshown. reflexivity.
Qed.

Lemma until_nul_shorter (s : string) :
  has_char is_nul s = true -> (String.length (until_nul s) < String.length s)%nat.
Proof.
  induction s as [|c s IH]; [discriminate|]. cbn [has_char until_nul String.length].
  destruct (is_nul c); [cbn; lia|]. cbn [orb String.length]. intros H.
  specialize (IH H). lia.
Qed.

Lemma substring_longer (s : string) (n : nat) :
  (String.length s <= n)%nat -> String.substring 0 n s = s.
Proof.
  revert n. induction s as [|c s IH]; intros n Hn; [destruct n; reflexivity|].
  destruct n; [cbn in Hn; lia|]. cbn [String.substring].
  rewrite IH by (cbn in Hn; lia). reflexivity.
Qed.

(** X25.  When a read that fills the buffer contains a 0 byte, the
    text [read_output] returns ends just before that byte, whatever is read
    afterwards. *)
Theorem read_output_nul (fd : Z) (fulls : list string) (data : string)
    (later rest : list read_ret) (result : option string) :
  fd <> 0 ->
  Forall (fun d => String.length d = (READ_MAX - 1)%nat /\ has_char is_nul d = false)
         fulls ->
  String.length data = (READ_MAX - 1)%nat ->
  has_char is_nul data = true ->
  read_output fd (map Read_bytes fulls ++ Read_bytes data :: later) = Some (result, rest) ->
  result = Some (String.concat EmptyString fulls ++ until_nul data)%string.
Proof.
  intros Hfd Hall Hlen Hnul. unfold read_output.
  replace (fd =? 0) with false by (symmetry; apply Z.eqb_neq; exact Hfd).
  assert (Hloop := read_loop_chunks fulls (Read_bytes data) later EmptyString None
                     Hall eq_refl).
  rewrite append_nil_l in Hloop. change (String.length EmptyString) with 0%nat in Hloop.
  rewrite Hloop. clear Hloop. set (text := String.concat EmptyString fulls).
  cbn [read_loop]. rewrite Hlen, Nat.eqb_refl.
  change (0 <? READ_MAX - 1)%nat with true. cbv iota.
  destruct (read_loop later _ _) as [[output1 rest1]|] eqn:El; [| discriminate].
  intros [= <- <-].
  pose proof (until_nul_shorter data Hnul) as Hshort.
  apply (read_loop_hidden later (text ++ until_nul data)) in El; [exact El | |].
  - unfold snprintf_at.
    rewrite substring_longer by lia.
    destruct (String.length text =? 0)%nat eqn:E.
    + apply Nat.eqb_eq in E. destruct text; [| discriminate E].
      rewrite append_nil_l. cbn [take length Nat.sub replicate app String.length].
      apply take_ge. rewrite length_app, bytes_of_length. cbn [length]. lia.
    + rewrite <- (bytes_of_length text), take_app_length.
      rewrite length_app. cbn [length].
      replace (length (bytes_of text) - (length (bytes_of text) + 1))%nat
        with 0%nat by lia.
      cbn [replicate app]. rewrite bytes_of_app, <- app_assoc.
      apply take_ge. rewrite !length_app, length_append, !bytes_of_length.
      cbn [length]. lia.
  - rewrite length_append. lia.
Qed.

(* ===================================================================== *)
(** * The first line of the arguments *)
(* ===================================================================== *)

Section ActionLine.

Variable safe_str_eq : option string -> option string -> bool.
Variable safe_str_neq : option string -> option string -> bool.

Lemma append_arg_extends (first : string) (key value : option string)
    (args : option string) :
  (exists r, args = Some (first ++ r)%string) ->
  exists r, append_arg safe_str_eq key value args = Some (first ++ r)%string.
Proof.
  intros [r ->]. unfold append_arg.
  destruct key as [k|]; [| eauto]. destruct value as [v|]; [| eauto].
  destruct (strstr k "pcmk_"); [eauto|].
  destruct (strstr k CRM_META); [eauto|].
  destruct (safe_str_eq _ _); [eauto|].
  exists (r ++ k ++ "=" ++ v ++ newline)%string. rewrite !append_assoc. reflexivity.
Qed.

Lemma fold_config_extends (first : string) (dargs : str_table) (args : option string) :
  (exists r, args = Some (first ++ r)%string) ->
  exists r,
    fold_left (fun acc kv => append_config_arg safe_str_eq safe_str_neq
                               (fst kv) (snd kv) acc) dargs args
    = Some (first ++ r)%string.
Proof.
  revert args. induction dargs as [|kv t IH]; intros args Hargs; [exact Hargs|].
  cbn [fold_left]. apply IH. unfold append_config_arg.
  destruct (safe_str_neq _ _); [| exact Hargs].
  apply append_arg_extends, Hargs.
Qed.

(** X26.  When [safe_str_eq] does not take [action] for [crm_feature_set],
    the arguments [make_args] builds begin with the line [action=<a>], where
    [<a>] is the value of the device parameter [pcmk_<action>_action] if
    there is one and the requested action otherwise.  Without device
    parameters the arguments are that line alone: the victim is then not
    passed to the agent. *)
Theorem make_args_action_line (agent victim : option string) (action0 : string)
    (nodeid : N) (dargs pmap : option str_table) :
  safe_str_eq (Some STONITH_ATTR_ACTION_OP) (Some "crm_feature_set"%string) = false ->
  let substitute :=
    match dargs with
    | Some t =>
        match g_hash_table_lookup t (snprintf_512 ("pcmk_" ++ action0 ++ "_action")) with
        | Some v => v
        | None => action0
        end
    | None => action0
    end in
  (exists rest,
     make_args safe_str_eq safe_str_neq agent (Some action0) victim nodeid dargs pmap
     = Some ("action=" ++ substitute ++ newline ++ rest)%string) /\
  (dargs = None ->
   make_args safe_str_eq safe_str_neq agent (Some action0) victim nodeid dargs pmap
   = Some ("action=" ++ action0 ++ newline)%string).
Proof.
  intros Hfeature substitute.
  set (first := ("action=" ++ substitute ++ newline)%string).
  assert (Hline : append_arg safe_str_eq (Some STONITH_ATTR_ACTION_OP) (Some substitute)
                    None = Some first).
  { unfold append_arg. change (strstr STONITH_ATTR_ACTION_OP "pcmk_") with false.
    change (strstr STONITH_ATTR_ACTION_OP CRM_META) with false.
    cbv iota. rewrite Hfeature. reflexivity. }
  split.
  - assert (Hgoal : exists r,
               make_args safe_str_eq safe_str_neq agent (Some action0) victim nodeid
                         dargs pmap = Some (first ++ r)%string).
    { unfold make_args.
      assert (H0 : exists r, append_arg safe_str_eq (Some STONITH_ATTR_ACTION_OP)
                               (Some substitute) None = Some (first ++ r)%string).
      { exists EmptyString. rewrite Hline, append_nil_r. reflexivity. }
      subst substitute.
      destruct dargs as [t|]; [apply fold_config_extends |];
        repeat first
          [ exact H0
          | apply append_arg_extends
          | match goal with
            | |- exists r, (if ?c then _ else _) = _ => destruct c
            | |- exists r, match ?c with _ => _ end = _ => destruct c
            end ]. }
    destruct Hgoal as [r Hr]. exists r. rewrite Hr. subst first.
    rewrite !append_assoc. reflexivity.
  - intros ->. subst substitute first. unfold make_args.
    destruct victim; exact Hline.
Qed.

End ActionLine.

(* ===================================================================== *)
(** * The time of the last fencing *)
(* ===================================================================== *)

Lemma history_scan_completed (clock : nat -> Z) (hp : list stonith_history_t)
    (k : nat) (when : Z) :
  let result := history_scan false clock k hp when in
  when <= result /\
  (forall h, In h hp -> h_state h = st_done -> h_completed h <= result) /\
  (result = when \/
   exists h, In h hp /\ h_state h = st_done /\ h_completed h = result).
Proof.
  revert k when. induction hp as [|entry next IH]; intros k when.
  - cbn. split; [lia|]. split; [intros h []| left; reflexivity].
  - cbn [history_scan]. cbv zeta.
    set (when1 := match h_state entry with
                  | st_done => if when <? h_completed entry then h_completed entry
                               else when
                  | _ => when
                  end).
    assert (H1 : when <= when1 /\
                 (h_state entry = st_done -> h_completed entry <= when1) /\
                 (when1 = when \/ (h_state entry = st_done /\ h_completed entry = when1))).
    { subst when1. destruct (h_state entry).
      - destruct (Z.ltb_spec when (h_completed entry));
          (split; [lia|]; split; [intros _; lia|]); [right | left]; auto.
      - split; [lia|]. split; [discriminate | left; reflexivity].
      - split; [lia|]. split; [discriminate | left; reflexivity]. }
    destruct H1 as (Hle & Hdone & Hsrc).
    destruct (IH (S k) when1) as (Hle2 & Hall & Hsrc2).
    split; [lia|]. split.
    + intros h [<- | Hin] Hst; [specialize (Hdone Hst); lia | exact (Hall h Hin Hst)].
    + destruct Hsrc2 as [Heq | (h & Hin & Hst & Hc)].
      * destruct Hsrc as [Heq1 | [Hst Hc]].
        -- left. congruence.
        -- right. exists entry. split; [left; reflexivity|]. split; [exact Hst|]. congruence.
      * right. exists h. split; [right; exact Hin|]. auto.
Qed.

Lemma history_scan_in_progress (clock : nat -> Z) (hp : list stonith_history_t)
    (k : nat) (when : Z) :
  Forall (fun h => h_state h = st_done \/ h_state h = st_failed) hp ->
  history_scan true clock k hp when = when.
Proof.
  revert k when. induction hp as [|entry next IH]; intros k when Hall; [reflexivity|].
  apply Forall_cons in Hall as [Hentry Hnext]. cbn [history_scan]. cbv zeta.
  destruct Hentry as [-> | ->]; apply IH, Hnext.
Qed.

(** X27.  [stonith_api_time] returns 0 when no session can be made or
    connected.  On a connected session, asked for completed fencing, it
    returns the latest completion time among the history entries that are
    done when that is positive, and 0 otherwise; asked for fencing in
    progress, it returns 0 when every entry is done or failed. *)
Theorem fencing_time (safe_str_neq : option string -> option string -> bool)
    (allocated : bool) (io : signon_io) (history : list stonith_history_t)
    (clock : nat -> Z) (in_progress : bool) :
  let when := stonith_api_time safe_str_neq allocated io history clock in_progress in
  let connected :=
    allocated &&
    (snd (stonith_api_signon safe_str_neq
            (mk_signon_io false (sg_ipc io) (sg_connect io) (sg_send_rc io)
                          (sg_reply io))
            stonith_api_new) =? pcmk_ok) in
  (connected = false -> when = 0) /\
  (connected = true -> in_progress = false ->
   0 <= when /\
   (forall h, In h history -> h_state h = st_done -> h_completed h <= when) /\
   (when = 0 \/
    exists h, In h history /\ h_state h = st_done /\ h_completed h = when)) /\
  (connected = true -> in_progress = true ->
   Forall (fun h => h_state h = st_done \/ h_state h = st_failed) history ->
   when = 0).
Proof.
  intros when connected. subst when connected. unfold stonith_api_time.
  destruct allocated; cbn [andb]; [| repeat split; try discriminate; reflexivity].
  destruct (stonith_api_signon safe_str_neq _ stonith_api_new) as [st rc].
  cbn [snd]. destruct (rc =? pcmk_ok).
  - split; [discriminate|]. split.
    + intros _ ->. apply (history_scan_completed clock history 0 0).
    + intros _ -> Hall. apply history_scan_in_progress, Hall.
  - split; [reflexivity|]. split; discriminate.
Qed.

(* ===================================================================== *)
(** * Instances of the further properties *)
(* ===================================================================== *)

Lemma op_key_round_trip_witness :
  parse_op_key nocase_str_eq (Some (generate_op_key "vip" "monitor" 10000))
  = Some (true, mk_op_key_parts (Some "vip"%string) (Some "monitor"%string) 10000).
Proof.
  exact (op_key_round_trip nocase_str_eq "vip" "monitor" 10000%N
           eq_refl eq_refl eq_refl eq_refl).
Defined.

Lemma op_key_underscore_in_op_witness :
  parse_op_key nocase_str_eq (Some (generate_op_key "vm" "migrate_to" 0))
  = Some (true, mk_op_key_parts (Some "vm_migrate"%string) (Some "to"%string) 0).
Proof.
  exact (op_key_underscore_in_op nocase_str_eq "vm" "migrate" "to" 0%N
           eq_refl eq_refl eq_refl eq_refl).
Defined.

Lemma notify_key_parse_witness :
  parse_op_key nocase_str_eq (Some (generate_notify_key "vip" "post" "start"))
  = Some (true, mk_op_key_parts (Some "vip"%string) (Some "start"%string) 0).
Proof.
  exact (notify_key_parse nocase_str_eq "vip" "start" true
           eq_refl eq_refl eq_refl eq_refl eq_refl).
Defined.

Lemma parse_op_key_no_interval_witness :
  parse_op_key nocase_str_eq (Some "vip_start_"%string)
  = Some (false, mk_op_key_parts None None 0).
Proof.
  exact (proj2 (proj2 (parse_op_key_no_interval nocase_str_eq "vip_start" "_"
                         eq_refl))).
Defined.

Lemma parse_op_key_bare_interval_witness :
  parse_op_key nocase_str_eq (Some "_5"%string) = None.
Proof.
  exact (parse_op_key_bare_interval nocase_str_eq 5%N eq_refl).
Defined.

Lemma parse_op_key_interval_on_failure_witness :
  parse_op_key nocase_str_eq (Some "vip_monitor-10"%string)
  = Some (false, mk_op_key_parts None None 10).
Proof.
  exact (parse_op_key_interval_on_failure nocase_str_eq "vip_monitor" "-" 10%N
           eq_refl eq_refl eq_refl).
Defined.

Lemma level_devices_joined_witness :
  exists data,
    create_level_registration_xml (Some "node1"%string) None None None 1
      [mk_key_value None (Some "pdu"%string); mk_key_value None (Some "ipmi"%string)]
    = Some (Some data) /\
    lr_id data = 1 /\ lr_index data = 1 /\
    lr_devices data = Some "pdu,ipmi"%string.
Proof.
  exact (level_devices_joined (Some "node1"%string) None None None 1
           [mk_key_value None (Some "pdu"%string);
            mk_key_value None (Some "ipmi"%string)]
           "pdu" ["ipmi"%string]
           (or_introl (ex_intro _ "node1"%string eq_refl)) eq_refl
           ltac:(discriminate)).
Defined.

Lemma level_devices_empty_first_witness :
  exists data,
    create_level_registration_xml (Some "node1"%string) None None None 1
      [mk_key_value None (Some EmptyString); mk_key_value None (Some "pdu"%string);
       mk_key_value None (Some "ipmi"%string)]
    = Some (Some data) /\
    lr_devices data = Some "pdu"%string.
Proof.
  exact (level_devices_empty_first (Some "node1"%string) None None None 1
           [mk_key_value None (Some EmptyString); mk_key_value None (Some "pdu"%string);
            mk_key_value None (Some "ipmi"%string)]
           "pdu" ["ipmi"%string]
           (or_introl (ex_intro _ "node1"%string eq_refl)) eq_refl).
Defined.

Lemma register_then_deliver_witness :
  exists w1 st1,
    stonith_api_add_callback session_world session_with_callbacks 6 30 0 5
                             (Some "done"%string) (Some 3%nat)
    = Some (w1, st1, 1, []) /\
    let '(w2, st2, invs) :=
      stonith_perform_callback w1 st1 (Some (mk_reply (Some 6) (Some 0) "<r/>")) 0 0 in
    invs = [invoke_callback 6 0 5 3; invoke_callback 6 0 0 2] /\
    w_sources w2 = [] /\
    snd (stonith_perform_callback w2 st2 (Some (mk_reply (Some 6) (Some 0) "<r/>")) 0 0)
    = [invoke_callback 6 0 0 2].
Proof.
  assert (H1 : 0 < 6) by reflexivity.
  assert (H2 : stonith_op_callback_table (st_private session_with_callbacks) !! 6 = None)
    by reflexivity.
  assert (H3 : (30 + 60) * 1000 <= INT_MAX) by (vm_compute; discriminate).
  assert (H4 : sources_fresh session_world) by constructor.
  assert (H5 : 0 < w_next_source session_world) by reflexivity.
  destruct (register_then_deliver session_world session_with_callbacks 6 30 0 5
              (Some "done"%string) 3%nat 0 "<r/>" H1 H2 H3 H4 H5)
    as (w1 & st1 & Hadd & Hrest).
  exists w1, st1. split; [exact Hadd|].
  destruct (stonith_perform_callback w1 st1 _ 0 0) as [[w2 st2] invs].
  destruct Hrest as (Hinvs & _ & Hsrc & Hsecond).
  split; [exact Hinvs|]. split; [exact Hsrc | exact Hsecond].
Defined.

Lemma timeout_reaches_callback_witness :
  exists w1 st1 t,
    stonith_api_add_callback session_world session_with_callbacks 6 30
                             st_opt_report_only_success 5
                             (Some "done"%string) (Some 3%nat)
    = Some (w1, st1, 1, []) /\
    let '(w2, st2, invs, again) := stonith_async_timeout_handler w1 st1 t in
    again = true /\ invs = [invoke_callback 6 (- ETIME) 0 2] /\ w_sources w2 = [].
Proof.
  assert (H1 : 0 < 6) by reflexivity.
  assert (H2 : stonith_op_callback_table (st_private session_with_callbacks) !! 6 = None)
    by reflexivity.
  assert (H0 : 0 < 30) by reflexivity.
  assert (H3 : (30 + 60) * 1000 <= INT_MAX) by (vm_compute; discriminate).
  assert (H4 : sources_fresh session_world) by constructor.
  assert (H5 : 0 < w_next_source session_world) by reflexivity.
  destruct (timeout_reaches_callback session_world session_with_callbacks 6 30
              st_opt_report_only_success 5 (Some "done"%string) 3%nat
              H1 H2 H0 H3 H4 H5)
    as (w1 & st1 & blob & t & Hadd & _ & _ & _ & Hrest).
  exists w1, st1, t. split; [exact Hadd|].
  destruct (stonith_async_timeout_handler w1 st1 t) as [[[w2 st2] invs] again].
  destruct Hrest as (Hagain & Hinvs & _ & Hsrc).
  split; [exact Hagain|]. split; [exact Hinvs | exact Hsrc].
Defined.

Lemma update_timeout_replaces_timer_witness :
  exists w1 st1,
    stonith_api_add_callback session_world session_with_callbacks 6 30
                             st_opt_timeout_updates 5
                             (Some "done"%string) (Some 3%nat)
    = Some (w1, st1, 1, []) /\
    w_sources (fst (update_callback_timeout w1 6 60 st1))
    = [mk_gsource 2 120000 (Stonith_async_timeout_handler 6)].
Proof.
  assert (H1 : 0 < 6) by reflexivity.
  assert (H2 : stonith_op_callback_table (st_private session_with_callbacks) !! 6 = None)
    by reflexivity.
  assert (H0 : 0 < 30) by reflexivity.
  assert (H3 : (30 + 60) * 1000 <= INT_MAX) by (vm_compute; discriminate).
  assert (H6 : 0 < 60) by reflexivity.
  assert (H7 : (60 + 60) * 1000 <= INT_MAX) by (vm_compute; discriminate).
  assert (H4 : sources_fresh session_world) by constructor.
  assert (H5 : 0 < w_next_source session_world) by reflexivity.
  destruct (update_timeout_replaces_timer session_world session_with_callbacks 6 30 60
              st_opt_timeout_updates 5 (Some "done"%string) (Some 3%nat)
              H1 H2 H0 H3 H6 H7 H4 H5)
    as (w1 & st1 & Hadd & Hrest).
  exists w1, st1. split; [exact Hadd|].
  destruct (update_callback_timeout w1 6 60 st1) as [w2 st2].
  change (has_opt st_opt_timeout_updates st_opt_timeout_updates) with true in Hrest.
  destruct Hrest as (Hsrc & _). exact Hsrc.
Defined.

Lemma async_retry_conditions_witness :
  let a := mk_action (Some "fence_ipmilan"%string) (Some "reboot"%string) None
                     (Some ("action=reboot" ++ newline)%string)
                     10 1 4 5 0 1000 1 10 0 0 2 321 0 None None in
  exists w' a',
    stonith_action_async_done 1003 spawn_ok None (Some "failed"%string) 0 1
                              idle_world a
    = Retrying w' a' /\
    tries a < max_retries a /\ tries a' = 2 /\ pid a' = 321.
Proof.
  intros a.
  destruct (stonith_action_async_done 1003 spawn_ok None (Some "failed"%string) 0 1
              idle_world a) as [w' a'|w' r o] eqn:E;
    [| vm_compute in E; discriminate E].
  exists w', a'. split; [reflexivity|].
  destruct (async_retry_conditions 1003 spawn_ok None (Some "failed"%string) 0 1
              idle_world w' a a' E) as (H1 & H2 & _ & _ & H5).
  split; [exact H1|]. split; [exact H2 | exact H5].
Defined.

Lemma async_respawn_failure_reports_success_witness :
  let a := mk_action (Some "fence_ipmilan"%string) (Some "reboot"%string) None
                     (Some ("action=reboot" ++ newline)%string)
                     10 1 4 5 0 1000 1 10 0 0 2 321 0 None None in
  exists w',
    stonith_action_async_done 1003 (mk_spawn false 0 0 0 0 0) None
                              (Some "failed"%string) 0 1 idle_world a
    = Completed w' pcmk_ok None.
Proof.
  intros a.
  apply (async_respawn_failure_reports_success 1003 (mk_spawn false 0 0 0 0 0) None
           (Some "failed"%string) 0 1 idle_world a).
  - vm_compute. discriminate.
  - vm_compute. reflexivity.
  - left. reflexivity.
Defined.

Lemma async_completion_reports_witness :
  let a := mk_action (Some "fence_ipmilan"%string) (Some "reboot"%string) None
                     (Some ("action=reboot" ++ newline)%string)
                     10 1 4 5 0 1000 1 10 0 0 2 321 0 None None in
  exists w',
    stonith_action_async_done 1003 spawn_ok (Some "done"%string) None 0 0 idle_world a
    = Completed w' 0 (Some "done"%string) /\
    w_kills w' = [].
Proof.
  intros a.
  apply (async_completion_reports 1003 spawn_ok (Some "done"%string) None 0 0
           idle_world a).
  left. reflexivity.
Defined.

Lemma sync_exit_ends_run_witness :
  let a := mk_action (Some "fence_ipmilan"%string) (Some "reboot"%string) None
                     (Some ("action=reboot" ++ newline)%string)
                     10 0 0 0 0 0 0 10 0 0 2 0 0 None None in
  let ch := mk_child_run (Some 3%nat) (Status_exited 1) (Some "out"%string)
                         (Some "err"%string) in
  exists w' a',
    stonith__execute 20 [mk_attempt 1000 spawn_ok ch 1003] idle_world (Some a)
    = Some (w', Some a', pcmk_ok) /\
    rc a' = -1 /\ output a' = Some "out"%string /\ tries a' = 1 /\ w_kills w' = [].
Proof.
  intros a ch.
  assert (Hsp : spawned spawn_ok a).
  { split; [reflexivity|]. split; [reflexivity|].
    eexists _, _. split; [reflexivity|]. split; reflexivity. }
  assert (Hrem : 0 <= remaining_timeout a < INT_MAX)
    by (vm_compute; split; [discriminate | reflexivity]).
  assert (Hle : Z.of_nat 3 <= remaining_timeout a) by (vm_compute; discriminate).
  assert (Hfuel : (3 < 20)%nat) by lia.
  destruct (sync_exit_ends_run 20 1000 1003 spawn_ok ch [] idle_world a 3 1
              Hsp Hrem eq_refl Hle Hfuel eq_refl)
    as (w' & a' & Hrun & Hrc & Hout & _ & Htries & Hkills).
  exists w', a'. split; [exact Hrun|]. split; [exact Hrc|]. split; [exact Hout|].
  split; [exact Htries | exact Hkills].
Defined.

Lemma sync_timeout_kills_witness :
  let a := mk_action (Some "fence_ipmilan"%string) (Some "reboot"%string) None
                     (Some ("action=reboot" ++ newline)%string)
                     10 0 0 0 0 0 0 10 0 0 2 0 0 None None in
  let ch := mk_child_run None Status_other None None in
  exists w' a',
    stonith__execute 20 [mk_attempt 1000 spawn_ok ch 1011] idle_world (Some a)
    = Some (w', Some a', - ECONNABORTED) /\
    rc a' = - ETIME /\ w_kills w' = [(-321, SIGKILL)].
Proof.
  intros a ch.
  assert (Hsp : spawned spawn_ok a).
  { split; [reflexivity|]. split; [reflexivity|].
    eexists _, _. split; [reflexivity|]. split; reflexivity. }
  assert (Hrem : 0 <= remaining_timeout a < INT_MAX)
    by (vm_compute; split; [discriminate | reflexivity]).
  assert (Hpoll : forall k, Z.of_nat k <= remaining_timeout a -> polled ch k = false)
    by (intros k _; reflexivity).
  assert (Hfuel : (Z.to_nat (remaining_timeout a) + 1 < 20)%nat) by (vm_compute; lia).
  destruct (sync_timeout_kills 20 1000 1011 spawn_ok ch [] idle_world a
              Hsp Hrem Hpoll Hfuel)
    as (w' & a' & Hrun & Hrc & _ & _ & Hkills).
  exists w', a'. split; [exact Hrun|]. split; [exact Hrc | exact Hkills].
Defined.

Lemma sync_attempts_bounded_witness :
  let a := mk_action (Some "fence_ipmilan"%string) (Some "reboot"%string) None
                     (Some ("action=reboot" ++ newline)%string)
                     10 0 0 0 0 0 0 10 0 0 2 0 0 None None in
  let broken := mk_attempt 1000 (mk_spawn false 0 0 0 0 0)
                           (mk_child_run None Status_other None None) 1001 in
  exists w' a' r,
    stonith__execute 20 [broken; broken; broken] idle_world (Some a)
    = Some (w', Some a', r) /\
    tries a < tries a' /\ tries a' <= 2.
Proof.
  intros a broken.
  destruct (stonith__execute 20 [broken; broken; broken] idle_world (Some a))
    as [[[w' [a'|]] r]|] eqn:E; try (vm_compute in E; discriminate E).
  exists w', a', r. split; [reflexivity|].
  apply (sync_attempts_bounded 20 [broken; broken; broken] idle_world w' a a' r);
    [vm_compute; discriminate | vm_compute; discriminate | exact E].
Defined.

Lemma new_action_default_attempts_witness :
  let a := stonith_action_create nocase_str_eq nocase_str_neq (fun _ => 0)
             "fence_ipmilan" "reboot" (Some "node2"%string) 0 10 None None in
  let broken := mk_attempt 1000 (mk_spawn false 0 0 0 0 0)
                           (mk_child_run None Status_other None None) 1001 in
  exists w' a' r,
    stonith__execute 20 [broken; broken; broken] idle_world (Some a)
    = Some (w', Some a', r) /\
    max_retries a = 2 /\ 1 <= tries a' <= 2.
Proof.
  intros a broken.
  destruct (stonith__execute 20 [broken; broken; broken] idle_world (Some a))
    as [[[w' [a'|]] r]|] eqn:E; try (vm_compute in E; discriminate E).
  exists w', a', r. split; [reflexivity|].
  destruct (new_action_default_attempts nocase_str_eq nocase_str_neq (fun _ => 0)
              "fence_ipmilan" "reboot" (Some "node2"%string) 0 10 None None
              20 [broken; broken; broken] idle_world w' a' r)
    as (_ & _ & _ & Hmr & Htries);
    [intros t Ht; discriminate Ht | vm_compute; discriminate | exact E |].
  split; [exact Hmr | exact Htries].
Defined.

Lemma read_output_chunks_witness :
  let full := string_of_list_ascii (repeat "x"%char 499) in
  read_output 4 [Read_bytes full; Read_bytes "ok"; Read_bytes "later"]
  = Some (Some (full ++ "ok")%string, [Read_bytes "later"]).
Proof.
  intros full.
  assert (Hall : Forall (fun d => String.length d = (READ_MAX - 1)%nat /\
                                  has_char is_nul d = false) [full]).
  { constructor; [| constructor]. split; vm_compute; reflexivity. }
  assert (Hfd : 4 <> 0) by discriminate.
  assert (Hlen : (0 < String.length "ok" < READ_MAX - 1)%nat) by (vm_compute; lia).
  exact (proj2 (read_output_chunks 4 [full] (Read_bytes "ok") [Read_bytes "later"] Hall)
               Hfd Hlen eq_refl).
Defined.

Lemma read_output_nul_witness :
  let data := string_of_list_ascii ("a"%char :: Ascii.zero :: repeat "x"%char 497) in
  exists result rest,
    read_output 4 [Read_bytes data; Read_bytes "tail"] = Some (result, rest) /\
    result = Some "a"%string.
Proof.
  intros data.
  destruct (read_output 4 [Read_bytes data; Read_bytes "tail"]) as [[result rest]|] eqn:E;
    [| vm_compute in E; discriminate E].
  exists result, rest. split; [reflexivity|].
  apply (read_output_nul 4 [] data [Read_bytes "tail"] rest result);
    [discriminate | constructor | vm_compute; reflexivity | vm_compute; reflexivity
    | exact E].
Defined.

Lemma make_args_action_line_witness :
  make_args nocase_str_eq nocase_str_neq (Some "fence_ipmilan"%string)
            (Some "reboot"%string) (Some "node2"%string) 7%N None
            (Some port_map_example)
  = Some ("action=reboot" ++ newline)%string.
Proof.
  exact (proj2 (make_args_action_line nocase_str_eq nocase_str_neq
                  (Some "fence_ipmilan"%string) (Some "node2"%string) "reboot" 7%N
                  None (Some port_map_example) eq_refl)
               eq_refl).
Defined.

Lemma default_callback_timer_repeats_witness :
  exists w1 st1 t,
    stonith_api_add_callback session_world session_with_callbacks 0 30 0 77
                             (Some "default"%string) (Some 9%nat)
    = Some (w1, st1, 1, []) /\
    let '(w2, st2, invs, again) := stonith_async_timeout_handler w1 st1 t in
    again = true /\ invs = [invoke_callback 0 (- ETIME) 77 9] /\
    op_callback (st_private st2) = None /\ w2 = w1 /\
    stonith_async_timeout_handler w2 st2 t = (w2, st2, invs, true).
Proof.
  assert (H1 : 0 < 30) by reflexivity.
  assert (H2 : (30 + 60) * 1000 <= INT_MAX) by (vm_compute; discriminate).
  assert (H3 : stonith_op_callback_table (st_private session_with_callbacks) !! 0 = None)
    by reflexivity.
  destruct (default_callback_timer_repeats session_world session_with_callbacks 30 0 77
              (Some "default"%string) 9%nat H1 H2 H3 eq_refl)
    as (w1 & st1 & blob & t & Hadd & _ & _ & _ & _ & Hrest).
  exists w1, st1, t. split; [exact Hadd|].
  destruct (stonith_async_timeout_handler w1 st1 t) as [[[w2 st2] invs] again].
  destruct Hrest as (Hagain & Hinvs & Hop & _ & Hw & Hrepeat).
  repeat (split; [assumption|]). exact Hrepeat.
Defined.
